(** * Virtyum service API: the Service model and its controller

    A shallow embedding of the back end of the repository:
    - [models/Service.js]: the Mongoose schema of a service and its
      pre-save hook;
    - [controllers/serviceController.js]: the seven request handlers;
    - the inline copy of schema and handlers of the Vercel entry point,
      which declares the same schema without the pre-save hook, and its
      connection middleware;
    - [controllers/taskController.js]: reading and deleting a task;
    - of the front end, the validation of the form in
      [services/serviceApi.js] and the recent services of
      [components/Dashboard.jsx].

    The handlers are written in JavaScript against Mongoose.  The
    development follows that layering: [Js] holds the values and string
    operations the handlers use, [Mongoose] the part of the library the
    schema options and model calls rely on (casting, setters, validators,
    save, queries), [Service] the schema as it is declared, and
    [Controller] the handlers. *)

From Stdlib Require Import ZArith NArith QArith Qround Qabs Qminmax String Ascii List.
From Stdlib Require Import Sorting.Sorted Sorting.Permutation Lia Lqa.
From stdpp Require Import base option list gmap strings.
From Stdlib Require Floats.PrimFloat Floats.FloatOps Floats.SpecFloat.

Set Default Proof Using "Type".
Local Open Scope string_scope.
Local Open Scope list_scope.

(** ** JavaScript values *)

Module Js.

(** A JavaScript string is the sequence of its UTF-16 code units. *)
Abbreviation jsstring := (list N).

(** The code units of a literal of ASCII characters. *)
Fixpoint js (s : string) : jsstring :=
  match s with
  | EmptyString => []
  | String c r => N_of_ascii c :: js r
  end.

(** The values a parsed JSON body can hold, and [undefined] for a
    property that is absent.  A number is given by its value, a rational:
    the doubles are among them, comparisons of doubles are comparisons
    of their values, and the sums and quotients the store computes, which
    round, are operations of the runtime (see [Runtime] below).  A
    literal that [JSON.parse] reads as [Infinity] is not a value of the
    model.  Of an object only its [_id] property is kept, [undefined]
    when it has none, because Mongoose's casts read it. *)
Inductive JsValue :=
  | VUndefined
  | VNull
  | VBool (b : bool)
  | VNum (q : Q)
  | VStr (s : jsstring)
  | VArray
  | VObject (_id : JsValue).

(** ToBoolean. *)
Definition truthy (v : JsValue) : bool :=
  match v with
  | VUndefined | VNull => false
  | VBool b => b
  | VNum q => negb (Qeq_bool q 0)
  | VStr s => match s with [] => false | _ => true end
  | VArray | VObject _ => true
  end.

Definition falsy (v : JsValue) : bool := negb (truthy v).

(** [a || b] *)
Definition or (a b : JsValue) : JsValue := if truthy a then a else b.

(** [v !== undefined] *)
Definition is_defined (v : JsValue) : bool :=
  match v with VUndefined => false | _ => true end.

(** A request body: the object [express.json()] parsed.  Reading a
    property that is absent gives [undefined]. *)
Definition prop (o : gmap string JsValue) (k : string) : JsValue :=
  default VUndefined (o !! k).

(** *** Strings *)

(** WhiteSpace and LineTerminator code points, which [trim] removes. *)
Definition is_space (c : N) : bool :=
  ((9 <=? c) && (c <=? 13) || (c =? 32) || (c =? 160) || (c =? 5760)
   || (8192 <=? c) && (c <=? 8202) || (c =? 8232) || (c =? 8233)
   || (c =? 8239) || (c =? 8287) || (c =? 12288) || (c =? 65279))%N.

Fixpoint trimStart (s : jsstring) : jsstring :=
  match s with
  | [] => []
  | c :: r => if is_space c then trimStart r else s
  end.

Definition trimEnd (s : jsstring) : jsstring := rev (trimStart (rev s)).

Definition trim (s : jsstring) : jsstring := trimEnd (trimStart s).

(** [s.charAt(0)]: the first code unit as a string, or the empty string. *)
Definition charAt0 (s : jsstring) : jsstring :=
  match s with [] => [] | c :: _ => [c] end.

(** [s.slice(1)] *)
Definition slice1 (s : jsstring) : jsstring :=
  match s with [] => [] | _ :: r => r end.

Section Unicode.
(** The upper-casing of the code units from 128 on is Unicode's table;
    the development is parametric in it. *)
Variable upper_table : N -> jsstring.

Definition upper_unit (c : N) : jsstring :=
  if ((97 <=? c) && (c <=? 122))%N then [(c - 32)%N]
  else if (c <? 128)%N then [c]
  else upper_table c.

(** [s.toUpperCase()], for the strings [charAt] returns: a lone code unit
    has no surrogate partner to combine with. *)
Definition toUpperCase (s : jsstring) : jsstring := flat_map upper_unit s.
End Unicode.

(** [Math.round]: the nearest integer, a tie going up. *)
Definition Math_round (q : Q) : Z := Qfloor (q + (1 # 2))%Q.

End Js.

(** ** The part of Mongoose the schema and the handlers rely on *)

Module Mongoose.
Import Js.

(** What a path of a document holds once cast to its schema type. *)
Inductive Nullable (A : Type) :=
  | Undef
  | Null
  | Val (a : A).
Arguments Undef {A}.
Arguments Null {A}.
Arguments Val {A} a.

(** What a path of a document in memory holds after an assignment: the
    cast value, or the value that could not be cast.  The failure is
    reported when the document is validated. *)
Inductive Cast (A : Type) :=
  | CastOk (v : Nullable A)
  | CastError (v : JsValue).
Arguments CastOk {A} v.
Arguments CastError {A} v.

(** [err.message] of a validator error or of a cast error. *)
Inductive Message :=
  | Text (s : string)
  | CastFailed (kind : string) (v : JsValue) (path : string).

Inductive Required :=
  | Optional
  | RequiredDefaultMessage
  | RequiredWith (message : string).

Inductive StringValidator :=
  | MaxLength (n : nat) (message : string)
  | Enum (values : list jsstring) (message : string).

Inductive NumberValidator :=
  | Min (q : Q) (message : string).

(** The options of a path of type [String] and of type [Number]; the
    validators are kept in the order of their declaration. *)
Record StringOptions := {
  s_required : Required;
  s_trim : bool;
  s_validators : list StringValidator;
  s_default : option jsstring }.

Record NumberOptions := {
  n_required : Required;
  n_validators : list NumberValidator;
  n_default : option Q }.

(** The conversions between numbers and strings of the JavaScript
    runtime, Unicode's upper-casing, and the arithmetic of doubles of the
    store's accumulators: the development is parametric in them.
    [stringToNumber] is [Number(s)], [None] standing for [NaN];
    [sum_of] is the total [$sum] and [$avg] accumulate over the numbers
    of a group, and [quotient] the division of doubles. *)
Record Runtime := {
  upper_table : N -> jsstring;
  numberToString : Q -> jsstring;
  stringToNumber : jsstring -> option Q;
  sum_of : list Q -> Q;
  quotient : Q -> Q -> Q }.

Section Casting.
Variable rt : Runtime.

(** [castString]: [null] and [undefined] pass; a document-like object is
    replaced by its [_id] when that is a string that is not empty; a
    value with a [toString] of its own is converted; an array or a plain
    object fails. *)
Definition castString (v : JsValue) : Cast jsstring :=
  match v with
  | VUndefined => CastOk Undef
  | VNull => CastOk Null
  | VStr s => CastOk (Val s)
  | VNum q => CastOk (Val (numberToString rt q))
  | VBool b => CastOk (Val (js (if b then "true" else "false")))
  | VObject (VStr (c :: s)) => CastOk (Val (c :: s))
  | VObject _ | VArray => CastError v
  end.

(** The cast of [lib/cast/number.js]: [null] and [undefined] pass; the
    empty string is [null]; a string or a boolean goes through [Number];
    [NaN], an array or an object fails. *)
Definition castNumberValue (val : JsValue) : Cast Q :=
  match val with
  | VUndefined => CastOk Undef
  | VNull => CastOk Null
  | VStr [] => CastOk Null
  | VStr s => match stringToNumber rt s with
              | Some q => CastOk (Val q)
              | None => CastError val
              end
  | VBool b => CastOk (Val (if b then 1%Q else 0%Q))
  | VNum q => CastOk (Val q)
  | VArray | VObject _ => CastError val
  end.

(** [castNumber], the cast of a path of type [Number]:
    [value && typeof value._id !== 'undefined' ? value._id : value] is
    what is cast, and what a failure reports. *)
Definition castNumber (value : JsValue) : Cast Q :=
  castNumberValue
    match value with
    | VObject id => if is_defined id then id else value
    | _ => value
    end.

(** Assigning to a path of type [String] runs the setters, the one
    [trim: true] installs casts the value and trims a non-empty result,
    and then casts. *)
Definition set_string (o : StringOptions) (v : JsValue) : Cast jsstring :=
  match castString v with
  | CastOk (Val s) => CastOk (Val (if s_trim o then trim s else s))
  | c => c
  end.

Definition set_number (o : NumberOptions) (v : JsValue) : Cast Q :=
  castNumber v.

(** A new document takes the default of a path it is given no value for
    ([undefined]; [null] is a value). *)
Definition init_string (o : StringOptions) (v : JsValue) : Cast jsstring :=
  match v, s_default o with
  | VUndefined, Some d => CastOk (Val d)
  | _, _ => set_string o v
  end.

Definition init_number (o : NumberOptions) (v : JsValue) : Cast Q :=
  match v, n_default o with
  | VUndefined, Some d => CastOk (Val d)
  | _, _ => set_number o v
  end.
End Casting.

(** *** Validators *)

Definition required_message (path : string) (r : Required) : option Message :=
  match r with
  | Optional => None
  | RequiredDefaultMessage => Some (Text ("Path `" ++ path ++ "` is required.")%string)
  | RequiredWith m => Some (Text m)
  end.

(** [checkRequired] of a string path: a string that is not empty. *)
Definition string_present (v : Nullable jsstring) : bool :=
  match v with Val (_ :: _) => true | _ => false end.

(** [checkRequired] of a number path: a number. *)
Definition number_present (v : Nullable Q) : bool :=
  match v with Val _ => true | _ => false end.

(** The declared validators accept [null] and [undefined]. *)
Definition string_validator_ok (c : StringValidator) (v : Nullable jsstring) : bool :=
  match v, c with
  | Val s, MaxLength n _ => (length s <=? n)%nat
  | Val s, Enum values _ => bool_decide (s ∈ values)
  | _, _ => true
  end.

Definition string_validator_message (c : StringValidator) : Message :=
  match c with MaxLength _ m | Enum _ m => Text m end.

Definition number_validator_ok (c : NumberValidator) (v : Nullable Q) : bool :=
  match v, c with
  | Val q, Min m _ => Qle_bool m q
  | _, _ => true
  end.

Definition number_validator_message (c : NumberValidator) : Message :=
  match c with Min _ m => Text m end.

(** The first validator of the list that rejects the value. *)
Fixpoint first_failure {V A} (ok : V -> A -> bool) (msg : V -> Message)
    (vs : list V) (a : A) : option Message :=
  match vs with
  | [] => None
  | v :: r => if ok v a then first_failure ok msg r a else Some (msg v)
  end.

(** [doValidate] of a path: a failed cast is the error of the path; else
    the required validator runs first, then the declared ones in order,
    and the first failure is the error of the path. *)
Definition validate_string (path : string) (o : StringOptions)
    (c : Cast jsstring) : option Message :=
  match c with
  | CastError v => Some (CastFailed "string" v path)
  | CastOk v =>
      match required_message path (s_required o) with
      | Some m => if string_present v
                  then first_failure string_validator_ok string_validator_message (s_validators o) v
                  else Some m
      | None => first_failure string_validator_ok string_validator_message (s_validators o) v
      end
  end.

Definition validate_number (path : string) (o : NumberOptions)
    (c : Cast Q) : option Message :=
  match c with
  | CastError v => Some (CastFailed "Number" v path)
  | CastOk v =>
      match required_message path (n_required o) with
      | Some m => if number_present v
                  then first_failure number_validator_ok number_validator_message (n_validators o) v
                  else Some m
      | None => first_failure number_validator_ok number_validator_message (n_validators o) v
      end
  end.

(** The value a path is stored with. *)
Definition stored {A} (c : Cast A) : Nullable A :=
  match c with CastOk v => v | CastError _ => Undef end.

(** Reading a path of a document from JavaScript. *)
Definition read_string (v : Nullable jsstring) : JsValue :=
  match v with Undef => VUndefined | Null => VNull | Val s => VStr s end.

Definition read_number (v : Nullable Q) : JsValue :=
  match v with Undef => VUndefined | Null => VNull | Val q => VNum q end.

End Mongoose.

(** ** The Service model *)

Module Service.
Import Js Mongoose.

(** *** models/Service.js: the schema *)

Definition Diseno : jsstring := js "Dise" ++ [241%N] ++ js "o".
Definition Analisis : jsstring := js "An" ++ [225%N] ++ js "lisis".

Definition categories : list jsstring :=
  [js "Digital"; js "Social"; js "Contenido"; Diseno; js "Desarrollo"; Analisis].

Definition statuses : list jsstring :=
  [js "Activo"; js "Nuevo"; js "Pausado"; js "Inactivo"].

Definition name_path : StringOptions := {|
  s_required := RequiredWith "El nombre del servicio es obligatorio";
  s_trim := true;
  s_validators := [MaxLength 100 "El nombre no puede exceder 100 caracteres"];
  s_default := None |}.

Definition category_path : StringOptions := {|
  s_required := RequiredWith "La categoría es obligatoria";
  s_trim := false;
  s_validators :=
    [Enum categories
       "La categoría debe ser: Digital, Social, Contenido, Diseño, Desarrollo o Análisis"];
  s_default := None |}.

Definition price_path : NumberOptions := {|
  n_required := RequiredWith "El precio es obligatorio";
  n_validators := [Min 0 "El precio no puede ser negativo"];
  n_default := None |}.

Definition duration_path : StringOptions := {|
  s_required := RequiredWith "La duración es obligatoria";
  s_trim := false;
  s_validators := [MaxLength 50 "La duración no puede exceder 50 caracteres"];
  s_default := None |}.

Definition status_path : StringOptions := {|
  s_required := RequiredDefaultMessage;
  s_trim := false;
  s_validators :=
    [Enum statuses "El estado debe ser: Activo, Nuevo, Pausado o Inactivo"];
  s_default := Some (js "Nuevo") |}.

Definition description_path : StringOptions := {|
  s_required := RequiredWith "La descripción es obligatoria";
  s_trim := true;
  s_validators := [MaxLength 500 "La descripción no puede exceder 500 caracteres"];
  s_default := None |}.

Definition clients_path : NumberOptions := {|
  n_required := Optional;
  n_validators := [Min 0 "El número de clientes no puede ser negativo"];
  n_default := Some 0%Q |}.

(** The seven paths of the schema, each held in [F]: [Cast] in a document
    in memory, [Nullable] in a stored one, [JsValue] in the object a
    document is built from. *)
Record Paths (F : Type -> Type) := {
  name : F jsstring;
  category : F jsstring;
  price : F Q;
  duration : F jsstring;
  status : F jsstring;
  description : F jsstring;
  clients : F Q }.
Arguments name {F} _.
Arguments category {F} _.
Arguments price {F} _.
Arguments duration {F} _.
Arguments status {F} _.
Arguments description {F} _.
Arguments clients {F} _.

(** A stored document: the paths and the two timestamps that
    [timestamps: true] adds. *)
Record Stored := {
  fields : Paths Nullable;
  createdAt : Z;
  updatedAt : Z }.

Abbreviation ObjectId := N.

(** A document in memory: a new one, or one read from the store together
    with what was read. *)
Record Document := {
  _id : ObjectId;
  paths : Paths Cast;
  loaded : option Stored }.

(** [service.name = v] and the like. *)
Definition with_paths (d : Document) (p : Paths Cast) : Document :=
  {| _id := _id d; paths := p; loaded := loaded d |}.

Definition set_name (p : Paths Cast) (c : Cast jsstring) : Paths Cast :=
  {| name := c; category := category p; price := price p; duration := duration p;
     status := status p; description := description p; clients := clients p |}.

Definition set_category (p : Paths Cast) (c : Cast jsstring) : Paths Cast :=
  {| name := name p; category := c; price := price p; duration := duration p;
     status := status p; description := description p; clients := clients p |}.

Definition set_price (p : Paths Cast) (c : Cast Q) : Paths Cast :=
  {| name := name p; category := category p; price := c; duration := duration p;
     status := status p; description := description p; clients := clients p |}.

Definition set_duration (p : Paths Cast) (c : Cast jsstring) : Paths Cast :=
  {| name := name p; category := category p; price := price p; duration := c;
     status := status p; description := description p; clients := clients p |}.

Definition set_status (p : Paths Cast) (c : Cast jsstring) : Paths Cast :=
  {| name := name p; category := category p; price := price p; duration := duration p;
     status := c; description := description p; clients := clients p |}.

Definition set_description (p : Paths Cast) (c : Cast jsstring) : Paths Cast :=
  {| name := name p; category := category p; price := price p; duration := duration p;
     status := status p; description := c; clients := clients p |}.

Definition set_clients (p : Paths Cast) (c : Cast Q) : Paths Cast :=
  {| name := name p; category := category p; price := price p; duration := duration p;
     status := status p; description := description p; clients := c |}.

(** The values a document is stored with, and the document a stored one
    is read back as. *)
Definition commit (p : Paths Cast) : Paths Nullable :=
  {| name := stored (name p); category := stored (category p);
     price := stored (price p); duration := stored (duration p);
     status := stored (status p); description := stored (description p);
     clients := stored (clients p) |}.

Definition hydrate (p : Paths Nullable) : Paths Cast :=
  {| name := CastOk (name p); category := CastOk (category p);
     price := CastOk (price p); duration := CastOk (duration p);
     status := CastOk (status p); description := CastOk (description p);
     clients := CastOk (clients p) |}.

(** A path the stored document lacks takes the default of the schema
    when the document is read; [null] is a value. *)
Definition default_string (o : StringOptions) (v : Nullable jsstring) : Nullable jsstring :=
  match v, s_default o with
  | Undef, Some d => Val d
  | _, _ => v
  end.

Definition default_number (o : NumberOptions) (v : Nullable Q) : Nullable Q :=
  match v, n_default o with
  | Undef, Some d => Val d
  | _, _ => v
  end.

Definition with_defaults (p : Paths Nullable) : Paths Nullable :=
  {| name := default_string name_path (name p);
     category := default_string category_path (category p);
     price := default_number price_path (price p);
     duration := default_string duration_path (duration p);
     status := default_string status_path (status p);
     description := default_string description_path (description p);
     clients := default_number clients_path (clients p) |}.

(** The two declarations of the model: [models/Service.js], which the
    routes of the back end use, and the inline one of the Vercel entry
    point.  Their paths are the same; only the first has the pre-save
    hook. *)
Inductive App :=
  | Backend
  | VercelInline.

Section Model.
Variable rt : Runtime.

(** [new Service(obj)] *)
Definition construct (obj : Paths (fun _ => JsValue)) : Paths Cast :=
  {| name := init_string rt name_path (name obj);
     category := init_string rt category_path (category obj);
     price := init_number rt price_path (price obj);
     duration := init_string rt duration_path (duration obj);
     status := init_string rt status_path (status obj);
     description := init_string rt description_path (description obj);
     clients := init_number rt clients_path (clients obj) |}.

(** [serviceSchema.pre('save')]:
    [if (this.name) this.name = this.name.charAt(0).toUpperCase() + this.name.slice(1)].
    The assignment goes through the setters of the path. *)
Definition capitalize (s : jsstring) : jsstring :=
  toUpperCase (upper_table rt) (charAt0 s) ++ slice1 s.

Definition pre_save_hook (p : Paths Cast) : Paths Cast :=
  match stored (name p) with
  | Val s =>
      if truthy (VStr s)
      then set_name p (set_string rt name_path (VStr (capitalize s)))
      else p
  | _ => p
  end.

Definition pre_save (app : App) (p : Paths Cast) : Paths Cast :=
  match app with
  | Backend => pre_save_hook p
  | VercelInline => p
  end.
End Model.

(** The error of each path, if any, in the order the paths are set in. *)
Definition path_errors (p : Paths Cast) : list (string * option Message) :=
  [ ("name", validate_string "name" name_path (name p));
    ("category", validate_string "category" category_path (category p));
    ("price", validate_number "price" price_path (price p));
    ("duration", validate_string "duration" duration_path (duration p));
    ("status", validate_string "status" status_path (status p));
    ("description", validate_string "description" description_path (description p));
    ("clients", validate_number "clients" clients_path (clients p)) ].

Definition is_cast_failure (e : string * option Message) : bool :=
  match e.2 with
  | Some (CastFailed _ _ _) => true
  | _ => false
  end.

Definition entries (l : list (string * option Message)) : list (string * Message) :=
  omap (fun '(path, e) => pair path <$> e) l.

(** Validation visits every path; the errors are keyed by path, in the
    order they were recorded in: a failed cast is recorded when the path
    is set, before the validators run, so that the failed casts come
    first, and the failures of the validators after them.  (The
    validators visit the paths that were not modified before the
    modified ones; the order below is that of the paths, which is the
    same for a new document and for a loaded one whose paths after the
    name were valid when it was read.) *)
Definition validate (p : Paths Cast) : list (string * Message) :=
  entries (filter (fun e => is_cast_failure e = true) (path_errors p))
  ++ entries (filter (fun e => ~ is_cast_failure e = true) (path_errors p)).

End Service.

(** ** The store and the model calls *)

Module Model.
Import Js Mongoose Service.

(** The commands a model call sends to the store. *)
Inductive Command :=
  | FindCmd (filter : option jsstring)
  | FindOneCmd (id : ObjectId)
  | InsertCmd (id : ObjectId)
  | UpdateCmd (id : ObjectId)
  | DeleteCmd (id : ObjectId)
  | CountCmd (filter : option jsstring)
  | AggregateCmd (group : string)
  | DistinctCmd (path : string).

(** The collection, keyed by [_id], and the commands sent so far.  A
    round trip to the store succeeds; the one fault of the store that is
    modelled is the duplicate key of an insert. *)
Record World := {
  docs : gmap ObjectId Stored;
  sent : list Command }.

(** What a model call throws; [error.name] tells the three apart. *)
Inductive Error :=
  | ValidationError (errors : list (string * Message))
  | CastErrorOf (kind : string) (value : jsstring) (path : string)
  | MongoServerError (message : string).

(** A computation that reads and writes the store and may throw. *)
Definition M (A : Type) : Type := World -> (Error + A) * World.

Definition ret {A} (a : A) : M A := fun w => (inr a, w).

Definition throw {A} (e : Error) : M A := fun w => (inl e, w).

Definition bind {A B} (m : M A) (k : A -> M B) : M B :=
  fun w => match m w with
           | (inr a, w') => k a w'
           | (inl e, w') => (inl e, w')
           end.

(** [try { m } catch (error) { h error }] *)
Definition try_catch {A} (m : M A) (h : Error -> M A) : M A :=
  fun w => match m w with
           | (inr a, w') => (inr a, w')
           | (inl e, w') => h e w'
           end.

Notation "'let*' x ':=' m 'in' k" := (bind m (fun x => k))
  (at level 10, x pattern, m at level 100, k at level 200).

Definition send (c : Command) : M unit :=
  fun w => (inr tt, {| docs := docs w; sent := sent w ++ [c] |}).

Definition collection : M (gmap ObjectId Stored) := fun w => (inr (docs w), w).

Definition write (f : gmap ObjectId Stored -> gmap ObjectId Stored) : M unit :=
  fun w => (inr tt, {| docs := f (docs w); sent := sent w |}).

(** *** Identifiers *)

Definition hex_digit (c : N) : option N :=
  if ((48 <=? c) && (c <=? 57))%N then Some (c - 48)%N
  else if ((97 <=? c) && (c <=? 102))%N then Some (c - 87)%N
  else if ((65 <=? c) && (c <=? 70))%N then Some (c - 55)%N
  else None.

Fixpoint hex_value (acc : N) (s : jsstring) : option N :=
  match s with
  | [] => Some acc
  | c :: r => match hex_digit c with
              | Some d => hex_value (16 * acc + d)%N r
              | None => None
              end
  end.

(** The cast of a route parameter to an ObjectId: a string of 24
    hexadecimal digits. *)
Definition castObjectId (s : jsstring) : option ObjectId :=
  if (length s =? 24)%nat then hex_value 0%N s else None.

(** *** Queries *)

#[global] Instance Nullable_eq_dec {A} `{EqDecision A} : EqDecision (Nullable A).
Proof. solve_decision. Defined.

Definition category_is (c : jsstring) (d : ObjectId * Stored) : Prop :=
  category (fields d.2) = Val c.

Definition status_is (s : jsstring) (d : ObjectId * Stored) : Prop :=
  status (fields d.2) = Val s.

#[global] Instance category_is_dec c d : Decision (category_is c d).
Proof. unfold category_is. apply _. Defined.

#[global] Instance status_is_dec s d : Decision (status_is s d).
Proof. unfold status_is. apply _. Defined.

(** The documents a filter selects: all of them for none, those of the
    category for [{ category }], those of the status for [{ status }]. *)
Definition with_category (query : option jsstring) (l : list (ObjectId * Stored))
    : list (ObjectId * Stored) :=
  match query with
  | None => l
  | Some c => filter (category_is c) l
  end.

Definition with_status (query : option jsstring) (l : list (ObjectId * Stored))
    : list (ObjectId * Stored) :=
  match query with
  | None => l
  | Some c => filter (status_is c) l
  end.

(** [.sort({ createdAt: -1 })] *)
Fixpoint insert_desc (d : ObjectId * Stored) (l : list (ObjectId * Stored))
    : list (ObjectId * Stored) :=
  match l with
  | [] => [d]
  | x :: r => if (createdAt x.2 <=? createdAt d.2)%Z then d :: l
              else x :: insert_desc d r
  end.

Definition sort_createdAt_desc (l : list (ObjectId * Stored)) : list (ObjectId * Stored) :=
  foldr insert_desc [] l.

(** [Service.find(filter).sort({ createdAt: -1 })], the filter being none
    or [{ category }]. *)
Definition find_sorted (query : option jsstring) : M (list (ObjectId * Stored)) :=
  let* _ := send (FindCmd query) in
  let* m := collection in
  ret (sort_createdAt_desc (with_category query (map_to_list m))).

(** The document read from a stored one: its paths with the defaults of
    the schema for those the stored one lacks, and what was read.  A
    default applied on reading is written by the next [save], its path
    counting as modified once it is assigned: [save] compares the
    paths with what was read. *)
Definition document (i : ObjectId) (s : Stored) : Document :=
  {| _id := i; paths := hydrate (with_defaults (fields s)); loaded := Some s |}.

(** [Service.findById(id)]: the cast of [id] fails before anything is
    sent. *)

Definition findById (id : jsstring) : M (option Document) :=
  match castObjectId id with
  | None => throw (CastErrorOf "ObjectId" id "_id")
  | Some i =>
      let* _ := send (FindOneCmd i) in
      let* m := collection in
      ret (document i <$> m !! i)
  end.

(** [Service.countDocuments(filter)], the filter being none or
    [{ status }]. *)
Definition countDocuments (query : option jsstring) : M nat :=
  let* _ := send (CountCmd query) in
  let* m := collection in
  ret (length (with_status query (map_to_list m))).

(** The accumulators of [$group]: values that are not numbers are left
    out; [$avg], [$min] and [$max] of no number at all are [null]. *)
Definition numeric (v : Nullable Q) : option Q :=
  match v with Val q => Some q | _ => None end.

Definition Qsum (l : list Q) : Q := foldr Qplus 0%Q l.

Section Accumulators.
Variable rt : Runtime.

(** [$sum] and [$avg] skip what is not a number; [$avg] divides the
    total by the count, and is [null] with no number. *)
Definition acc_sum (vs : list (Nullable Q)) : Q := sum_of rt (omap numeric vs).

Definition acc_avg (vs : list (Nullable Q)) : Nullable Q :=
  match omap numeric vs with
  | [] => Null
  | l => Val (quotient rt (sum_of rt l) (inject_Z (Z.of_nat (length l))))
  end.
End Accumulators.

Definition acc_min (vs : list (Nullable Q)) : Nullable Q :=
  match omap numeric vs with
  | [] => Null
  | q :: r => Val (foldr Qmin q r)
  end.

Definition acc_max (vs : list (Nullable Q)) : Nullable Q :=
  match omap numeric vs with
  | [] => Null
  | q :: r => Val (foldr Qmax q r)
  end.

Record ClientsGroup := { total : Q }.

Record PriceGroup := {
  group_averagePrice : Nullable Q;
  group_minPrice : Nullable Q;
  group_maxPrice : Nullable Q }.

(** [$group] with [_id: null]: one group for a collection that is not
    empty, none for an empty one. *)
Definition group_all {G} (acc : list Stored -> G) (l : list (ObjectId * Stored)) : list G :=
  match l with
  | [] => []
  | _ => [acc (snd <$> l)]
  end.

Definition aggregate_clients (rt : Runtime) : M (list ClientsGroup) :=
  let* _ := send (AggregateCmd "clients") in
  let* m := collection in
  ret (group_all (fun l => {| total := acc_sum rt ((fun s => clients (fields s)) <$> l) |})
         (map_to_list m)).

Definition aggregate_price (rt : Runtime) : M (list PriceGroup) :=
  let* _ := send (AggregateCmd "price") in
  let* m := collection in
  ret (group_all (fun l =>
                    let ps := (fun s => price (fields s)) <$> l in
                    {| group_averagePrice := acc_avg rt ps; group_minPrice := acc_min ps;
                       group_maxPrice := acc_max ps |})
         (map_to_list m)).

(** [Service.distinct('category')]: the values present, each once. *)
Definition present {A} (v : Nullable A) : bool :=
  match v with Undef => false | _ => true end.

Definition distinct_category : M (list (Nullable jsstring)) :=
  let* _ := send (DistinctCmd "category") in
  let* m := collection in
  ret (remove_dups (List.filter present ((fun d => category (fields d.2)) <$> map_to_list m))).

(** *** Writes *)

Definition insertOne (i : ObjectId) (s : Stored) : M unit :=
  let* _ := send (InsertCmd i) in
  let* m := collection in
  match m !! i with
  | Some _ => throw (MongoServerError "E11000 duplicate key error")
  | None => write (insert i s)
  end.

Definition updateOne (i : ObjectId) (s : Stored) : M unit :=
  let* _ := send (UpdateCmd i) in
  write (fun m => match m !! i with Some _ => <[i := s]> m | None => m end).

Definition deleteOne (i : ObjectId) : M unit :=
  let* _ := send (DeleteCmd i) in
  write (delete i).

(** [Service.findByIdAndDelete(id)] *)
Definition findByIdAndDelete (id : jsstring) : M unit :=
  match castObjectId id with
  | None => throw (CastErrorOf "ObjectId" id "_id")
  | Some i => deleteOne i
  end.

(** Whether two stored values of a path are the same value. *)
Definition same_string (a b : Nullable jsstring) : bool := bool_decide (a = b).

Definition same_number (a b : Nullable Q) : bool :=
  match a, b with
  | Undef, Undef | Null, Null => true
  | Val x, Val y => Qeq_bool x y
  | _, _ => false
  end.

Definition same_paths (a b : Paths Nullable) : bool :=
  same_string (name a) (name b) && same_string (category a) (category b)
  && same_number (price a) (price b) && same_string (duration a) (duration b)
  && same_string (status a) (status b) && same_string (description a) (description b)
  && same_number (clients a) (clients b).

Section Save.
Variable app : App.
Variable rt : Runtime.

(** [doc.save()] at time [now]: validation runs first and throws all the
    errors together; then the timestamps are set, [updatedAt] moving only
    when an assignment modified a path; then the pre-save hook of the
    schema runs; then a new document is inserted, and an old one is
    updated when an assignment or the hook changed it. *)
Definition save (now : Z) (d : Document) : M (ObjectId * Stored) :=
  match validate (paths d) with
  | (_ :: _) as errors => throw (ValidationError errors)
  | [] =>
      let p := commit (pre_save rt app (paths d)) in
      match loaded d with
      | None =>
          let s := {| fields := p; createdAt := now; updatedAt := now |} in
          let* _ := insertOne (_id d) s in
          ret (_id d, s)
      | Some old =>
          let modified := negb (same_paths (commit (paths d)) (fields old)) in
          let hooked := negb (same_paths p (commit (paths d))) in
          let s := {| fields := p; createdAt := createdAt old;
                      updatedAt := if modified then now else updatedAt old |} in
          if modified || hooked
          then let* _ := updateOne (_id d) s in ret (_id d, s)
          else ret (_id d, s)
      end
  end.
End Save.

End Model.

(** ** controllers/serviceController.js *)

Module Controller.
Import Js Mongoose Service Model.

(** The request: the two route parameters and the parsed body. *)
Record Request := {
  params_id : jsstring;
  params_category : jsstring;
  req_body : gmap string JsValue }.

Record Overview := {
  totalServices : nat;
  activeServices : nat;
  newServices : nat;
  pausedServices : nat;
  inactiveServices : nat }.

Record Pricing := {
  averagePrice : Z;
  minPrice : Q;
  maxPrice : Q }.

Record Stats := {
  overview : Overview;
  totalClients : Q;
  totalCategories : nat;
  availableCategories : list (Nullable jsstring);
  pricing : Pricing;
  lastUpdated : Z }.

(** The JSON bodies the handlers answer with, and the answer of Express
    to a path that has no route.  A service is given as the document
    the handler passes to [res.json]: on the back end [toJSON] adds to
    its serialisation [formattedPrice], a string computed from the price
    of the document, which the bodies here leave out. *)
Inductive Body :=
  | ServiceList (services : list (ObjectId * Stored))
  | OneService (service : Document)
  | WithService (message : string) (service : ObjectId * Stored)
  | ValidationErrors (message : string) (errors : list Message)
  | WithId (message : string) (id : jsstring)
  | Failure (message : string) (error : option Error)
  | DeletedSummary (message : string) (id : ObjectId) (name : Nullable jsstring)
  | DeletedService (message : string) (deletedService : Document)
  | CategoryList (category : jsstring) (count : nat) (services : list (ObjectId * Stored))
  | InvalidCategory (message : string) (validCategories : list jsstring)
      (receivedCategory : jsstring)
  | StatsBody (stats : Stats)
  | CannotGet.

Record Response := {
  code : nat;
  json : Body }.

(** [validCategories.includes(category)] *)
Definition includes (l : list jsstring) (s : jsstring) : bool := bool_decide (s ∈ l).

(** [v || d] for [v] a number, [null] or [undefined]. *)
Definition number_or (v : Nullable Q) (d : Q) : Q :=
  match v with
  | Val q => if truthy (VNum q) then q else d
  | _ => d
  end.

(** [result[0]?.f] *)
Definition first_of {G A} (f : G -> Nullable A) (result : list G) : Nullable A :=
  match result with
  | [] => Undef
  | g :: _ => f g
  end.

(** [service.name] and the like, read from a document in memory. *)
Definition get_string (c : Cast jsstring) : JsValue := read_string (stored c).

Definition get_number (c : Cast Q) : JsValue := read_number (stored c).

Section Handlers.
Variable app : App.
Variable rt : Runtime.
(** [process.env.NODE_ENV === 'development'] *)
Variable development : bool.

Definition detail (error : Error) : option Error :=
  if development then Some error else None.

Definition getAllServices : M Response :=
  try_catch
    (let* services := find_sorted None in
     ret {| code := 200; json := ServiceList services |})
    (fun error =>
       ret {| code := 500;
              json := Failure "Error interno del servidor al obtener servicios" (detail error) |}).

(** The object [createService] builds the new document from. *)
Definition service_input (body : gmap string JsValue) : Paths (fun _ => JsValue) :=
  {| name := prop body "name";
     category := prop body "category";
     price := prop body "price";
     duration := prop body "duration";
     status := Js.or (prop body "status") (VStr (js "Nuevo"));
     description := prop body "description";
     clients := Js.or (prop body "clients") (VNum 0) |}.

Definition createService (req : Request) (newId : ObjectId) (now : Z) : M Response :=
  let service :=
    {| _id := newId;
       paths := construct rt (service_input (req_body req));
       loaded := None |} in
  try_catch
    (let* newService := save app rt now service in
     ret {| code := 201; json := WithService "Servicio creado exitosamente" newService |})
    (fun error =>
       match error with
       | ValidationError errors =>
           ret {| code := 400;
                  json := ValidationErrors "Error de validación" (snd <$> errors) |}
       | _ =>
           ret {| code := 500;
                  json := Failure "Error interno del servidor al crear servicio" (detail error) |}
       end).

Definition getServiceById (req : Request) : M Response :=
  try_catch
    (let* service := findById (params_id req) in
     match service with
     | Some service => ret {| code := 200; json := OneService service |}
     | None =>
         ret {| code := 404; json := WithId "Servicio no encontrado" (params_id req) |}
     end)
    (fun error =>
       match error with
       | CastErrorOf _ _ _ =>
           ret {| code := 400; json := WithId "ID de servicio inválido" (params_id req) |}
       | _ =>
           ret {| code := 500; json := Failure "Error interno del servidor" (detail error) |}
       end).

(** The seven assignments of [updateService]. *)
Definition assign (body : gmap string JsValue) (p : Paths Cast) : Paths Cast :=
  let p := set_name p
    (set_string rt name_path (Js.or (prop body "name") (get_string (name p)))) in
  let p := set_category p
    (set_string rt category_path (Js.or (prop body "category") (get_string (category p)))) in
  let p := set_price p
    (set_number rt price_path
       (if is_defined (prop body "price") then prop body "price" else get_number (price p))) in
  let p := set_duration p
    (set_string rt duration_path (Js.or (prop body "duration") (get_string (duration p)))) in
  let p := set_status p
    (set_string rt status_path (Js.or (prop body "status") (get_string (status p)))) in
  let p := set_description p
    (set_string rt description_path
       (Js.or (prop body "description") (get_string (description p)))) in
  set_clients p
    (set_number rt clients_path
       (if is_defined (prop body "clients") then prop body "clients"
        else get_number (clients p))).

Definition updateService (req : Request) (now : Z) : M Response :=
  try_catch
    (let* service := findById (params_id req) in
     match service with
     | Some service =>
         let service := with_paths service (assign (req_body req) (paths service)) in
         let* updatedService := save app rt now service in
         ret {| code := 200;
                json := WithService "Servicio actualizado exitosamente" updatedService |}
     | None =>
         ret {| code := 404;
                json := WithId "Servicio no encontrado para actualizar" (params_id req) |}
     end)
    (fun error =>
       match error with
       | ValidationError errors =>
           ret {| code := 400;
                  json := ValidationErrors "Error de validación en actualización"
                            (snd <$> errors) |}
       | CastErrorOf _ _ _ =>
           ret {| code := 400; json := WithId "ID de servicio inválido" (params_id req) |}
       | MongoServerError _ =>
           ret {| code := 500;
                  json := Failure "Error interno del servidor al actualizar" (detail error) |}
       end).

Definition deleteService (req : Request) : M Response :=
  try_catch
    (let* service := findById (params_id req) in
     match service with
     | Some service =>
         match app with
         | Backend =>
             let* _ := deleteOne (_id service) in
             ret {| code := 200;
                    json := DeletedSummary "Servicio eliminado correctamente" (_id service)
                              (stored (name (paths service))) |}
         | VercelInline =>
             let* _ := findByIdAndDelete (params_id req) in
             ret {| code := 200;
                    json := DeletedService "Servicio eliminado exitosamente" service |}
         end
     | None =>
         ret {| code := 404;
                json := WithId "Servicio no encontrado para eliminar" (params_id req) |}
     end)
    (fun error =>
       match error with
       | CastErrorOf _ _ _ =>
           ret {| code := 400; json := WithId "ID de servicio inválido" (params_id req) |}
       | _ =>
           ret {| code := 500;
                  json := Failure "Error interno del servidor al eliminar" (detail error) |}
       end).

Definition getServicesByCategory (req : Request) : M Response :=
  try_catch
    (let category := params_category req in
     let validCategories :=
       [js "Digital"; js "Social"; js "Contenido"; Diseno; js "Desarrollo"; Analisis] in
     if negb (includes validCategories category)
     then ret {| code := 400;
                 json := InvalidCategory "Categoría inválida" validCategories category |}
     else
       let* services := find_sorted (Some category) in
       ret {| code := 200; json := CategoryList category (length services) services |})
    (fun error =>
       ret {| code := 500; json := Failure "Error interno del servidor" (detail error) |}).

(** The eight queries of [Promise.all] are independent; they are run here
    one after the other, and the first to fail fails the whole. *)
Definition getServiceStats (now : Z) : M Response :=
  try_catch
    (let* totalServices := countDocuments None in
     let* activeServices := countDocuments (Some (js "Activo")) in
     let* newServices := countDocuments (Some (js "Nuevo")) in
     let* pausedServices := countDocuments (Some (js "Pausado")) in
     let* inactiveServices := countDocuments (Some (js "Inactivo")) in
     let* totalClientsResult := aggregate_clients rt in
     let* categories := distinct_category in
     let* averagePriceResult := aggregate_price rt in
     let stats :=
       {| overview :=
            {| totalServices := totalServices;
               activeServices := activeServices;
               newServices := newServices;
               pausedServices := pausedServices;
               inactiveServices := inactiveServices |};
          totalClients := number_or (first_of (fun g => Val (total g)) totalClientsResult) 0;
          totalCategories := length categories;
          availableCategories := categories;
          pricing :=
            {| averagePrice :=
                 Math_round (number_or (first_of group_averagePrice averagePriceResult) 0);
               minPrice := number_or (first_of group_minPrice averagePriceResult) 0;
               maxPrice := number_or (first_of group_maxPrice averagePriceResult) 0 |};
          lastUpdated := now |} in
     ret {| code := 200; json := StatsBody stats |})
    (fun error =>
       ret {| code := 500;
              json := Failure "Error interno del servidor al obtener estadísticas"
                        (detail error) |}).
End Handlers.

End Controller.

(** ** components/Dashboard.jsx: the recent services *)

Module Dashboard.


End Dashboard.

(** ** services/serviceApi.js: the validation of the form *)

Module ServiceValidation.
Import Js Mongoose Service Controller.

Definition VALID_CATEGORIES : list jsstring :=
  [js "Digital"; js "Social"; js "Contenido"; Diseno; js "Desarrollo"; Analisis].

Definition VALID_STATUSES : list jsstring :=
  [js "Activo"; js "Nuevo"; js "Pausado"; js "Inactivo"].

(** What [validateServiceData] returns. *)
Record Validation := {
  isValid : bool;
  errors : list string }.

Section Validate.
Variable rt : Runtime.
(** [ToNumber] of an array or of an object, which goes through the
    elements and the methods the values of the model do not keep; [None]
    stands for [NaN]. *)
Variable objectToNumber : JsValue -> option Q.

Definition ToNumber (v : JsValue) : option Q :=
  match v with
  | VUndefined => None
  | VNull => Some 0%Q
  | VBool b => Some (if b then 1%Q else 0%Q)
  | VNum q => Some q
  | VStr s => stringToNumber rt s
  | VArray | VObject _ => objectToNumber v
  end.

(** [v < 0]: a comparison with [NaN] is false. *)
Definition lt_zero (v : JsValue) : bool :=
  match ToNumber v with
  | Some q => negb (Qle_bool 0 q)
  | None => false
  end.

(** [!v || v.trim().length === 0].  A truthy value that is not a string
    has no method [trim]: the call throws a TypeError, [None] here. *)
Definition blank (v : JsValue) : option bool :=
  if truthy v
  then match v with
       | VStr s => Some (length (trim s) =? 0)%nat
       | _ => None
       end
  else Some true.

(** [v && v.length > n], which [validateServiceData] evaluates after
    [blank] returned: [v] is falsy or a string. *)
Definition longer (n : nat) (v : JsValue) : bool :=
  match v with
  | VStr s => truthy v && (n <? length s)%nat
  | _ => false
  end.

(** [LIST.includes(v)] for a list of strings. *)
Definition includes_value (l : list jsstring) (v : JsValue) : bool :=
  match v with
  | VStr s => includes l s
  | _ => false
  end.

(** [if (c) errors.push(m)] *)
Definition push (c : bool) (m : string) (errors : list string) : list string :=
  if c then errors ++ [m] else errors.

(** [ServiceValidation.validateServiceData(serviceData)]; [None] is a
    TypeError thrown.  The two messages with a list are the templates
    with [VALID_CATEGORIES.join(', ')] and [VALID_STATUSES.join(', ')]
    filled in. *)
Definition validateServiceData (serviceData : gmap string JsValue) : option Validation :=
  let errors := [] in
  name_blank ← blank (prop serviceData "name");
  let errors := push name_blank "El nombre del servicio es obligatorio" errors in
  let errors := push (longer 100 (prop serviceData "name"))
                  "El nombre no puede exceder 100 caracteres" errors in
  let errors := push (negb (truthy (prop serviceData "category"))
                      || negb (includes_value VALID_CATEGORIES (prop serviceData "category")))
                  "La categoría debe ser una de: Digital, Social, Contenido, Diseño, Desarrollo, Análisis"
                  errors in
  let errors := push (negb (truthy (prop serviceData "price"))
                      || lt_zero (prop serviceData "price"))
                  "El precio debe ser un número positivo" errors in
  duration_blank ← blank (prop serviceData "duration");
  let errors := push duration_blank "La duración es obligatoria" errors in
  description_blank ← blank (prop serviceData "description");
  let errors := push description_blank "La descripción es obligatoria" errors in
  let errors := push (longer 500 (prop serviceData "description"))
                  "La descripción no puede exceder 500 caracteres" errors in
  let errors := push (truthy (prop serviceData "status")
                      && negb (includes_value VALID_STATUSES (prop serviceData "status")))
                  "El estado debe ser uno de: Activo, Nuevo, Pausado, Inactivo" errors in
  let errors := push (truthy (prop serviceData "clients")
                      && lt_zero (prop serviceData "clients"))
                  "El número de clientes no puede ser negativo" errors in
  Some {| isValid := (length errors =? 0)%nat; errors := errors |}.

End Validate.

End ServiceValidation.

(** ** The Vercel entry point: the connection to MongoDB *)

Module Connection.
Import Js.

(** The flag [isConnected], and the URIs [mongoose.connect] was called
    with so far. *)
Record State := {
  isConnected : bool;
  connects : list jsstring }.

Inductive ConnectionError :=
  | UriMissing
  | ConnectFailed.

(** What the middleware does with a request: it passes it on, or answers
    it. *)
Inductive Outcome :=
  | Next
  | Respond (code : nat) (message error : string).

(** [s.startsWith(p)] *)
Fixpoint startsWith (s p : jsstring) : bool :=
  match p, s with
  | [], _ => true
  | _ :: _, [] => false
  | c :: p', d :: s' => (c =? d)%N && startsWith s' p'
  end.

Section Middleware.
(** [process.env.MONGODB_URI]: a string, or [undefined]. *)
Variable MONGODB_URI : option jsstring.

(** [connectMongoDB()]; [resolves] tells whether the call of
    [mongoose.connect], when there is one, resolves.  The error of the
    [try] block resets the flag and is thrown again. *)
Definition connectMongoDB (resolves : bool) (st : State) : (ConnectionError + unit) * State :=
  if isConnected st then (inr tt, st)
  else
    match MONGODB_URI with
    | None | Some [] =>
        (inl UriMissing, {| isConnected := false; connects := connects st |})
    | Some mongoURI =>
        let called := connects st ++ [mongoURI] in
        if resolves
        then (inr tt, {| isConnected := true; connects := called |})
        else (inl ConnectFailed, {| isConnected := false; connects := called |})
    end.

(** [req.path.startsWith('/api/') && req.path !== '/api/health'] *)
Definition needs_connection (path : jsstring) : bool :=
  startsWith path (js "/api/") && negb (bool_decide (path = js "/api/health")).

(** The middleware installed before the routes. *)
Definition middleware (path : jsstring) (resolves : bool) (st : State) : Outcome * State :=
  if needs_connection path
  then match connectMongoDB resolves st with
       | (inr _, st') => (Next, st')
       | (inl _, st') =>
           (Respond 500 "Error de conexión a la base de datos"
              "No se pudo establecer conexión con MongoDB", st')
       end
  else (Next, st).

End Middleware.

End Connection.

(** ** controllers/taskController.js: reading and deleting a task *)

Module TaskController.
Import Js Service Model.

Section Tasks.
(** The documents of the model [Task], which the three handlers below
    pass on without looking into; their [_id] is an ObjectId, as
    Mongoose gives a schema that declares none. *)
Variable Task : Type.

Inductive Body :=
  | TaskList (tasks : list (ObjectId * Task))
  | OneTask (task : ObjectId * Task)
  | Message (message : string)
  | ErrorMessage (error : Error).

Record Response := {
  code : nat;
  json : Body }.

(** [Task.findById(id)] *)
Definition findById (id : jsstring) (tasks : gmap ObjectId Task)
    : Error + option (ObjectId * Task) :=
  match castObjectId id with
  | None => inl (CastErrorOf "ObjectId" id "_id")
  | Some i => inr ((fun t => (i, t)) <$> tasks !! i)
  end.

Definition getAllTasks (tasks : gmap ObjectId Task) : Response * gmap ObjectId Task :=
  ({| code := 200; json := TaskList (map_to_list tasks) |}, tasks).

Definition getTaskById (id : jsstring) (tasks : gmap ObjectId Task)
    : Response * gmap ObjectId Task :=
  match findById id tasks with
  | inr (Some task) => ({| code := 200; json := OneTask task |}, tasks)
  | inr None => ({| code := 404; json := Message "Tarea no encontrada" |}, tasks)
  | inl error => ({| code := 500; json := ErrorMessage error |}, tasks)
  end.

(** [task.deleteOne()] removes the document of the identifier of
    [task]. *)
Definition deleteTask (id : jsstring) (tasks : gmap ObjectId Task)
    : Response * gmap ObjectId Task :=
  match findById id tasks with
  | inr (Some task) =>
      ({| code := 200; json := Message "Tarea eliminada" |}, delete task.1 tasks)
  | inr None => ({| code := 404; json := Message "Tarea no encontrada" |}, tasks)
  | inl error => ({| code := 500; json := ErrorMessage error |}, tasks)
  end.

End Tasks.

Arguments TaskList {Task} tasks.
Arguments OneTask {Task} task.
Arguments Message {Task} message.
Arguments ErrorMessage {Task} error.
Arguments code {Task} r.
Arguments json {Task} r.
Arguments findById {Task} id tasks.
Arguments getAllTasks {Task} tasks.
Arguments getTaskById {Task} id tasks.
Arguments deleteTask {Task} id tasks.

End TaskController.

(** * Properties *)

Import Js Mongoose Service Model Controller.

(** ** Vocabulary of the statements *)

(** [a] was created no earlier than [b]. *)
Definition newer_first (a b : ObjectId * Stored) : Prop :=
  (createdAt b.2 <= createdAt a.2)%Z.

(** *** What the schema asks of each field of a create payload *)

(** The keys [createService] reads. *)
Definition service_keys : list string :=
  ["name"; "category"; "price"; "duration"; "status"; "description"; "clients"].

Section FieldRules.
Variable rt : Runtime.

(** A name is a value that casts to a string which, trimmed, has between
    1 and 100 code units. *)
Definition valid_name (v : JsValue) : Prop :=
  exists s, castString rt v = CastOk (Val s)
            /\ trim s <> [] /\ (length (trim s) <= 100)%nat.

Definition valid_category (v : JsValue) : Prop :=
  exists s, castString rt v = CastOk (Val s) /\ s ∈ categories.

Definition valid_price (v : JsValue) : Prop :=
  exists q, castNumber rt v = CastOk (Val q) /\ (0 <= q)%Q.

Definition valid_duration (v : JsValue) : Prop :=
  exists s, castString rt v = CastOk (Val s) /\ s <> [] /\ (length s <= 50)%nat.

Definition valid_description (v : JsValue) : Prop :=
  exists s, castString rt v = CastOk (Val s)
            /\ trim s <> [] /\ (length (trim s) <= 500)%nat.

(** A status and a number of clients are optional: a falsy value stands
    for the default. *)
Definition valid_status (v : JsValue) : Prop :=
  truthy v = true -> exists s, castString rt v = CastOk (Val s) /\ s ∈ statuses.

Definition valid_clients (v : JsValue) : Prop :=
  truthy v = true ->
  exists n, castNumber rt v = CastOk n /\ forall q, n = Val q -> (0 <= q)%Q.
End FieldRules.

(** *** The form [save] leaves a record in *)

(** The setters trim the name and the description, and the hook of the
    back end upper-cases the first code unit of the name: a record is as
    saved when they leave it as it is. *)
Definition as_saved (rt : Runtime) (app : App) (f : Paths Nullable) : Prop :=
  (forall s, name f = Val s ->
             trim s = s /\ (app = Backend -> trim (capitalize rt s) = s))
  /\ (forall s, description f = Val s -> trim s = s).

(** *** The record set the statistics are about *)

(** Every record of the collection has one of the four statuses. *)
Definition statuses_valid (m : gmap ObjectId Stored) : Prop :=
  forall i s, m !! i = Some s -> exists t, status (fields s) = Val t /\ t ∈ statuses.


(** The prices of the records that have one. *)
Definition prices (m : gmap ObjectId Stored) : list Q :=
  omap (fun d : ObjectId * Stored => numeric (price (fields d.2))) (map_to_list m).



(** The number of records with a given status. *)
Definition count_status (t : string) (m : gmap ObjectId Stored) : nat :=
  length (filter (status_is (js t)) (map_to_list m)).

(** The field has an entry in the errors of a validation. *)
Definition reported (path : string) (errors : list (string * Message)) : Prop :=
  path ∈ errors.*1.

(** *** The records of a reachable store *)

(** A string ends with a code unit that is not a space. *)
Definition ends_unspaced (s : jsstring) : Prop :=
  exists l d, s = l ++ [d] /\ is_space d = false.

(** What the development asks of Unicode's table: the upper-casing of a
    code unit that is not a space is not empty, neither starts nor ends
    with a space, and starts with a code unit that is its own
    upper-casing. *)
Definition upper_table_stable (rt : Runtime) : Prop :=
  forall c, (128 <= c)%N -> is_space c = false ->
    exists h t, upper_table rt c = h :: t
                /\ is_space h = false
                /\ ends_unspaced (h :: t)
                /\ upper_unit (upper_table rt) h = [h].

(** The constraints of the schema on the status, the category, the price
    and the number of clients of a record. *)
Definition record_ok (f : Paths Nullable) : Prop :=
  (exists t, status f = Val t /\ t ∈ statuses)
  /\ (exists c, category f = Val c /\ c ∈ categories)
  /\ (exists q, price f = Val q /\ (0 <= q)%Q)
  /\ (forall q, clients f = Val q -> (0 <= q)%Q).

(** The name and the description of a document in memory are as the
    setters of their paths leave a value, and its number of clients was
    given a value. *)
Definition from_setters (rt : Runtime) (p : Paths Cast) : Prop :=
  (exists v, name p = set_string rt name_path v)
  /\ (exists v, description p = set_string rt description_path v)
  /\ clients p <> CastOk Undef.

(** *** The routes *)

Definition empty_world : World := {| docs := ∅; sent := [] |}.

Definition request (id category : jsstring) (body : gmap string JsValue) : Request :=
  {| params_id := id; params_category := category; req_body := body |}.

(** The requests [routes/serviceRoutes.js] routes to the handlers, with
    the identifier a new document is given and the time of the request.
    The Vercel entry point routes five of them: there the path of the
    statistics falls to the route of [getServiceById] with [stats] for
    identifier, and the path of a category has no route. *)
Inductive Call :=
  | GetStats (now : Z)
  | GetAll
  | Post (req : Request) (newId : ObjectId) (now : Z)
  | GetByCategory (req : Request)
  | GetById (req : Request)
  | Put (req : Request) (now : Z)
  | Delete (req : Request).

Definition serve (app : App) (rt : Runtime) (dev : bool) (c : Call) : M Response :=
  match c, app with
  | GetStats now, Backend => getServiceStats rt dev now
  | GetStats now, VercelInline => getServiceById dev (request (js "stats") [] ∅)
  | GetAll, _ => getAllServices dev
  | Post req newId now, _ => createService app rt dev req newId now
  | GetByCategory req, Backend => getServicesByCategory dev req
  | GetByCategory req, VercelInline => ret {| code := 404; json := CannotGet |}
  | GetById req, _ => getServiceById dev req
  | Put req now, _ => updateService app rt dev req now
  | Delete req, _ => deleteService app dev req
  end.

(** The stores an application reaches from the empty one. *)
Inductive reachable (app : App) (rt : Runtime) (dev : bool) : World -> Prop :=
  | reachable_empty : reachable app rt dev empty_world
  | reachable_serve w c :
      reachable app rt dev w -> reachable app rt dev (serve app rt dev c w).2.

(** *** Data of the examples *)

(** A runtime whose upper-casing leaves the code units from 128 on as
    they are, whose conversions are trivial and whose sums and quotients
    are exact; the examples use ASCII strings and small whole numbers
    only. *)
Definition ascii_runtime : Runtime :=
  {| upper_table := fun c => [c];
     numberToString := fun _ => js "0";
     stringToNumber := fun _ => None;
     sum_of := Qsum;
     quotient := Qdiv |}.

(** The payload of the scenario of the specification. *)
Definition seo_audit : gmap string JsValue :=
  list_to_map
    [("name", VStr (js "seo audit")); ("category", VStr (js "Digital"));
     ("price", VNum 100); ("duration", VStr (js "1 week"));
     ("description", VStr (js "desc"))].

(** The store after the scenario's service was created with identifier
    7 at time 1000. *)
Definition one_service (app : App) : World :=
  (createService app ascii_runtime false (request [] [] seo_audit) 7%N 1000%Z empty_world).2.

Definition id_7 : jsstring := js "000000000000000000000007".

(** The store after the scenario's service was created with five
    clients. *)
Definition five_clients : World :=
  (createService Backend ascii_runtime false
     (request [] [] (<["clients" := VNum 5]> seo_audit)) 7%N 1000%Z empty_world).2.

(** The record the scenario stores: as the payload, with the name as each
    of the two declarations of the model leaves it, a number of clients
    and the time of the last update. *)
Definition scenario_record (app : App) (n : Q) (updated : Z) : Stored :=
  {| fields :=
       {| name := Val (js (match app with
                           | Backend => "Seo audit"
                           | VercelInline => "seo audit"
                           end));
          category := Val (js "Digital");
          price := Val 100%Q;
          duration := Val (js "1 week");
          status := Val (js "Nuevo");
          description := Val (js "desc");
          clients := Val n |};
     createdAt := 1000;
     updatedAt := updated |}.

(** With the defaults of a new service. *)
Definition seo_record (app : App) : Stored := scenario_record app 0 1000.

(** *** Requests and what they may touch *)

(** The requests that only read. *)
Definition read_only (c : Call) : bool :=
  match c with
  | GetStats _ | GetAll | GetByCategory _ | GetById _ => true
  | Post _ _ _ | Put _ _ | Delete _ => false
  end.

(** The identifier a request writes at, if any: the one given to the new
    document, or the one the route parameter casts to. *)
Definition target (c : Call) : option ObjectId :=
  match c with
  | Post _ newId _ => Some newId
  | Put req _ | Delete req => castObjectId (params_id req)
  | _ => None
  end.

(** The constraints of the schema on the text of the duration and of the
    description, with those of [record_ok]. *)
Definition schema_constraints (f : Paths Nullable) : Prop :=
  record_ok f
  /\ (exists d, duration f = Val d /\ d <> [] /\ (length d <= 50)%nat)
  /\ (exists s, description f = Val s /\ s <> [] /\ (length s <= 500)%nat /\ trim s = s).

(** A lower-case letter of ASCII. *)
Definition lower_ascii (c : N) : bool := ((97 <=? c) && (c <=? 122))%N.

(** A value the cast of numbers takes, to a number or to none: a
    number, a boolean, a string that converts, [null] or [undefined]. *)
Definition casts_to_number (rt : Runtime) (v : JsValue) : Prop :=
  forall x, castNumberValue rt v <> CastError x.

(** The [count] of the answer to a request for the services of a
    category, 0 for another answer. *)
Definition category_count (dev : bool) (w : World) (c : jsstring) : nat :=
  match (getServicesByCategory dev (request [] c ∅) w).1 with
  | inr {| json := CategoryList _ n _ |} => n
  | _ => 0%nat
  end.

(** *** The arithmetic of the accumulators *)





(** *** Records that hold the paths with a default *)

(** Every record [save] writes holds a status and a number of clients,
    [null] included; a record that lacks one reads as its default. *)
Definition holds_defaults (f : Paths Nullable) : Prop :=
  status f <> Undef /\ clients f <> Undef.

(** *** The doubles of the platform *)

(** The double nearest to a whole number, and the double nearest to the
    ratio of two whole numbers that are doubles. *)
Definition double_of_Z (z : Z) : PrimFloat.float :=
  FloatOps.SF2Prim (SpecFloat.binary_normalize FloatOps.prec FloatOps.emax z 0 false).

Definition double_of_Q (q : Q) : PrimFloat.float :=
  PrimFloat.div (double_of_Z (Qnum q)) (double_of_Z (Zpos (Qden q))).

(** The value of a finite double.  An infinity and a NaN have none: they
    count for 0 here, and no example below produces one. *)
Definition Q_of_double (f : PrimFloat.float) : Q :=
  match FloatOps.Prim2SF f with
  | SpecFloat.S754_finite s m e =>
      let v := (inject_Z (Zpos m) * Qpower 2 e)%Q in
      Qred (if s then Qopp v else v)
  | _ => 0%Q
  end.

(** The sum of doubles, added one after the other, and their quotient. *)
Definition double_sum (l : list Q) : Q :=
  Q_of_double (foldl PrimFloat.add PrimFloat.zero (double_of_Q <$> l)).

Definition double_quotient (a b : Q) : Q :=
  Q_of_double (PrimFloat.div (double_of_Q a) (double_of_Q b)).

(** The runtime of the examples with the sums and quotients of
    doubles. *)
Definition double_runtime : Runtime :=
  {| upper_table := upper_table ascii_runtime;
     numberToString := numberToString ascii_runtime;
     stringToNumber := stringToNumber ascii_runtime;
     sum_of := double_sum;
     quotient := double_quotient |}.

(** *** A store of three services *)

Definition social_plan : gmap string JsValue :=
  list_to_map
    [("name", VStr (js "social plan")); ("category", VStr (js "Digital"));
     ("price", VNum 101); ("duration", VStr (js "1 month"));
     ("description", VStr (js "plan")); ("clients", VNum 7)].

Definition brand_kit : gmap string JsValue :=
  list_to_map
    [("name", VStr (js "brand kit")); ("category", VStr (js "Social"));
     ("price", VNum 101); ("duration", VStr (js "2 weeks"));
     ("status", VStr (js "Activo")); ("description", VStr (js "kit"));
     ("clients", VNum 5)].

(** The store after the service of the scenario was created with
    identifier 7 at time 1000, and a second one of the same category
    with identifier 8 at time 2000. *)
Definition two_services : World :=
  (createService Backend ascii_runtime false (request [] [] social_plan) 8%N 2000%Z
     (one_service Backend)).2.

(** Then a third one, of another category, with identifier 9 at time
    3000. *)
Definition three_services : World :=
  (createService Backend ascii_runtime false (request [] [] brand_kit) 9%N 3000%Z
     two_services).2.

Definition brand_record : Stored :=
  {| fields :=
       {| name := Val (js "Brand kit");
          category := Val (js "Social");
          price := Val 101%Q;
          duration := Val (js "2 weeks");
          status := Val (js "Activo");
          description := Val (js "kit");
          clients := Val 5%Q |};
     createdAt := 3000;
     updatedAt := 3000 |}.

(** *** A store with a large number of clients *)


(** *** A service with a blank duration *)

Definition blank_duration : gmap string JsValue :=
  <["duration" := VStr (js "   ")]> seo_audit.

Definition blank_record : Stored :=
  {| fields :=
       {| name := Val (js "Seo audit");
          category := Val (js "Digital");
          price := Val 100%Q;
          duration := Val (js "   ");
          status := Val (js "Nuevo");
          description := Val (js "desc");
          clients := Val 0%Q |};
     createdAt := 1000;
     updatedAt := 1000 |}.

Definition social_record : Stored :=
  {| fields :=
       {| name := Val (js "Social plan");
          category := Val (js "Digital");
          price := Val 101%Q;
          duration := Val (js "1 month");
          status := Val (js "Nuevo");
          description := Val (js "plan");
          clients := Val 7%Q |};
     createdAt := 2000;
     updatedAt := 2000 |}.

(** ** Ordering of the two listings *)

Lemma insert_desc_perm d l : insert_desc d l ≡ₚ d :: l.
Proof.
  induction l as [|x r IH]; simpl; [done|].
  destruct (createdAt x.2 <=? createdAt d.2)%Z; [done|].
  rewrite IH. apply perm_swap.
Qed.

Lemma sort_createdAt_desc_perm l : sort_createdAt_desc l ≡ₚ l.
Proof.
  induction l as [|x r IH]; simpl; [done|].
  rewrite insert_desc_perm. by rewrite IH.
Qed.

Lemma insert_desc_sorted d l :
  StronglySorted newer_first l -> StronglySorted newer_first (insert_desc d l).
Proof.
  induction 1 as [|x r Hs IH Hx]; simpl.
  - repeat constructor.
  - destruct (createdAt x.2 <=? createdAt d.2)%Z eqn:E.
    + apply Z.leb_le in E. constructor; [by constructor|].
      constructor; [exact E|].
      eapply Forall_impl; [exact Hx|]. unfold newer_first. intros y Hy. lia.
    + apply Z.leb_gt in E. constructor; [exact IH|].
      rewrite insert_desc_perm. constructor; [|exact Hx].
      unfold newer_first. lia.
Qed.

Lemma sort_createdAt_desc_sorted l : StronglySorted newer_first (sort_createdAt_desc l).
Proof.
  induction l as [|x r IH]; simpl; [constructor|].
  by apply insert_desc_sorted.
Qed.

(** ** What the two listings answer *)

Lemma getAllServices_run dev w :
  getAllServices dev w =
    (inr {| code := 200;
            json := ServiceList (sort_createdAt_desc (map_to_list (docs w))) |},
     {| docs := docs w; sent := sent w ++ [FindCmd None] |}).
Proof. reflexivity. Qed.

Lemma includes_categories c : includes categories c = true <-> c ∈ categories.
Proof. unfold includes. apply bool_decide_eq_true. Qed.

Lemma getServicesByCategory_invalid dev req w :
  params_category req ∉ categories ->
  getServicesByCategory dev req w =
    (inr {| code := 400;
            json := InvalidCategory "Categoría inválida" categories (params_category req) |},
     w).
Proof.
  intros H. unfold getServicesByCategory, try_catch.
  change [js "Digital"; js "Social"; js "Contenido"; Diseno; js "Desarrollo"; Analisis]
    with categories.
  destruct (includes categories (params_category req)) eqn:E.
  - apply includes_categories in E. contradiction.
  - reflexivity.
Qed.

Lemma getServicesByCategory_valid dev req w :
  params_category req ∈ categories ->
  getServicesByCategory dev req w =
    (let services :=
       sort_createdAt_desc
         (filter (category_is (params_category req)) (map_to_list (docs w))) in
     (inr {| code := 200;
             json := CategoryList (params_category req) (length services) services |},
      {| docs := docs w; sent := sent w ++ [FindCmd (Some (params_category req))] |})).
Proof.
  intros H. unfold getServicesByCategory, try_catch.
  change [js "Digital"; js "Social"; js "Contenido"; Diseno; js "Desarrollo"; Analisis]
    with categories.
  apply includes_categories in H. rewrite H. reflexivity.
Qed.

(** ** Reading one service *)

(** C5: a malformed identifier is answered 400 with the identifier echoed
    and nothing is sent to the store; a well-formed identifier of no
    record is answered 404.  The status code tells the two apart: it is
    400 only for a malformed identifier and 404 only for a well-formed
    one of no record. *)
Theorem getServiceById_invalid_or_absent dev req w :
  exists r,
    (getServiceById dev req w).1 = inr r
    /\ (castObjectId (params_id req) = None ->
        r = {| code := 400; json := WithId "ID de servicio inválido" (params_id req) |}
        /\ (getServiceById dev req w).2 = w)
    /\ (forall i, castObjectId (params_id req) = Some i -> docs w !! i = None ->
        r = {| code := 404; json := WithId "Servicio no encontrado" (params_id req) |})
    /\ (code r = 400%nat <-> castObjectId (params_id req) = None)
    /\ (code r = 404%nat
        <-> exists i, castObjectId (params_id req) = Some i /\ docs w !! i = None).
Proof.
  unfold getServiceById, try_catch, bind, findById.
  destruct (castObjectId (params_id req)) as [i|] eqn:Hid.
  - simpl. destruct (docs w !! i) as [s|] eqn:Hi; simpl.
    + eexists. split; [reflexivity|]. split; [discriminate|]. split.
      { intros j [= <-] Hj. congruence. }
      split; [split; discriminate|]. split; [discriminate|].
      intros (j & [= <-] & Hj). congruence.
    + eexists. split; [reflexivity|]. split; [discriminate|]. split; [done|].
      split; [split; discriminate|]. split; [by exists i|done].
  - simpl. eexists. split; [reflexivity|]. split; [done|]. split; [discriminate|].
    split; [done|]. split; [discriminate|]. intros (j & H & _). discriminate.
Qed.

Lemma getServiceById_invalid_or_absent_witness :
  (getServiceById false (request (js "not-an-id") [] ∅) empty_world).1 =
    inr {| code := 400; json := WithId "ID de servicio inválido" (js "not-an-id") |}
  /\ (getServiceById false (request id_7 [] ∅) empty_world).1 =
    inr {| code := 404; json := WithId "Servicio no encontrado" id_7 |}.
Proof.
  split.
  - destruct (getServiceById_invalid_or_absent false (request (js "not-an-id") [] ∅)
                empty_world) as (r & Hr & H & _).
    destruct H as [-> _]; [reflexivity|exact Hr].
  - destruct (getServiceById_invalid_or_absent false (request id_7 [] ∅) empty_world)
      as (r & Hr & _ & H & _).
    rewrite (H 7%N) in Hr; [exact Hr|reflexivity..].
Defined.

(** A well-formed identifier of a record is answered with the record. *)
Lemma getServiceById_found dev req w i s :
  castObjectId (params_id req) = Some i -> docs w !! i = Some s ->
  (getServiceById dev req w).1 = inr {| code := 200; json := OneService (document i s) |}.
Proof.
  intros H Hi. unfold getServiceById, try_catch, bind, findById. rewrite H.
  simpl. rewrite Hi. reflexivity.
Qed.

(** ** Listing by category *)

Lemma elem_of_sorted_filter c (m : gmap ObjectId Stored) i s :
  (i, s) ∈ sort_createdAt_desc (filter (category_is c) (map_to_list m))
  <-> m !! i = Some s /\ category (fields s) = Val c.
Proof.
  rewrite sort_createdAt_desc_perm, list_elem_of_filter, elem_of_map_to_list.
  unfold category_is. simpl. tauto.
Qed.

(** C6: a category outside the enumeration is answered 400 with the valid
    set and the received value, and the world is left as it was: no
    command is sent to the store.  A category of the enumeration is
    answered with the records of that category, each once, and their
    number. *)
Theorem getServicesByCategory_checks_category dev req w :
  (params_category req ∉ categories ->
   getServicesByCategory dev req w =
     (inr {| code := 400;
             json := InvalidCategory "Categoría inválida" categories (params_category req) |},
      w))
  /\ (params_category req ∈ categories ->
      exists services,
        (getServicesByCategory dev req w).1 =
          inr {| code := 200;
                 json := CategoryList (params_category req) (length services) services |}
        /\ NoDup services
        /\ forall i s, (i, s) ∈ services
                       <-> docs w !! i = Some s
                           /\ category (fields s) = Val (params_category req)).
Proof.
  split.
  - apply getServicesByCategory_invalid.
  - intros H. rewrite (getServicesByCategory_valid dev req w H). simpl.
    eexists. split; [reflexivity|]. split.
    + rewrite sort_createdAt_desc_perm. apply NoDup_filter, NoDup_map_to_list.
    + intros i s. apply elem_of_sorted_filter.
Qed.

Lemma getServicesByCategory_checks_category_witness :
  getServicesByCategory false (request [] (js "Marketing") ∅) (one_service Backend) =
    (inr {| code := 400;
            json := InvalidCategory "Categoría inválida" categories (js "Marketing") |},
     one_service Backend)
  /\ exists services,
      (getServicesByCategory false (request [] (js "Digital") ∅) (one_service Backend)).1 =
        inr {| code := 200; json := CategoryList (js "Digital") (length services) services |}
      /\ NoDup services
      /\ forall i s, (i, s) ∈ services
                     <-> docs (one_service Backend) !! i = Some s
                         /\ category (fields s) = Val (js "Digital").
Proof.
  split.
  - apply (proj1 (getServicesByCategory_checks_category false
                    (request [] (js "Marketing") ∅) (one_service Backend))).
    unfold categories. vm_compute. intros H.
    repeat (apply elem_of_cons in H as [H|H]; [discriminate H|]).
    by apply elem_of_nil in H.
  - apply (proj2 (getServicesByCategory_checks_category false
                    (request [] (js "Digital") ∅) (one_service Backend))).
    apply list_elem_of_here.
Defined.

(** C7: the list of all services, and the list of those of a valid
    category, come newest first: each record was created no earlier than
    the records after it.  The first holds exactly the records of the
    store, the second exactly those of the store that have the category,
    each as often as the store holds it. *)
Theorem listings_newest_first dev req w :
  (exists services,
     (getAllServices dev w).1 = inr {| code := 200; json := ServiceList services |}
     /\ StronglySorted newer_first services
     /\ services ≡ₚ map_to_list (docs w))
  /\ (params_category req ∈ categories ->
      exists services,
        (getServicesByCategory dev req w).1 =
          inr {| code := 200;
                 json := CategoryList (params_category req) (length services) services |}
        /\ StronglySorted newer_first services
        /\ services ≡ₚ filter (category_is (params_category req)) (map_to_list (docs w))).
Proof.
  split.
  - rewrite getAllServices_run. eexists. split; [reflexivity|]. split.
    + apply sort_createdAt_desc_sorted.
    + apply sort_createdAt_desc_perm.
  - intros H. rewrite (getServicesByCategory_valid dev req w H). simpl.
    eexists. split; [reflexivity|]. split.
    + apply sort_createdAt_desc_sorted.
    + apply sort_createdAt_desc_perm.
Qed.

(** Of the three services, created at 1000, 2000 and 3000, the listing
    has the last first, and the listing of the category Digital has the
    second before the first and leaves out the third, which is of
    another category. *)
Lemma listings_newest_first_witness :
  (exists services,
     (getAllServices false three_services).1 =
       inr {| code := 200; json := ServiceList services |}
     /\ StronglySorted newer_first services
     /\ services ≡ₚ map_to_list (docs three_services)
     /\ services = [(9%N, brand_record); (8%N, social_record); (7%N, seo_record Backend)])
  /\ (exists services,
        (getServicesByCategory false (request [] (js "Digital") ∅) three_services).1 =
          inr {| code := 200; json := CategoryList (js "Digital") (length services) services |}
        /\ StronglySorted newer_first services
        /\ services ≡ₚ filter (category_is (js "Digital")) (map_to_list (docs three_services))
        /\ services = [(8%N, social_record); (7%N, seo_record Backend)]).
Proof.
  destruct (listings_newest_first false (request [] (js "Digital") ∅) three_services)
    as [(all & Hall & Sall & Pall) Hcat].
  destruct Hcat as (cat & Hcat & Scat & Pcat); [apply list_elem_of_here|].
  split.
  - exists all. repeat (split; [assumption|]).
    assert ((getAllServices false three_services).1 =
              inr {| code := 200;
                     json := ServiceList [(9%N, brand_record); (8%N, social_record);
                                          (7%N, seo_record Backend)] |}) as E
      by (vm_compute; reflexivity).
    rewrite E in Hall. by injection Hall as <-.
  - exists cat. repeat (split; [assumption|]).
    assert ((getServicesByCategory false (request [] (js "Digital") ∅) three_services).1 =
              inr {| code := 200;
                     json := CategoryList (js "Digital") 2
                               [(8%N, social_record); (7%N, seo_record Backend)] |}) as E
      by (vm_compute; reflexivity).
    rewrite E in Hcat. by injection Hcat as _ <-.
Defined.

(** ** Creating a service *)

Lemma createService_run app rt dev req newId now w :
  createService app rt dev req newId now w =
    let p := construct rt (service_input (req_body req)) in
    match validate p with
    | [] =>
        let s := {| fields := commit (pre_save rt app p);
                    createdAt := now; updatedAt := now |} in
        match docs w !! newId with
        | None =>
            (inr {| code := 201;
                    json := WithService "Servicio creado exitosamente" (newId, s) |},
             {| docs := <[newId := s]> (docs w); sent := sent w ++ [InsertCmd newId] |})
        | Some _ =>
            (inr {| code := 500;
                    json := Failure "Error interno del servidor al crear servicio"
                              (detail dev (MongoServerError "E11000 duplicate key error")) |},
             {| docs := docs w; sent := sent w ++ [InsertCmd newId] |})
        end
    | errors =>
        (inr {| code := 400;
                json := ValidationErrors "Error de validación" (errors.*2) |}, w)
    end.
Proof.
  unfold createService, try_catch, save. simpl.
  destruct (validate _) as [|e errors]; [|reflexivity].
  unfold bind, insertOne, bind, send, collection. simpl.
  destruct (docs w !! newId); reflexivity.
Qed.

Lemma prop_agree (b1 b2 : gmap string JsValue) k :
  b1 !! k = b2 !! k -> prop b1 k = prop b2 k.
Proof. unfold prop. by intros ->. Qed.

(** C10: two requests whose bodies agree on the seven keys are answered
    alike and leave the same store, whatever else the bodies hold. *)
Theorem createService_reads_seven_keys app rt dev req1 req2 newId now w :
  (forall k, k ∈ service_keys -> req_body req1 !! k = req_body req2 !! k) ->
  createService app rt dev req1 newId now w = createService app rt dev req2 newId now w.
Proof.
  intros H. unfold createService.
  assert (service_input (req_body req1) = service_input (req_body req2)) as ->; [|done].
  unfold service_input.
  rewrite !(prop_agree (req_body req1) (req_body req2)); [done|..];
    apply H; unfold service_keys; set_solver.
Qed.

Lemma createService_reads_seven_keys_witness :
  createService Backend ascii_runtime false (request [] [] seo_audit) 7%N 1000%Z empty_world
  = createService Backend ascii_runtime false
      (request [] []
         (<["_id" := VStr id_7]> (<["createdAt" := VNum 0]> (<["updatedAt" := VNum 0]>
            seo_audit))))
      7%N 1000%Z empty_world.
Proof.
  apply createService_reads_seven_keys. intros k Hk. simpl.
  unfold service_keys in Hk.
  repeat (apply elem_of_cons in Hk as [->|Hk]; [reflexivity|]).
  by apply elem_of_nil in Hk.
Defined.

(** The pre-save hook touches the name only. *)
Lemma pre_save_frame rt app p :
  pre_save rt app p = set_name p (name (pre_save rt app p)).
Proof.
  destruct p, app; simpl; [|reflexivity].
  unfold pre_save_hook; simpl.
  destruct (stored name0) as [| |[|c s]]; reflexivity.
Qed.

Lemma init_string_no_default rt o v :
  s_default o = None -> init_string rt o v = set_string rt o v.
Proof. unfold init_string. intros ->. by destruct v. Qed.

Lemma init_number_defined rt o v :
  v <> VUndefined -> init_number rt o v = castNumber rt v.
Proof. unfold init_number. intros H. destruct v, (n_default o); done. Qed.

Lemma init_string_defined rt o v :
  v <> VUndefined -> init_string rt o v = set_string rt o v.
Proof. unfold init_string. intros H. destruct v, (s_default o); done. Qed.

Lemma truthy_defined v : truthy v = true -> v <> VUndefined.
Proof. by destruct v. Qed.

(** C8: the record of a 201 answer is the one stored; its status is
    "Nuevo" when the payload has no status, and its number of clients is
    0 when the payload has no clients. *)
Theorem createService_defaults app rt dev req newId now w w' m i s :
  createService app rt dev req newId now w =
    (inr {| code := 201; json := WithService m (i, s) |}, w') ->
  docs w' !! i = Some s
  /\ (req_body req !! "status" = None -> status (fields s) = Val (js "Nuevo"))
  /\ (req_body req !! "clients" = None -> clients (fields s) = Val 0%Q).
Proof.
  rewrite createService_run. cbv zeta.
  destruct (validate _); [|discriminate].
  destruct (docs w !! newId); [discriminate|].
  intros [= _ <- <- <-]. split; [apply lookup_insert_eq|].
  rewrite pre_save_frame. simpl. unfold prop.
  split; intros ->; reflexivity.
Qed.

Lemma createService_defaults_witness :
  docs (one_service Backend) !! 7%N = Some (seo_record Backend)
  /\ status (fields (seo_record Backend)) = Val (js "Nuevo")
  /\ clients (fields (seo_record Backend)) = Val 0%Q.
Proof.
  destruct (createService_defaults Backend ascii_runtime false (request [] [] seo_audit)
              7%N 1000%Z empty_world (one_service Backend)
              "Servicio creado exitosamente" 7%N (seo_record Backend))
    as (H1 & H2 & H3).
  - vm_compute. reflexivity.
  - split; [exact H1|]. split; [apply H2 | apply H3]; reflexivity.
Defined.

(** ** Validation of a new service *)

Lemma reported_entries (l : list (string * option Message)) path :
  reported path (omap (fun '(k, e) => pair k <$> e) l) <-> exists m, (path, Some m) ∈ l.
Proof.
  unfold reported. rewrite list_elem_of_fmap. split.
  - intros ([k m] & -> & H). apply list_elem_of_omap in H as ([k' e] & H & E).
    destruct e as [m'|]; [|discriminate]. injection E as -> ->. by exists m.
  - intros (m & H). exists (path, m). split; [done|].
    apply list_elem_of_omap. by exists (path, Some m).
Qed.

Lemma keys_omap_sublist (l : list (string * option Message)) :
  (omap (fun '(k, e) => pair k <$> e) l).*1 `sublist_of` l.*1.
Proof.
  induction l as [|[k [m|]] l IH]; simpl.
  - constructor.
  - by constructor.
  - by constructor.
Qed.

(** The errors are those of the paths, the failed casts moved to the
    front. *)
Lemma validate_perm p : validate p ≡ₚ entries (path_errors p).
Proof.
  unfold validate, entries. rewrite <- omap_app.
  apply omap_Permutation, filter_app_complement.
Qed.

Lemma validate_NoDup p : NoDup (validate p).*1.
Proof.
  rewrite validate_perm.
  eapply sublist_NoDup; [|apply keys_omap_sublist].
  simpl. compute_done.
Qed.

Ltac entry_cases H :=
  repeat (apply elem_of_cons in H as [H|H];
          [first [discriminate H | injection H as H]|]);
  try (by apply elem_of_nil in H).

Lemma validate_reports (p : Paths Cast) :
  (reported "name" (validate p) <-> validate_string "name" name_path (name p) <> None)
  /\ (reported "category" (validate p)
      <-> validate_string "category" category_path (category p) <> None)
  /\ (reported "price" (validate p) <-> validate_number "price" price_path (price p) <> None)
  /\ (reported "duration" (validate p)
      <-> validate_string "duration" duration_path (duration p) <> None)
  /\ (reported "status" (validate p)
      <-> validate_string "status" status_path (status p) <> None)
  /\ (reported "description" (validate p)
      <-> validate_string "description" description_path (description p) <> None)
  /\ (reported "clients" (validate p)
      <-> validate_number "clients" clients_path (clients p) <> None).
Proof.
  assert (forall path, reported path (validate p)
                       <-> reported path (entries (path_errors p))) as Hperm.
  { intros path. unfold reported. by rewrite validate_perm. }
  rewrite !Hperm. clear Hperm. unfold entries, path_errors. rewrite !reported_entries.
  repeat split.
  all: try (intros (m & H); entry_cases H; congruence).
  all: intros H; match type of H with ?e <> None => destruct e as [m|] eqn:E end;
    [exists m; rewrite <- E; set_solver | done].
Qed.

Lemma categories_nonempty s : s ∈ categories -> s <> [].
Proof. intros H ->. revert H. compute_done. Qed.

Lemma statuses_nonempty s : s ∈ statuses -> s <> [].
Proof. intros H ->. revert H. compute_done. Qed.

Lemma string_present_Val s : string_present (Val s) = true <-> s <> [].
Proof. destruct s; simpl; split; congruence. Qed.

(** What [validate_string] checks on a value that was cast, for a path
    that is required and has one validator. *)
Lemma validate_string_required path o m k (v : Nullable jsstring) :
  s_required o = RequiredWith m \/ s_required o = RequiredDefaultMessage ->
  s_validators o = [k] ->
  validate_string path o (CastOk v) = None
  <-> string_present v = true /\ string_validator_ok k v = true.
Proof.
  intros Hr Hk. unfold validate_string. rewrite Hk.
  assert (exists t, required_message path (s_required o) = Some t) as [t ->].
  { destruct Hr as [-> | ->]; simpl; eauto. }
  simpl. destruct (string_present v); [|split; [discriminate|intros [? _]; discriminate]].
  destruct (string_validator_ok k v); split; try done. by intros [_ ?].
Qed.

Lemma name_rule rt v :
  validate_string "name" name_path (init_string rt name_path v) = None <-> valid_name rt v.
Proof.
  rewrite init_string_no_default by done. unfold set_string, valid_name.
  destruct (castString rt v) as [[| |s]|x].
  1,2,4: split; [discriminate | intros (s' & H & _); discriminate].
  cbv iota beta delta [s_trim name_path].
  rewrite (validate_string_required _ _ "El nombre del servicio es obligatorio"
             (MaxLength 100 "El nombre no puede exceder 100 caracteres")) by (simpl; eauto).
  rewrite string_present_Val. simpl. rewrite Nat.leb_le.
  split; [intros [H1 H2]; by exists s | intros (s' & [= <-] & H1 & H2); done].
Qed.

Lemma description_rule rt v :
  validate_string "description" description_path (init_string rt description_path v) = None
  <-> valid_description rt v.
Proof.
  rewrite init_string_no_default by done. unfold set_string, valid_description.
  destruct (castString rt v) as [[| |s]|x].
  1,2,4: split; [discriminate | intros (s' & H & _); discriminate].
  cbv iota beta delta [s_trim description_path].
  rewrite (validate_string_required _ _ "La descripción es obligatoria"
             (MaxLength 500 "La descripción no puede exceder 500 caracteres"))
    by (simpl; eauto).
  rewrite string_present_Val. simpl. rewrite Nat.leb_le.
  split; [intros [H1 H2]; by exists s | intros (s' & [= <-] & H1 & H2); done].
Qed.

Lemma duration_rule rt v :
  validate_string "duration" duration_path (init_string rt duration_path v) = None
  <-> valid_duration rt v.
Proof.
  rewrite init_string_no_default by done. unfold set_string, valid_duration.
  destruct (castString rt v) as [[| |s]|x].
  1,2,4: split; [discriminate | intros (s' & H & _); discriminate].
  cbv iota beta delta [s_trim duration_path].
  rewrite (validate_string_required _ _ "La duración es obligatoria"
             (MaxLength 50 "La duración no puede exceder 50 caracteres")) by (simpl; eauto).
  rewrite string_present_Val. simpl. rewrite Nat.leb_le.
  split; [intros [H1 H2]; by exists s | intros (s' & [= <-] & H1 & H2); done].
Qed.

Lemma category_checked (c : Cast jsstring) :
  validate_string "category" category_path c = None
  <-> exists s, c = CastOk (Val s) /\ s ∈ categories.
Proof.
  destruct c as [[| |s]|x].
  1,2,4: split; [discriminate | intros (s' & H & _); discriminate].
  rewrite (validate_string_required _ _ "La categoría es obligatoria"
             (Enum categories
                "La categoría debe ser: Digital, Social, Contenido, Diseño, Desarrollo o Análisis"))
    by (simpl; eauto).
  rewrite string_present_Val. simpl. rewrite bool_decide_eq_true.
  split; [intros [H1 H2]; by exists s | intros (s' & [= <-] & H)].
  split; [by apply categories_nonempty | done].
Qed.

Lemma status_checked (c : Cast jsstring) :
  validate_string "status" status_path c = None
  <-> exists s, c = CastOk (Val s) /\ s ∈ statuses.
Proof.
  destruct c as [[| |s]|x].
  1,2,4: split; [discriminate | intros (s' & H & _); discriminate].
  rewrite (validate_string_required _ _ ""
             (Enum statuses "El estado debe ser: Activo, Nuevo, Pausado o Inactivo"))
    by (simpl; eauto).
  rewrite string_present_Val. simpl. rewrite bool_decide_eq_true.
  split; [intros [H1 H2]; by exists s | intros (s' & [= <-] & H)].
  split; [by apply statuses_nonempty | done].
Qed.

Lemma price_checked (c : Cast Q) :
  validate_number "price" price_path c = None
  <-> exists q, c = CastOk (Val q) /\ (0 <= q)%Q.
Proof.
  destruct c as [[| |q]|x]; simpl.
  1,2,4: split; [discriminate | intros (s' & H & _); discriminate].
  destruct (Qle_bool 0 q) eqn:E.
  - apply Qle_bool_iff in E. split; [by exists q | done].
  - split; [discriminate|]. intros (q' & [= <-] & H).
    apply Qle_bool_iff in H. congruence.
Qed.

Lemma clients_checked (c : Cast Q) :
  validate_number "clients" clients_path c = None
  <-> exists v, c = CastOk v /\ forall q, v = Val q -> (0 <= q)%Q.
Proof.
  destruct c as [[| |q]|x]; simpl.
  1,2: split; [eexists; split; [done|discriminate] | done].
  2: split; [discriminate | intros (s' & H & _); discriminate].
  destruct (Qle_bool 0 q) eqn:E.
  - apply Qle_bool_iff in E. split; [|done]. intros _. eexists. split; [done|].
    by intros ? [= <-].
  - split; [discriminate|]. intros (q' & [= <-] & H).
    specialize (H q eq_refl). apply Qle_bool_iff in H. congruence.
Qed.

Lemma category_rule rt v :
  validate_string "category" category_path (init_string rt category_path v) = None
  <-> valid_category rt v.
Proof.
  rewrite init_string_no_default by done. rewrite category_checked.
  unfold set_string, valid_category.
  destruct (castString rt v) as [[| |s]|x]; simpl; split; intros (s' & H & ?);
    try discriminate; injection H as <-; by exists s.
Qed.

Lemma price_rule rt v :
  validate_number "price" price_path (init_number rt price_path v) = None
  <-> valid_price rt v.
Proof.
  rewrite price_checked. unfold valid_price.
  assert (init_number rt price_path v = castNumber rt v) as ->; [by destruct v|done].
Qed.

Lemma status_rule rt v :
  validate_string "status" status_path
    (init_string rt status_path (Js.or v (VStr (js "Nuevo")))) = None
  <-> valid_status rt v.
Proof.
  rewrite status_checked. unfold valid_status, Js.or.
  destruct (truthy v) eqn:T.
  - rewrite init_string_defined by by apply truthy_defined.
    unfold set_string.
    destruct (castString rt v) as [[| |s]|x]; simpl; split.
    all: try (intros (s' & H & ?); discriminate).
    all: try (intros H; destruct (H eq_refl) as (s' & H' & ?); discriminate).
    + intros (s' & [= <-] & ?) _. by exists s.
    + intros H. destruct (H eq_refl) as (s' & [= <-] & ?). by exists s.
  - split; [done|]. intros _. exists (js "Nuevo"). split; [done|]. compute_done.
Qed.

Lemma clients_rule rt v :
  validate_number "clients" clients_path
    (init_number rt clients_path (Js.or v (VNum 0))) = None
  <-> valid_clients rt v.
Proof.
  rewrite clients_checked. unfold valid_clients, Js.or.
  destruct (truthy v) eqn:T.
  - rewrite init_number_defined by by apply truthy_defined.
    unfold set_number. split; [by intros H _|]. intros H. by apply H.
  - split; [done|]. intros _. exists (Val 0%Q). split; [done|].
    intros q [= <-]. done.
Qed.

Lemma not_None_iff {A} (o : option A) (P : Prop) :
  (o = None <-> P) -> (o <> None <-> ~ P).
Proof. intros H. rewrite <- H. tauto. Qed.

(** A key the payload does not have is an invalid name, category, price,
    duration or description. *)
Lemma missing_required rt (body : gmap string JsValue) :
  (body !! "name" = None -> ~ valid_name rt (prop body "name"))
  /\ (body !! "category" = None -> ~ valid_category rt (prop body "category"))
  /\ (body !! "price" = None -> ~ valid_price rt (prop body "price"))
  /\ (body !! "duration" = None -> ~ valid_duration rt (prop body "duration"))
  /\ (body !! "description" = None -> ~ valid_description rt (prop body "description")).
Proof.
  unfold prop. repeat split; intros -> (x & H & _); discriminate.
Qed.

(** X21: validation visits the seven paths independently: a path has an
    entry in the errors exactly when its value breaks the rule the schema
    declares for it, and it has one entry at most.  When one of the five
    required paths is missing or breaks its rule the answer is 400 with
    the messages of all the entries, and the store is left as it was.
    The rule of the duration is the schema's: a string of 1 to 50 code
    units, white space included. *)
Theorem createService_reports_violations app rt dev req newId now w :
  let body := req_body req in
  let errors := validate (construct rt (service_input body)) in
  (reported "name" errors <-> ~ valid_name rt (prop body "name"))
  /\ (reported "category" errors <-> ~ valid_category rt (prop body "category"))
  /\ (reported "price" errors <-> ~ valid_price rt (prop body "price"))
  /\ (reported "duration" errors <-> ~ valid_duration rt (prop body "duration"))
  /\ (reported "status" errors <-> ~ valid_status rt (prop body "status"))
  /\ (reported "description" errors <-> ~ valid_description rt (prop body "description"))
  /\ (reported "clients" errors <-> ~ valid_clients rt (prop body "clients"))
  /\ NoDup errors.*1
  /\ (~ valid_name rt (prop body "name") \/ ~ valid_category rt (prop body "category")
      \/ ~ valid_price rt (prop body "price") \/ ~ valid_duration rt (prop body "duration")
      \/ ~ valid_description rt (prop body "description") ->
      errors <> []
      /\ createService app rt dev req newId now w =
           (inr {| code := 400;
                   json := ValidationErrors "Error de validación" errors.*2 |}, w)).
Proof.
  intros body errors.
  destruct (validate_reports (construct rt (service_input body)))
    as (Hn & Hc & Hp & Hd & Hs & He & Hk).
  fold errors in Hn, Hc, Hp, Hd, Hs, He, Hk.
  assert (reported "name" errors <-> ~ valid_name rt (prop body "name")) as Rn.
  { rewrite Hn. apply not_None_iff, name_rule. }
  assert (reported "category" errors <-> ~ valid_category rt (prop body "category")) as Rc.
  { rewrite Hc. apply not_None_iff, category_rule. }
  assert (reported "price" errors <-> ~ valid_price rt (prop body "price")) as Rp.
  { rewrite Hp. apply not_None_iff, price_rule. }
  assert (reported "duration" errors <-> ~ valid_duration rt (prop body "duration")) as Rd.
  { rewrite Hd. apply not_None_iff, duration_rule. }
  assert (reported "status" errors <-> ~ valid_status rt (prop body "status")) as Rs.
  { rewrite Hs. apply not_None_iff, status_rule. }
  assert (reported "description" errors
          <-> ~ valid_description rt (prop body "description")) as Re.
  { rewrite He. apply not_None_iff, description_rule. }
  assert (reported "clients" errors <-> ~ valid_clients rt (prop body "clients")) as Rk.
  { rewrite Hk. apply not_None_iff, clients_rule. }
  repeat (split; [assumption|]).
  split; [apply validate_NoDup|].
  intros H.
  assert (exists path, reported path errors) as [path Hpath].
  { destruct H as [H|[H|[H|[H|H]]]];
      [apply Rn in H | apply Rc in H | apply Rp in H | apply Rd in H | apply Re in H];
      eauto. }
  assert (errors <> []) as Hne.
  { intros E. unfold reported in Hpath. rewrite E in Hpath. by apply elem_of_nil in Hpath. }
  split; [exact Hne|].
  rewrite createService_run. cbv zeta. fold body. fold errors.
  destruct errors; [done|reflexivity].
Qed.

(** A payload with a price that is no number and nothing else: the
    failed cast comes first, then the four required paths that are
    missing, in the order of the schema. *)
Lemma createService_reports_violations_witness :
  createService Backend ascii_runtime false
    (request [] [] {["price" := VStr (js "abc")]}) 7%N 1000%Z empty_world =
    (inr {| code := 400;
            json := ValidationErrors "Error de validación"
                      [CastFailed "Number" (VStr (js "abc")) "price";
                       Text "El nombre del servicio es obligatorio";
                       Text "La categoría es obligatoria";
                       Text "La duración es obligatoria";
                       Text "La descripción es obligatoria"] |},
     empty_world).
Proof.
  destruct (createService_reports_violations Backend ascii_runtime false
              (request [] [] {["price" := VStr (js "abc")]}) 7%N 1000%Z empty_world)
    as (_ & _ & _ & _ & _ & _ & _ & _ & H).
  destruct H as [_ H].
  - left. intros (s & H & _). discriminate H.
  - rewrite H. reflexivity.
Defined.

(** ** A valid payload is accepted *)

Lemma validate_each_nil p :
  validate_string "name" name_path (name p) = None ->
  validate_string "category" category_path (category p) = None ->
  validate_number "price" price_path (price p) = None ->
  validate_string "duration" duration_path (duration p) = None ->
  validate_string "status" status_path (status p) = None ->
  validate_string "description" description_path (description p) = None ->
  validate_number "clients" clients_path (clients p) = None ->
  validate p = [].
Proof. intros Hn Hc Hp Hd Hs He Hk. unfold validate, path_errors. by rewrite Hn, Hc, Hp, Hd, Hs, He, Hk. Qed.

Lemma validate_valid rt (body : gmap string JsValue) :
  valid_name rt (prop body "name") ->
  valid_category rt (prop body "category") ->
  valid_price rt (prop body "price") ->
  valid_duration rt (prop body "duration") ->
  valid_status rt (prop body "status") ->
  valid_description rt (prop body "description") ->
  valid_clients rt (prop body "clients") ->
  validate (construct rt (service_input body)) = [].
Proof.
  intros Hn Hc Hp Hd Hs He Hk.
  apply validate_each_nil;
    cbn [construct service_input name category price duration status description clients].
  - by apply name_rule.
  - by apply category_rule.
  - by apply price_rule.
  - by apply duration_rule.
  - by apply status_rule.
  - by apply description_rule.
  - by apply clients_rule.
Qed.

(** A payload whose seven fields are valid, with an identifier that is
    not in use, is answered 201 and the record is stored. *)
Lemma createService_valid app rt dev req newId now w :
  let body := req_body req in
  valid_name rt (prop body "name") ->
  valid_category rt (prop body "category") ->
  valid_price rt (prop body "price") ->
  valid_duration rt (prop body "duration") ->
  valid_status rt (prop body "status") ->
  valid_description rt (prop body "description") ->
  valid_clients rt (prop body "clients") ->
  docs w !! newId = None ->
  exists s,
    (createService app rt dev req newId now w).1 =
      inr {| code := 201; json := WithService "Servicio creado exitosamente" (newId, s) |}
    /\ docs (createService app rt dev req newId now w).2 !! newId = Some s.
Proof.
  intros body Hn Hc Hp Hd Hs He Hk Hfresh. rewrite createService_run. cbv zeta.
  fold body. rewrite (validate_valid rt body Hn Hc Hp Hd Hs He Hk), Hfresh.
  eexists. split; [reflexivity|]. cbn [snd docs]. apply lookup_insert_eq.
Qed.

(** ** A blank duration *)

(** C4: a create payload whose duration is white space only is answered
    201 and stored with that duration, by the back end and by the inline
    application: the schema trims the name and the description but not
    the duration, so that its [required] sees a string that is not
    empty.  The same payload with its name blank instead is answered 400
    with the message of the name, and the validation of the form rejects
    the blank duration with 'La duración es obligatoria'. *)
Theorem createService_accepts_blank_duration :
  let req := request [] [] blank_duration in
  trim (js "   ") = []
  /\ (createService Backend ascii_runtime false req 7%N 1000%Z empty_world).1 =
       inr {| code := 201;
              json := WithService "Servicio creado exitosamente" (7%N, blank_record) |}
  /\ docs (createService Backend ascii_runtime false req 7%N 1000%Z empty_world).2 !! 7%N
     = Some blank_record
  /\ duration (fields blank_record) = Val (js "   ")
  /\ (exists s,
        (createService VercelInline ascii_runtime false req 7%N 1000%Z empty_world).1 =
          inr {| code := 201;
                 json := WithService "Servicio creado exitosamente" (7%N, s) |}
        /\ duration (fields s) = Val (js "   "))
  /\ (createService Backend ascii_runtime false
        (request [] [] (<["name" := VStr (js "   ")]> seo_audit)) 7%N 1000%Z empty_world).1 =
       inr {| code := 400;
              json := ValidationErrors "Error de validación"
                        [Text "El nombre del servicio es obligatorio"] |}
  /\ ServiceValidation.validateServiceData ascii_runtime (fun _ => None) blank_duration =
       Some {| ServiceValidation.isValid := false;
               ServiceValidation.errors := ["La duración es obligatoria"] |}.
Proof.
  cbv zeta. repeat split; try (vm_compute; reflexivity).
  eexists. split; vm_compute; reflexivity.
Qed.

(** ** The name of a service on write *)

(** The hook of [models/Service.js] upper-cases the first code unit of
    the name a new service is stored with. *)
Lemma backend_create_capitalizes rt dev req newId now w w' m i s :
  createService Backend rt dev req newId now w =
    (inr {| code := 201; json := WithService m (i, s) |}, w') ->
  exists n, set_string rt name_path (prop (req_body req) "name") = CastOk (Val n)
            /\ n <> []
            /\ name (fields s) = Val (trim (capitalize rt n)).
Proof.
  rewrite createService_run. cbv zeta.
  destruct (validate _) eqn:V; [|discriminate].
  destruct (docs w !! newId); [discriminate|].
  intros [= _ <- <- <-].
  pose proof (proj1 (validate_reports (construct rt (service_input (req_body req))))) as Hn.
  rewrite V in Hn.
  assert (validate_string "name" name_path
            (init_string rt name_path (prop (req_body req) "name")) = None) as Hv.
  { destruct (validate_string _ _ _) eqn:E; [|done].
    exfalso. assert (reported "name" []) as R; [apply Hn; simpl; congruence|].
    by apply elem_of_nil in R. }
  apply name_rule in Hv as (s0 & Hc & Ht & _).
  exists (trim s0). unfold set_string. rewrite Hc. simpl.
  split; [done|]. split; [done|].
  unfold pre_save_hook. simpl.
  rewrite init_string_no_default by done. unfold set_string. rewrite Hc. simpl.
  destruct (trim s0) eqn:T; [done|]. reflexivity.
Qed.

(** The inline declaration has no hook: the name is stored as the
    setters of the path leave it. *)
Lemma inline_create_keeps_name rt dev req newId now w w' m i s :
  createService VercelInline rt dev req newId now w =
    (inr {| code := 201; json := WithService m (i, s) |}, w') ->
  CastOk (name (fields s)) = set_string rt name_path (prop (req_body req) "name").
Proof.
  intros H.
  assert (exists n, set_string rt name_path (prop (req_body req) "name") = CastOk n)
    as [n Hn].
  { revert H. rewrite createService_run. cbv zeta.
    destruct (validate _) eqn:V; [|discriminate]. intros _.
    pose proof (proj1 (validate_reports (construct rt (service_input (req_body req)))))
      as Hr.
    rewrite V in Hr. simpl in Hr.
    rewrite init_string_no_default in Hr by done.
    destruct (set_string rt name_path (prop (req_body req) "name")); [eauto|].
    exfalso. assert (reported "name" []) as R; [by apply Hr|].
    by apply elem_of_nil in R. }
  revert H. rewrite createService_run. cbv zeta.
  destruct (validate _); [|discriminate].
  destruct (docs w !! newId); [discriminate|].
  intros [= _ <- <- <-]. simpl.
  rewrite init_string_no_default by done. by rewrite Hn.
Qed.

(** C3: with the scenario's payload the model of the back end stores the
    name "Seo audit", and the inline model of the Vercel entry point, which
    declares the same schema without the hook, stores "seo audit". *)
Theorem inline_create_stores_lowercase_name :
  docs (one_service Backend) !! 7%N = Some (seo_record Backend)
  /\ name (fields (seo_record Backend)) = Val (js "Seo audit")
  /\ docs (one_service VercelInline) !! 7%N = Some (seo_record VercelInline)
  /\ name (fields (seo_record VercelInline)) = Val (js "seo audit").
Proof. repeat split; vm_compute; reflexivity. Qed.

(** ** Updating a service *)

Lemma updateService_run app rt dev req now w i old :
  castObjectId (params_id req) = Some i ->
  docs w !! i = Some old ->
  updateService app rt dev req now w =
    let p := assign rt (req_body req) (hydrate (with_defaults (fields old))) in
    let found := {| docs := docs w; sent := sent w ++ [FindOneCmd i] |} in
    match validate p with
    | [] =>
        let f := commit (pre_save rt app p) in
        let modified := negb (same_paths (commit p) (fields old)) in
        let hooked := negb (same_paths f (commit p)) in
        let s := {| fields := f; createdAt := createdAt old;
                    updatedAt := if modified then now else updatedAt old |} in
        (inr {| code := 200;
                json := WithService "Servicio actualizado exitosamente" (i, s) |},
         if modified || hooked
         then {| docs := <[i := s]> (docs w);
                 sent := (sent w ++ [FindOneCmd i]) ++ [UpdateCmd i] |}
         else found)
    | errors =>
        (inr {| code := 400;
                json := ValidationErrors "Error de validación en actualización"
                          (errors.*2) |}, found)
    end.
Proof.
  intros Hid Hold. unfold updateService, try_catch, findById. rewrite Hid.
  unfold bind, send, collection, ret. cbn [docs sent]. rewrite Hold.
  cbn [fmap option_fmap option_map]. unfold save, document. cbn [paths loaded _id with_paths].
  destruct (validate _) as [|e errors]; [|reflexivity].
  destruct (negb _ || negb _).
  - unfold updateOne, bind, send, write, ret. cbn [docs sent]. rewrite Hold. reflexivity.
  - reflexivity.
Qed.

(** *** What the seven assignments leave in each path *)

Lemma castString_read rt v : castString rt (read_string v) = CastOk v.
Proof. by destruct v. Qed.

Lemma castNumber_read rt v : castNumber rt (read_number v) = CastOk v.
Proof. by destruct v. Qed.

Lemma castNumber_defined rt v : is_defined v = true -> castNumber rt v <> CastOk Undef.
Proof.
  unfold castNumber. destruct v as [| |b|q|[|c s]| |id]; simpl; try discriminate.
  - by destruct (stringToNumber rt (c :: s)).
  - destruct id as [| |b|q|[|c s]| |id]; simpl; try discriminate.
    by destruct (stringToNumber rt (c :: s)).
Qed.

Lemma is_defined_false v : is_defined v = false <-> v = VUndefined.
Proof. destruct v; simpl; split; congruence. Qed.

Lemma or_falsy a b : falsy a = true -> Js.or a b = b.
Proof. unfold falsy, Js.or. by destruct (truthy a). Qed.

Lemma or_truthy a b : truthy a = true -> Js.or a b = a.
Proof. unfold Js.or. by intros ->. Qed.

(** A path without [trim] keeps a stored value that is assigned back. *)
Lemma set_string_read rt o v :
  s_trim o = false -> set_string rt o (read_string v) = CastOk v.
Proof. unfold set_string. rewrite castString_read. intros ->. by destruct v. Qed.

(** A path with [trim] keeps a trimmed one. *)
Lemma set_string_read_trimmed rt o v :
  (forall s, v = Val s -> trim s = s) -> set_string rt o (read_string v) = CastOk v.
Proof.
  unfold set_string. rewrite castString_read. intros H.
  destruct v as [| |s]; try done. rewrite (H s eq_refl). by destruct (s_trim o).
Qed.

Lemma validate_nil_hydrate p : validate p = [] -> hydrate (commit p) = p.
Proof.
  intros V. destruct (validate_reports p) as (Hn & Hc & Hp & Hd & Hs & He & Hk).
  rewrite V in Hn, Hc, Hp, Hd, Hs, He, Hk. unfold reported in *. simpl in *.
  destruct p as [n c pr d st de cl]. unfold hydrate, commit. simpl in *.
  destruct n as [n|x]; [|exfalso; eapply elem_of_nil, Hn; done].
  destruct c as [c|x]; [|exfalso; eapply elem_of_nil, Hc; done].
  destruct pr as [pr|x]; [|exfalso; eapply elem_of_nil, Hp; done].
  destruct d as [d|x]; [|exfalso; eapply elem_of_nil, Hd; done].
  destruct st as [st|x]; [|exfalso; eapply elem_of_nil, Hs; done].
  destruct de as [de|x]; [|exfalso; eapply elem_of_nil, He; done].
  destruct cl as [cl|x]; [|exfalso; eapply elem_of_nil, Hk; done].
  reflexivity.
Qed.

Lemma validate_nil_each p :
  validate p = [] ->
  validate_string "name" name_path (name p) = None
  /\ validate_string "category" category_path (category p) = None
  /\ validate_number "price" price_path (price p) = None
  /\ validate_string "duration" duration_path (duration p) = None
  /\ validate_string "status" status_path (status p) = None
  /\ validate_string "description" description_path (description p) = None
  /\ validate_number "clients" clients_path (clients p) = None.
Proof.
  intros V. destruct (validate_reports p) as (Hn & Hc & Hp & Hd & Hs & He & Hk).
  rewrite V in Hn, Hc, Hp, Hd, Hs, He, Hk. unfold reported in *. simpl in *.
  repeat split.
  all: match goal with |- ?e = None => destruct e eqn:E; [exfalso|done] end.
  all: eapply elem_of_nil.
  - by apply Hn. - by apply Hc. - by apply Hp. - by apply Hd.
  - by apply Hs. - by apply He. - by apply Hk.
Qed.

Lemma capitalize_nil rt : trim (capitalize rt []) = [].
Proof. reflexivity. Qed.

(** The name the hook leaves, for each declaration of the model. *)
Lemma pre_save_name rt app p v :
  name p = CastOk v ->
  stored (name (pre_save rt app p)) =
    match app, v with
    | Backend, Val n => Val (trim (capitalize rt n))
    | _, _ => v
    end.
Proof.
  intros H. destruct app; simpl; [|by rewrite H].
  unfold pre_save_hook. rewrite H. simpl.
  destruct v as [| |[|c n]]; simpl; rewrite ?H; reflexivity.
Qed.

Lemma pre_save_saved rt app o :
  as_saved rt app o -> commit (pre_save rt app (hydrate o)) = o.
Proof.
  intros [Hn _]. rewrite pre_save_frame. destruct o as [n c pr d st de cl].
  unfold commit. simpl in *.
  erewrite pre_save_name by reflexivity.
  f_equal. destruct app, n as [| |s]; try reflexivity.
  f_equal. by apply (Hn s).
Qed.

Lemma same_number_refl v : same_number v v = true.
Proof. destruct v; simpl; try done. apply Qeq_bool_iff. reflexivity. Qed.

Lemma same_paths_refl f : same_paths f f = true.
Proof.
  unfold same_paths, same_string. rewrite !same_number_refl.
  rewrite !bool_decide_eq_true_2; done.
Qed.

Lemma same_number_sym a b : same_number a b = true -> same_number b a = true.
Proof.
  destruct a, b; simpl; try done. rewrite !Qeq_bool_iff. by intros ->.
Qed.

Lemma same_number_trans a b c :
  same_number a b = true -> same_number b c = true -> same_number a c = true.
Proof.
  destruct a, b, c; simpl; try done. rewrite !Qeq_bool_iff. by intros -> ->.
Qed.

Lemma same_paths_sym a b : same_paths a b = true -> same_paths b a = true.
Proof.
  unfold same_paths, same_string. rewrite !andb_true_iff, !bool_decide_eq_true.
  intros ((((((-> & ->) & H1) & ->) & ->) & ->) & H2).
  apply same_number_sym in H1, H2. by rewrite H1, H2.
Qed.

Lemma same_paths_trans a b c :
  same_paths a b = true -> same_paths b c = true -> same_paths a c = true.
Proof.
  unfold same_paths, same_string. rewrite !andb_true_iff, !bool_decide_eq_true.
  intros ((((((-> & ->) & H1) & ->) & ->) & ->) & H2).
  intros ((((((-> & ->) & H3) & ->) & ->) & ->) & H4).
  by rewrite (same_number_trans _ _ _ H1 H3), (same_number_trans _ _ _ H2 H4).
Qed.

Lemma commit_hydrate f : commit (hydrate f) = f.
Proof. by destruct f. Qed.

(** With no key in the body the seven assignments put back what the
    record holds. *)
Lemma assign_empty rt app o :
  as_saved rt app o -> assign rt ∅ (hydrate o) = hydrate o.
Proof.
  intros [Hn Hd]. destruct o as [n c pr d st de cl]. simpl in Hn, Hd.
  unfold assign, hydrate, prop, get_string, get_number, set_number, Js.or.
  rewrite !lookup_empty.
  cbn [default truthy is_defined name category price duration status description clients
       set_name set_category set_price set_duration set_status set_description
       set_clients stored].
  rewrite !castNumber_read.
  rewrite (set_string_read rt category_path), (set_string_read rt duration_path),
    (set_string_read rt status_path) by done.
  rewrite (set_string_read_trimmed rt name_path n) by (intros s ->; by apply Hn).
  rewrite (set_string_read_trimmed rt description_path de) by (intros s ->; by apply Hd).
  reflexivity.
Qed.

Lemma with_defaults_present f : holds_defaults f -> with_defaults f = f.
Proof.
  intros [Hs Hk]. destruct f as [n c pr d st de cl]. unfold with_defaults. simpl in *.
  f_equal; by match goal with |- _ ?v = _ => destruct v end.
Qed.

Lemma with_defaults_as_saved rt app f :
  as_saved rt app f -> as_saved rt app (with_defaults f).
Proof.
  intros [Hn Hd]. destruct f as [n c pr d st de cl]. simpl in *.
  split; simpl; intros s E.
  - apply Hn. by destruct n.
  - apply Hd. by destruct de.
Qed.

(** C9: for a record as [save] leaves records, an update with an empty
    body that passes validation is answered 200 with the record as it
    was read: every field is the stored one, the status and the number
    of clients of a record that lacks them being the defaults of the
    schema, and the creation time is kept.  When the record holds both,
    as every record [save] wrote does, the whole collection is left as it
    was and the record answered is the stored one. *)
Theorem updateService_empty_payload app rt dev req now w i old :
  req_body req = ∅ ->
  castObjectId (params_id req) = Some i ->
  docs w !! i = Some old ->
  as_saved rt app (fields old) ->
  (holds_defaults (fields old) -> docs (updateService app rt dev req now w).2 = docs w)
  /\ (validate (hydrate (with_defaults (fields old))) = [] ->
      exists s,
        (updateService app rt dev req now w).1 =
          inr {| code := 200;
                 json := WithService "Servicio actualizado exitosamente" (i, s) |}
        /\ fields s = with_defaults (fields old)
        /\ createdAt s = createdAt old
        /\ (holds_defaults (fields old) -> s = old)).
Proof.
  intros Hb Hid Hold Hs. rewrite (updateService_run app rt dev req now w i old Hid Hold).
  cbv zeta. pose proof (with_defaults_as_saved rt app _ Hs) as Hs'.
  rewrite Hb, (assign_empty rt app _ Hs'), (pre_save_saved rt app _ Hs').
  rewrite commit_hydrate, same_paths_refl. cbn [negb orb].
  split.
  - intros Hd. rewrite (with_defaults_present _ Hd), same_paths_refl. cbn [negb].
    by destruct (validate _).
  - intros V. rewrite V. eexists. split; [reflexivity|]. cbn [fields createdAt].
    split; [done|]. split; [done|].
    intros Hd. rewrite (with_defaults_present _ Hd), same_paths_refl. cbn [negb].
    by destruct old.
Qed.

Lemma updateService_empty_payload_witness :
  docs (updateService Backend ascii_runtime false (request id_7 [] ∅) 2000%Z
          (one_service Backend)).2 = docs (one_service Backend)
  /\ exists s,
       (updateService Backend ascii_runtime false (request id_7 [] ∅) 2000%Z
          (one_service Backend)).1 =
         inr {| code := 200;
                json := WithService "Servicio actualizado exitosamente" (7%N, s) |}
       /\ s = seo_record Backend.
Proof.
  destruct (updateService_empty_payload Backend ascii_runtime false (request id_7 [] ∅)
              2000%Z (one_service Backend) 7%N (seo_record Backend)) as [H1 H2].
  - reflexivity.
  - reflexivity.
  - vm_compute. reflexivity.
  - split.
    + intros s [= <-]. split; [reflexivity|]. intros _. reflexivity.
    + intros s [= <-]. reflexivity.
  - assert (holds_defaults (fields (seo_record Backend))) as Hd by (split; discriminate).
    split; [by apply H1|].
    destruct H2 as (s & Hrun & _ & _ & Hsame); [reflexivity|].
    exists s. split; [exact Hrun|by apply Hsame].
Defined.

Lemma required_string_Val path o m (c : Cast jsstring) :
  s_required o = RequiredWith m \/ s_required o = RequiredDefaultMessage ->
  validate_string path o c = None -> exists s, c = CastOk (Val s).
Proof.
  intros Hr. unfold validate_string.
  destruct c as [[| |s]|x]; [| |eauto|discriminate].
  all: destruct Hr as [-> | ->]; discriminate.
Qed.

Lemma set_string_no_trim rt o v :
  s_trim o = false -> set_string rt o v = castString rt v.
Proof. unfold set_string. intros ->. by destruct (castString rt v) as [[| |?]|?]. Qed.

(** The seven assignments, path by path. *)
Lemma assign_name rt body o :
  name (assign rt body (hydrate o)) =
    set_string rt name_path (Js.or (prop body "name") (read_string (name o))).
Proof. reflexivity. Qed.

Lemma assign_category rt body o :
  category (assign rt body (hydrate o)) =
    set_string rt category_path (Js.or (prop body "category") (read_string (category o))).
Proof. reflexivity. Qed.

Lemma assign_price rt body o :
  price (assign rt body (hydrate o)) =
    castNumber rt (if is_defined (prop body "price") then prop body "price"
                   else read_number (price o)).
Proof. reflexivity. Qed.

Lemma assign_duration rt body o :
  duration (assign rt body (hydrate o)) =
    set_string rt duration_path (Js.or (prop body "duration") (read_string (duration o))).
Proof. reflexivity. Qed.

Lemma assign_status rt body o :
  status (assign rt body (hydrate o)) =
    set_string rt status_path (Js.or (prop body "status") (read_string (status o))).
Proof. reflexivity. Qed.

Lemma assign_description rt body o :
  description (assign rt body (hydrate o)) =
    set_string rt description_path
      (Js.or (prop body "description") (read_string (description o))).
Proof. reflexivity. Qed.

Lemma assign_clients rt body o :
  clients (assign rt body (hydrate o)) =
    castNumber rt (if is_defined (prop body "clients") then prop body "clients"
                   else read_number (clients o)).
Proof. reflexivity. Qed.

(** What a 200 answer of [updateService] says of the record it returns
    and of the one in the collection. *)
Lemma updateService_200 app rt dev req now w w' i old m x s :
  castObjectId (params_id req) = Some i ->
  docs w !! i = Some old ->
  updateService app rt dev req now w =
    (inr {| code := 200; json := WithService m (x, s) |}, w') ->
  validate (assign rt (req_body req) (hydrate (with_defaults (fields old)))) = []
  /\ fields s = commit (pre_save rt app (assign rt (req_body req) (hydrate (with_defaults (fields old)))))
  /\ exists s', docs w' !! i = Some s' /\ same_paths (fields s') (fields s) = true.
Proof.
  intros Hid Hold.
  rewrite (updateService_run app rt dev req now w i old Hid Hold). cbv zeta.
  generalize (assign rt (req_body req) (hydrate (with_defaults (fields old)))). intros p.
  destruct (validate p) eqn:V; [|discriminate].
  destruct (negb (same_paths (commit p) (fields old))
            || negb (same_paths (commit (pre_save rt app p)) (commit p))) eqn:B.
  - intros [= _ <- <- <-]. split; [done|]. split; [done|].
    eexists. split; [apply lookup_insert_eq|]. apply same_paths_refl.
  - intros [= _ <- <- <-]. split; [done|]. split; [done|].
    exists old. split; [done|]. cbn [fields].
    apply orb_false_iff in B as [B1 B2].
    apply negb_false_iff in B1, B2.
    apply same_paths_sym. by apply (same_paths_trans _ (commit p)).
Qed.

Lemma cast_back {A} (a : Nullable A) (c : Cast A) : CastOk a = c -> CastOk (stored c) = c.
Proof. by intros <-. Qed.

Lemma cast_same {A} (a b : Nullable A) (c : Cast A) :
  CastOk a = c -> c = CastOk b -> a = b.
Proof. by intros <- [= ->]. Qed.

Lemma with_defaults_others f :
  name (with_defaults f) = name f /\ category (with_defaults f) = category f
  /\ price (with_defaults f) = price f /\ duration (with_defaults f) = duration f
  /\ description (with_defaults f) = description f.
Proof.
  destruct f as [n c pr d st de cl]. simpl.
  repeat split; by match goal with |- _ ?v = _ => destruct v end.
Qed.

(** C1, amended: in the record a 200 answer returns, the name, category,
    duration, status and description are the stored ones when the body's
    value is falsy and the body's value (cast, and as the setters and the
    hook leave it) when it is truthy; the price and the number of
    clients are the stored ones only when the body's value is
    [undefined], and the body's value, cast to a number, otherwise, 0
    included.  The stored status and number of clients of a record that
    lacks them are the defaults of the schema, which the document takes
    when it is read.  The record of the collection holds the same
    values. *)
Theorem updateService_overlay app rt dev req now w w' i old m x s :
  castObjectId (params_id req) = Some i ->
  docs w !! i = Some old ->
  as_saved rt app (fields old) ->
  updateService app rt dev req now w =
    (inr {| code := 200; json := WithService m (x, s) |}, w') ->
  let body := req_body req in
  (if truthy (prop body "name")
   then exists n, set_string rt name_path (prop body "name") = CastOk (Val n)
                  /\ name (fields s) =
                       Val (match app with
                            | Backend => trim (capitalize rt n)
                            | VercelInline => n
                            end)
   else name (fields s) = name (fields old))
  /\ (if truthy (prop body "category")
      then CastOk (category (fields s)) = castString rt (prop body "category")
      else category (fields s) = category (fields old))
  /\ (if is_defined (prop body "price")
      then CastOk (price (fields s)) = castNumber rt (prop body "price")
      else price (fields s) = price (fields old))
  /\ (if truthy (prop body "duration")
      then CastOk (duration (fields s)) = castString rt (prop body "duration")
      else duration (fields s) = duration (fields old))
  /\ (if truthy (prop body "status")
      then CastOk (status (fields s)) = castString rt (prop body "status")
      else status (fields s) = status (with_defaults (fields old)))
  /\ (if truthy (prop body "description")
      then CastOk (description (fields s)) =
             set_string rt description_path (prop body "description")
      else description (fields s) = description (fields old))
  /\ (if is_defined (prop body "clients")
      then CastOk (clients (fields s)) = castNumber rt (prop body "clients")
      else clients (fields s) = clients (with_defaults (fields old)))
  /\ exists s', docs w' !! i = Some s' /\ same_paths (fields s') (fields s) = true.
Proof.
  intros Hid Hold Hsaved Hrun body.
  destruct (with_defaults_others (fields old)) as (Wn & Wc & Wp & Wd & We).
  apply with_defaults_as_saved in Hsaved. destruct Hsaved as [Hn Hd].
  destruct (updateService_200 app rt dev req now w w' i old m x s Hid Hold Hrun)
    as (V & Hf & Hstored).
  fold body in V, Hf. clear Hrun.
  pose proof (assign_name rt body (with_defaults (fields old))) as En.
  pose proof (assign_category rt body (with_defaults (fields old))) as Ec.
  pose proof (assign_price rt body (with_defaults (fields old))) as Epr.
  pose proof (assign_duration rt body (with_defaults (fields old))) as Edu.
  pose proof (assign_status rt body (with_defaults (fields old))) as Est.
  pose proof (assign_description rt body (with_defaults (fields old))) as Ede.
  pose proof (assign_clients rt body (with_defaults (fields old))) as Ecl.
  revert V Hf En Ec Epr Edu Est Ede Ecl.
  generalize (assign rt body (hydrate (with_defaults (fields old)))). intros p V Hf En Ec Epr Edu Est Ede Ecl.
  pose proof (validate_nil_hydrate p V) as Hp.
  destruct (validate_nil_each p V) as (Vn & _).
  destruct (required_string_Val "name" name_path "El nombre del servicio es obligatorio"
              (name p) (or_introl eq_refl) Vn) as [n Hname].
  pose proof (f_equal category Hp) as Hc. pose proof (f_equal price Hp) as Hpr.
  pose proof (f_equal duration Hp) as Hdu. pose proof (f_equal status Hp) as Hst.
  pose proof (f_equal description Hp) as Hde. pose proof (f_equal clients Hp) as Hcl.
  cbn [hydrate commit category price duration status description clients]
    in Hc, Hpr, Hdu, Hst, Hde, Hcl.
  repeat (split; [|try exact Hstored]); clear Hstored.
  all: rewrite Hf, pre_save_frame;
    cbn [commit name category price duration status description clients set_name];
    rewrite ?(pre_save_name rt app p (Val n) Hname), ?Hc, ?Hpr, ?Hdu, ?Hst, ?Hde, ?Hcl.
  all: rewrite En in Hname; rewrite Ec in Hc; rewrite Epr in Hpr;
    rewrite Edu in Hdu; rewrite Est in Hst; rewrite Ede in Hde; rewrite Ecl in Hcl;
    rewrite ?Ec, ?Epr, ?Edu, ?Est, ?Ede, ?Ecl.
  - destruct (truthy (prop body "name")) eqn:T.
    + exists n. rewrite or_truthy in Hname by done. split; [done|by destruct app].
    + rewrite or_falsy in Hname by (unfold falsy; by rewrite T).
      rewrite set_string_read_trimmed in Hname by (intros s0 H0; by apply Hn).
      injection Hname as Hname.
      change (name (with_defaults (fields old)) = Val n) in Hname.
      rewrite Wn in Hname. rewrite Hname. rewrite <- Wn in Hname.
      destruct app; [|done]. f_equal. by apply Hn.
  - destruct (truthy (prop body "category")) eqn:T.
    + rewrite or_truthy by done. by apply set_string_no_trim.
    + rewrite <- Wc. apply (cast_same _ _ _ Hc). rewrite or_falsy by (unfold falsy; by rewrite T).
      by apply set_string_read.
  - destruct (is_defined (prop body "price")) eqn:T; [done|].
    rewrite <- Wp. apply (cast_same _ _ _ Hpr). apply castNumber_read.
  - destruct (truthy (prop body "duration")) eqn:T.
    + rewrite or_truthy by done. by apply set_string_no_trim.
    + rewrite <- Wd. apply (cast_same _ _ _ Hdu). rewrite or_falsy by (unfold falsy; by rewrite T).
      by apply set_string_read.
  - destruct (truthy (prop body "status")) eqn:T.
    + rewrite or_truthy by done. by apply set_string_no_trim.
    + apply (cast_same _ _ _ Hst). rewrite or_falsy by (unfold falsy; by rewrite T).
      by apply set_string_read.
  - destruct (truthy (prop body "description")) eqn:T.
    + by rewrite or_truthy.
    + rewrite <- We. apply (cast_same _ _ _ Hde). rewrite or_falsy by (unfold falsy; by rewrite T).
      apply set_string_read_trimmed. intros s0 H0. by apply Hd.
  - destruct (is_defined (prop body "clients")) eqn:T; [done|].
    apply (cast_same _ _ _ Hcl). apply castNumber_read.
Qed.

Lemma updateService_overlay_witness :
  CastOk (clients (fields (scenario_record Backend 0 2000))) =
    castNumber ascii_runtime (VNum 0)
  /\ name (fields (scenario_record Backend 0 2000)) =
     name (fields (scenario_record Backend 5 1000)).
Proof.
  pose proof (updateService_overlay Backend ascii_runtime false
                (request id_7 [] {["clients" := VNum 0]}) 2000%Z five_clients
                (updateService Backend ascii_runtime false
                   (request id_7 [] {["clients" := VNum 0]}) 2000%Z five_clients).2
                7%N (scenario_record Backend 5 1000)
                "Servicio actualizado exitosamente" 7%N (scenario_record Backend 0 2000))
    as H.
  destruct H as (Hname & _ & _ & _ & _ & _ & Hclients & _).
  - reflexivity.
  - reflexivity.
  - split.
    + intros s [= <-]. split; [reflexivity|]. intros _. reflexivity.
    + intros s [= <-]. reflexivity.
  - vm_compute. reflexivity.
  - split; [exact Hclients | exact Hname].
Defined.

(** C1 as stated fails for the number of clients: a body with [clients]
    set to 0, a falsy value, replaces the five clients of the stored
    record by 0. *)
Lemma updateService_clients_zero_overwrites :
  let req := request id_7 [] {["clients" := VNum 0]} in
  let old := scenario_record Backend 5 1000 in
  let s := scenario_record Backend 0 2000 in
  falsy (prop (req_body req) "clients") = true
  /\ docs five_clients !! 7%N = Some old
  /\ (updateService Backend ascii_runtime false req 2000%Z five_clients).1 =
       inr {| code := 200;
              json := WithService "Servicio actualizado exitosamente" (7%N, s) |}
  /\ docs (updateService Backend ascii_runtime false req 2000%Z five_clients).2 !! 7%N
     = Some s
  /\ clients (fields s) <> clients (fields old).
Proof.
  repeat split; try (vm_compute; reflexivity). discriminate.
Qed.

(** The same for the price. *)
Lemma updateService_price_zero_overwrites :
  let req := request id_7 [] {["price" := VNum 0]} in
  falsy (prop (req_body req) "price") = true
  /\ exists s,
       docs (updateService Backend ascii_runtime false req 2000%Z five_clients).2 !! 7%N
       = Some s
       /\ price (fields s) = Val 0%Q.
Proof.
  split; [reflexivity|]. eexists. split; vm_compute; reflexivity.
Qed.

(** ** Statistics *)

Lemma getServiceStats_run rt dev now w :
  let l := map_to_list (docs w) in
  let clients_group :=
    group_all (fun l => {| total := acc_sum rt ((fun s => clients (fields s)) <$> l) |}) l in
  let price_group :=
    group_all (fun l =>
                 let ps := (fun s => price (fields s)) <$> l in
                 {| group_averagePrice := acc_avg rt ps; group_minPrice := acc_min ps;
                    group_maxPrice := acc_max ps |}) l in
  let categories :=
    remove_dups (List.filter present ((fun d => category (fields d.2)) <$> l)) in
  (getServiceStats rt dev now w).1 =
    inr {| code := 200;
           json := StatsBody
             {| overview :=
                  {| totalServices := length l;
                     activeServices := count_status "Activo" (docs w);
                     newServices := count_status "Nuevo" (docs w);
                     pausedServices := count_status "Pausado" (docs w);
                     inactiveServices := count_status "Inactivo" (docs w) |};
                totalClients :=
                  number_or (first_of (fun g => Val (total g)) clients_group) 0;
                totalCategories := length categories;
                availableCategories := categories;
                pricing :=
                  {| averagePrice :=
                       Math_round (number_or (first_of group_averagePrice price_group) 0);
                     minPrice := number_or (first_of group_minPrice price_group) 0;
                     maxPrice := number_or (first_of group_maxPrice price_group) 0 |};
                lastUpdated := now |} |}
  /\ docs (getServiceStats rt dev now w).2 = docs w.
Proof. split; reflexivity. Qed.



Lemma number_or_zero v :
  (number_or v 0 == match v with Val q => q | _ => 0 end)%Q.
Proof.
  destruct v as [| |q]; simpl; try reflexivity.
  destruct (Qeq_bool q 0) eqn:E; simpl; [|reflexivity].
  apply Qeq_bool_iff in E. by rewrite E.
Qed.

(** [Math.round] is within a half of its argument. *)
Lemma Math_round_nearest (q : Q) : (Qabs (inject_Z (Math_round q) - q) <= 1 # 2)%Q.
Proof.
  unfold Math_round. apply Qabs_Qle_condition.
  pose proof (Qfloor_le (q + (1 # 2))) as H1.
  pose proof (Qlt_floor (q + (1 # 2))) as H2.
  rewrite inject_Z_plus in H2. change (inject_Z 1) with 1%Q in H2.
  split; lra.
Qed.

Lemma prices_numeric (l : list (ObjectId * Stored)) :
  omap numeric ((fun s : Stored => price (fields s)) <$> l.*2)
  = omap (fun d : ObjectId * Stored => numeric (price (fields d.2))) l.
Proof.
  induction l as [|d l IH]; [reflexivity|].
  cbn [fmap list_fmap omap list_omap]. cbn [fmap list_fmap omap list_omap] in IH.
  by rewrite IH.
Qed.


(** *** Sums and quotients of whole numbers *)












(** With the store of three services the sums and quotients of doubles
    give the total of 12 clients and the average price 101. *)
Lemma getServiceStats_three_services_doubles :
  exists st,
    (getServiceStats double_runtime false 4000%Z three_services).1 =
      inr {| code := 200; json := StatsBody st |}
    /\ (totalClients st == 12)%Q
    /\ averagePrice (pricing st) = 101%Z.
Proof.
  destruct (getServiceStats_run double_runtime false 4000%Z three_services) as [Hrun _].
  cbv zeta in Hrun. eexists. split; [exact Hrun|]. cbn [totalClients pricing averagePrice].
  split; vm_compute; reflexivity.
Qed.

(** ** The form of the records of a reachable store *)

(** *** Trimming *)

Lemma trimStart_head s c r : trimStart s = c :: r -> is_space c = false.
Proof.
  induction s as [|x s IH]; simpl; [discriminate|].
  destruct (is_space x) eqn:E; [exact IH|]. by intros [= <- _].
Qed.

Lemma trimStart_keeps c r : is_space c = false -> trimStart (c :: r) = c :: r.
Proof. simpl. by intros ->. Qed.

Lemma trimStart_snoc l c : is_space c = false -> trimStart (l ++ [c]) = trimStart l ++ [c].
Proof.
  intros H. induction l as [|x l IH]; simpl; [by rewrite H|].
  by destruct (is_space x).
Qed.

Lemma trimStart_idem s : trimStart (trimStart s) = trimStart s.
Proof.
  destruct (trimStart s) as [|c r] eqn:E; [reflexivity|].
  apply trimStart_keeps. by apply (trimStart_head s c r).
Qed.

Lemma trimEnd_idem s : trimEnd (trimEnd s) = trimEnd s.
Proof. unfold trimEnd. by rewrite rev_involutive, trimStart_idem. Qed.

Lemma trimEnd_cons c r : is_space c = false -> trimEnd (c :: r) = c :: trimEnd r.
Proof.
  intros H. unfold trimEnd. simpl. rewrite trimStart_snoc by done.
  by rewrite rev_app_distr.
Qed.

Lemma trimEnd_snoc l d : is_space d = false -> trimEnd (l ++ [d]) = l ++ [d].
Proof.
  intros H. unfold trimEnd. rewrite rev_app_distr. simpl. rewrite H. simpl.
  by rewrite rev_involutive.
Qed.

Lemma trimEnd_ends s : trimEnd s = [] \/ ends_unspaced (trimEnd s).
Proof.
  unfold trimEnd. destruct (trimStart (rev s)) as [|d q] eqn:E; [by left|].
  right. exists (rev q), d. split; [reflexivity|]. by apply (trimStart_head (rev s) d q).
Qed.

Lemma ends_unspaced_cons c s : ends_unspaced s -> ends_unspaced (c :: s).
Proof. intros (l & d & -> & H). by exists (c :: l), d. Qed.

Lemma ends_unspaced_app a s : ends_unspaced s -> ends_unspaced (a ++ s).
Proof. induction a; [done|]. intros H. simpl. by apply ends_unspaced_cons, IHa. Qed.

(** What [trim] returns: nothing, or a string that neither starts nor
    ends with a space. *)
Lemma trim_shape s :
  trim s = []
  \/ exists c r, trim s = c :: r /\ is_space c = false /\ ends_unspaced (c :: r).
Proof.
  unfold trim. destruct (trimStart s) as [|c r] eqn:E; [by left|].
  right. pose proof (trimStart_head s c r E) as Hc.
  rewrite trimEnd_cons by done. exists c, (trimEnd r). split; [done|]. split; [done|].
  destruct (trimEnd_ends r) as [-> | H]; [by exists [], c|].
  by apply ends_unspaced_cons.
Qed.

Lemma trim_fixed c r :
  is_space c = false -> ends_unspaced (c :: r) -> trim (c :: r) = c :: r.
Proof.
  intros Hc (l & d & E & Hd). unfold trim. rewrite trimStart_keeps by done.
  rewrite E. by apply trimEnd_snoc.
Qed.

Lemma trim_idem s : trim (trim s) = trim s.
Proof.
  destruct (trim_shape s) as [-> | (c & r & -> & Hc & He)]; [reflexivity|].
  by apply trim_fixed.
Qed.

Lemma ends_unspaced_tail c r : ends_unspaced (c :: r) -> r <> [] -> ends_unspaced r.
Proof.
  intros (l & d & E & H) Hr. destruct l as [|x l]; simpl in E.
  - injection E as -> ->. done.
  - injection E as -> ->. by exists l, d.
Qed.

(** *** Upper-casing the first code unit *)

Ltac compare_units :=
  repeat (match goal with
          | |- context [(?a <=? ?b)%N] => destruct (N.leb_spec a b)
          | |- context [(?a <? ?b)%N] => destruct (N.ltb_spec a b)
          | |- context [(?a =? ?b)%N] => destruct (N.eqb_spec a b)
          | H : context [(?a <=? ?b)%N] |- _ => destruct (N.leb_spec a b)
          | H : context [(?a <? ?b)%N] |- _ => destruct (N.ltb_spec a b)
          | H : context [(?a =? ?b)%N] |- _ => destruct (N.eqb_spec a b)
          end; simpl in *; try (exfalso; lia); try discriminate).

Lemma upper_unit_capital table h :
  (65 <= h)%N -> (h <= 90)%N -> upper_unit table h = [h] /\ is_space h = false.
Proof.
  intros H1 H2. unfold upper_unit, is_space. compare_units. done.
Qed.

Lemma upper_unit_other table c :
  ((97 <=? c) && (c <=? 122))%N = false -> (c < 128)%N -> upper_unit table c = [c].
Proof.
  intros E Hc. unfold upper_unit. rewrite E. apply N.ltb_lt in Hc. by rewrite Hc.
Qed.

Lemma upper_unit_ascii table c :
  (c < 128)%N -> is_space c = false ->
  exists h, upper_unit table c = [h] /\ is_space h = false /\ upper_unit table h = [h].
Proof.
  intros Hc Hs.
  destruct ((97 <=? c) && (c <=? 122))%N eqn:E.
  - exists (c - 32)%N.
    pose proof E as E'. apply andb_true_iff in E' as [E1 E2]. apply N.leb_le in E1, E2.
    destruct (upper_unit_capital table (c - 32)%N) as [H1 H2]; [lia..|].
    split; [|done]. unfold upper_unit. by rewrite E.
  - exists c. by rewrite (upper_unit_other table c E Hc).
Qed.

Lemma upper_unit_stable rt c :
  upper_table_stable rt -> is_space c = false ->
  exists h t, upper_unit (upper_table rt) c = h :: t
              /\ is_space h = false
              /\ ends_unspaced (h :: t)
              /\ upper_unit (upper_table rt) h = [h].
Proof.
  intros Hrt Hs. destruct (N.lt_ge_cases c 128) as [Hc|Hc].
  - destruct (upper_unit_ascii (upper_table rt) c Hc Hs) as (h & E & Hh & Hu).
    exists h, []. repeat split; try done. by exists [], h.
  - destruct (Hrt c Hc Hs) as (h & t & E & Hh & He & Hu).
    exists h, t. repeat split; try done.
    unfold upper_unit. destruct ((97 <=? c) && (c <=? 122))%N eqn:E1.
    + apply andb_true_iff in E1 as [_ E1]. apply N.leb_le in E1. lia.
    + apply N.ltb_ge in Hc. by rewrite Hc.
Qed.

Lemma capitalize_cons rt c r :
  capitalize rt (c :: r) = upper_unit (upper_table rt) c ++ r.
Proof. unfold capitalize, toUpperCase. simpl. by rewrite app_nil_r. Qed.

(** The name the hook stores is left alone by the setters and by the hook. *)
Lemma capitalize_saved rt s :
  upper_table_stable rt ->
  let n := trim s in
  let u := trim (capitalize rt n) in
  n <> [] -> trim u = u /\ trim (capitalize rt u) = u.
Proof.
  intros Hrt n u Hn. unfold u. clear u. rewrite trim_idem. split; [done|].
  destruct (trim_shape s) as [E | (c & r & E & Hc & He)]; [done|].
  fold n in E. rewrite E. rewrite capitalize_cons.
  destruct (upper_unit_stable rt c Hrt Hc) as (h & t & -> & Hh & Ht & Hu).
  assert (ends_unspaced ((h :: t) ++ r)) as Hend.
  { destruct r as [|x r]; [by rewrite app_nil_r|].
    apply ends_unspaced_app. by apply (ends_unspaced_tail c). }
  simpl in Hend |- *. rewrite (trim_fixed h (t ++ r)) by done.
  rewrite capitalize_cons, Hu. simpl. by apply trim_fixed.
Qed.

Lemma set_string_trimmed rt o v s :
  s_trim o = true -> set_string rt o v = CastOk (Val s) -> exists s0, s = trim s0.
Proof.
  unfold set_string. intros ->.
  destruct (castString rt v) as [[| |s0]|x]; try discriminate.
  intros [= <-]. by exists s0.
Qed.

(** *** What [save] writes *)

Lemma saved_record_ok rt app p :
  validate p = [] -> record_ok (commit (pre_save rt app p)).
Proof.
  intros V. destruct (validate_nil_each p V) as (_ & Vc & Vp & _ & Vs & _ & Vk).
  rewrite pre_save_frame. unfold record_ok. simpl.
  apply status_checked in Vs as (t & -> & Ht).
  apply category_checked in Vc as (c & -> & Hc).
  apply price_checked in Vp as (q & -> & Hq).
  apply clients_checked in Vk as (k & -> & Hk). simpl.
  split; [by exists t|]. split; [by exists c|]. split; [by exists q|]. exact Hk.
Qed.

Lemma saved_as_saved rt app p :
  upper_table_stable rt -> validate p = [] -> from_setters rt p ->
  as_saved rt app (commit (pre_save rt app p)).
Proof.
  intros Hrt V [[vn Sn] [[vd Sd] _]].
  destruct (validate_nil_each p V) as (Vn & _ & _ & _ & _ & Vd & _).
  destruct (required_string_Val "name" name_path "El nombre del servicio es obligatorio"
              (name p) (or_introl eq_refl) Vn) as [n Hname].
  destruct (required_string_Val "description" description_path
              "La descripción es obligatoria" (description p) (or_introl eq_refl) Vd)
    as [d Hdesc].
  assert (n <> []) as Hne.
  { rewrite Hname in Vn. intros ->. discriminate Vn. }
  rewrite Hname in Sn. rewrite Hdesc in Sd. symmetry in Sn, Sd.
  apply set_string_trimmed in Sn as [n0 ->]; [|done].
  apply set_string_trimmed in Sd as [d0 ->]; [|done].
  rewrite pre_save_frame. unfold as_saved.
  cbn [commit name description set_name].
  rewrite (pre_save_name rt app p _ Hname), Hdesc. cbn [stored].
  split.
  - intros s Hs. destruct app.
    + injection Hs as <-.
      destruct (capitalize_saved rt n0 Hrt Hne) as [H1 H2]. by split.
    + injection Hs as <-. split; [apply trim_idem|done].
  - intros s [= <-]. apply trim_idem.
Qed.

(** *** The stores an application reaches *)

Lemma getServiceById_docs dev req w : docs (getServiceById dev req w).2 = docs w.
Proof.
  unfold getServiceById, try_catch, findById.
  destruct (castObjectId (params_id req)) as [j|]; [|reflexivity].
  unfold bind, send, collection, ret. cbn [docs].
  destruct (docs w !! j); reflexivity.
Qed.

Lemma getServicesByCategory_docs dev req w :
  docs (getServicesByCategory dev req w).2 = docs w.
Proof.
  destruct (decide (params_category req ∈ categories)) as [H|H].
  - by rewrite getServicesByCategory_valid.
  - by rewrite getServicesByCategory_invalid.
Qed.

(** *** The paths with a default *)

Lemma construct_clients_defined rt body :
  clients (construct rt (service_input body)) <> CastOk Undef.
Proof.
  cbn [construct service_input clients]. unfold Js.or.
  destruct (truthy (prop body "clients")) eqn:T.
  - rewrite init_number_defined by by apply truthy_defined.
    apply castNumber_defined. by destruct (prop body "clients").
  - discriminate.
Qed.

Lemma assign_from_setters rt body o :
  from_setters rt (assign rt body (hydrate (with_defaults o))).
Proof.
  split; [eexists; apply assign_name|]. split; [eexists; apply assign_description|].
  rewrite assign_clients. apply castNumber_defined.
  destruct (is_defined (prop body "clients")) eqn:T; [done|].
  cbn [with_defaults clients]. by destruct (clients o).
Qed.

(** A record [save] writes holds a status and a number of clients. *)
Lemma saved_holds_defaults rt app p :
  validate p = [] -> from_setters rt p -> holds_defaults (commit (pre_save rt app p)).
Proof.
  intros V (_ & _ & Hk). destruct (validate_nil_each _ V) as (_ & _ & _ & _ & Vs & _ & Vk).
  rewrite pre_save_frame. unfold holds_defaults. cbn [commit status clients set_name].
  split.
  - apply status_checked in Vs as (t & -> & _). discriminate.
  - apply clients_checked in Vk as (v & E & _). rewrite E in Hk |- *. simpl.
    intros ->. by apply Hk.
Qed.

Lemma assign_holds_defaults rt app body o :
  validate (assign rt body (hydrate (with_defaults o))) = [] ->
  holds_defaults (commit (pre_save rt app (assign rt body (hydrate (with_defaults o))))).
Proof. intros V. apply saved_holds_defaults; [done|apply assign_from_setters]. Qed.

(** A request leaves in the collection records that were there and
    records that [save] wrote. *)
Lemma serve_docs app rt dev c w i s :
  docs (serve app rt dev c w).2 !! i = Some s ->
  docs w !! i = Some s
  \/ exists p, validate p = [] /\ from_setters rt p
               /\ fields s = commit (pre_save rt app p).
Proof.
  destruct c as [now| |req newId now|req|req|req now|req]; simpl serve.
  - destruct app.
    + rewrite (proj2 (getServiceStats_run rt dev now w)). by left.
    + rewrite getServiceById_docs. by left.
  - destruct app; rewrite getAllServices_run; by left.
  - assert (docs (createService app rt dev req newId now w).2 !! i = Some s ->
            docs w !! i = Some s
            \/ exists p, validate p = [] /\ from_setters rt p
                         /\ fields s = commit (pre_save rt app p)) as H.
    { rewrite createService_run. cbv zeta.
      destruct (validate _) eqn:V; [|by left].
      destruct (docs w !! newId) eqn:L; [by left|]. cbn [snd docs].
      destruct (decide (newId = i)) as [->|Hne].
      - rewrite lookup_insert_eq. intros [= <-]. right. eexists.
        split; [exact V|]. split; [|reflexivity].
        split; [|split]; [eexists|eexists|]; cbn [construct name description];
          [by rewrite init_string_no_default..|].
        apply construct_clients_defined.
      - rewrite lookup_insert_ne by done. by left. }
    by destruct app.
  - destruct app; [|by left]. rewrite getServicesByCategory_docs. by left.
  - destruct app; rewrite getServiceById_docs; by left.
  - assert (docs (updateService app rt dev req now w).2 !! i = Some s ->
            docs w !! i = Some s
            \/ exists p, validate p = [] /\ from_setters rt p
                         /\ fields s = commit (pre_save rt app p)) as H.
    { destruct (castObjectId (params_id req)) as [j|] eqn:Hid.
      - destruct (docs w !! j) as [old|] eqn:Hold.
        + rewrite (updateService_run app rt dev req now w j old Hid Hold). cbv zeta.
          destruct (validate _) eqn:V; [|by left].
          destruct (negb _ || negb _); [|by left]. cbn [snd docs].
          destruct (decide (j = i)) as [->|Hne].
          * rewrite lookup_insert_eq. intros [= <-]. right. eexists.
            split; [exact V|]. split; [|reflexivity]. apply assign_from_setters.
          * rewrite lookup_insert_ne by done. by left.
        + unfold updateService, try_catch, findById. rewrite Hid.
          unfold bind, send, collection, ret. cbn [docs]. rewrite Hold. by left.
      - unfold updateService, try_catch, findById. rewrite Hid. by left. }
    by destruct app.
  - assert (docs (deleteService app dev req w).2 !! i = Some s -> docs w !! i = Some s)
      as H.
    { unfold deleteService, try_catch, findById.
      destruct (castObjectId (params_id req)) as [j|] eqn:Hid; [|done].
      unfold bind at 1 2 3, send at 1, collection, ret at 1. cbn [docs].
      destruct (docs w !! j) as [old|] eqn:Hold; [|done]. cbn [fmap option_fmap option_map].
      destruct app.
      - unfold bind, deleteOne, bind, send, write, ret. cbn [docs snd _id document].
        intros H. apply lookup_delete_Some in H. tauto.
      - unfold bind, findByIdAndDelete. rewrite Hid.
        unfold deleteOne, bind, send, write, ret. cbn [docs snd].
        intros H. apply lookup_delete_Some in H. tauto. }
    left. by destruct app; apply H.
Qed.

(** A property of what [save] writes holds of every record of a
    reachable store. *)
Lemma reachable_records app rt dev (P : Paths Nullable -> Prop) :
  (forall p, validate p = [] -> from_setters rt p -> P (commit (pre_save rt app p))) ->
  forall w, reachable app rt dev w ->
  forall i s, docs w !! i = Some s -> P (fields s).
Proof.
  intros HP w Hw. induction Hw as [|w c Hw IH]; intros i s H.
  - unfold empty_world in H. cbn [docs] in H. by rewrite lookup_empty in H.
  - apply serve_docs in H as [H | (p & V & S & ->)]; [by apply (IH i)|by apply HP].
Qed.

(** The records of a reachable store satisfy the constraints of the
    schema; in particular their status is one of the four. *)
Lemma reachable_record_ok app rt dev w :
  reachable app rt dev w ->
  forall i s, docs w !! i = Some s -> record_ok (fields s).
Proof.
  apply reachable_records. intros p V _. by apply saved_record_ok.
Qed.

Lemma reachable_statuses_valid app rt dev w :
  reachable app rt dev w -> statuses_valid (docs w).
Proof.
  intros Hw i s H. by destruct (reachable_record_ok app rt dev w Hw i s H) as [? _].
Qed.

(** With Unicode's table as the development asks, the records of a
    reachable store are as [save] leaves them. *)
Lemma reachable_as_saved app rt dev w :
  upper_table_stable rt ->
  reachable app rt dev w ->
  forall i s, docs w !! i = Some s -> as_saved rt app (fields s).
Proof.
  intros Hrt. apply reachable_records. intros p V S. by apply saved_as_saved.
Qed.

(** The records of a reachable store hold a status and a number of
    clients: reading one applies no default. *)
Lemma reachable_holds_defaults app rt dev w :
  reachable app rt dev w ->
  forall i s, docs w !! i = Some s -> holds_defaults (fields s).
Proof.
  apply reachable_records. intros p V S. by apply (saved_holds_defaults rt app).
Qed.

Lemma ascii_runtime_stable : upper_table_stable ascii_runtime.
Proof.
  intros c Hc Hs. exists c, []. simpl. repeat split; try done.
  - by exists [], c.
  - unfold upper_unit. destruct ((97 <=? c) && (c <=? 122))%N eqn:E.
    + apply andb_true_iff in E as [_ E]. apply N.leb_le in E. lia.
    + apply N.ltb_ge in Hc. by rewrite Hc.
Qed.

(** * Further properties of the handlers *)

(** ** Deleting a service *)

Lemma deleteService_found app dev req w i s :
  castObjectId (params_id req) = Some i ->
  docs w !! i = Some s ->
  deleteService app dev req w =
    (inr {| code := 200;
            json := match app with
                    | Backend =>
                        DeletedSummary "Servicio eliminado correctamente" i (name (fields s))
                    | VercelInline =>
                        DeletedService "Servicio eliminado exitosamente" (document i s)
                    end |},
     {| docs := delete i (docs w); sent := (sent w ++ [FindOneCmd i]) ++ [DeleteCmd i] |}).
Proof.
  intros Hid Hs. unfold deleteService, try_catch, findById. rewrite Hid.
  unfold bind at 1 2 3, send at 1, collection, ret at 1. cbn [docs sent]. rewrite Hs.
  cbn [fmap option_fmap option_map].
  destruct app.
  - cbn [document paths _id]. unfold bind, deleteOne, send, write, ret.
    cbn [hydrate name stored]. by rewrite (proj1 (with_defaults_others (fields s))).
  - unfold bind, findByIdAndDelete. rewrite Hid. reflexivity.
Qed.

Lemma deleteService_absent app dev req w i :
  castObjectId (params_id req) = Some i ->
  docs w !! i = None ->
  deleteService app dev req w =
    (inr {| code := 404;
            json := WithId "Servicio no encontrado para eliminar" (params_id req) |},
     {| docs := docs w; sent := sent w ++ [FindOneCmd i] |}).
Proof.
  intros Hid Hs. unfold deleteService, try_catch, findById. rewrite Hid.
  unfold bind, send, collection, ret. cbn [docs sent]. rewrite Hs. reflexivity.
Qed.

Lemma deleteService_malformed app dev req w :
  castObjectId (params_id req) = None ->
  deleteService app dev req w =
    (inr {| code := 400; json := WithId "ID de servicio inválido" (params_id req) |}, w).
Proof.
  intros Hid. unfold deleteService, try_catch, findById. rewrite Hid. reflexivity.
Qed.

Lemma updateService_absent app rt dev req now w i :
  castObjectId (params_id req) = Some i ->
  docs w !! i = None ->
  updateService app rt dev req now w =
    (inr {| code := 404;
            json := WithId "Servicio no encontrado para actualizar" (params_id req) |},
     {| docs := docs w; sent := sent w ++ [FindOneCmd i] |}).
Proof.
  intros Hid Hs. unfold updateService, try_catch, findById. rewrite Hid.
  unfold bind, send, collection, ret. cbn [docs sent]. rewrite Hs. reflexivity.
Qed.

Lemma updateService_malformed app rt dev req now w :
  castObjectId (params_id req) = None ->
  updateService app rt dev req now w =
    (inr {| code := 400; json := WithId "ID de servicio inválido" (params_id req) |}, w).
Proof.
  intros Hid. unfold updateService, try_catch, findById. rewrite Hid. reflexivity.
Qed.

(** X1: once a service was deleted, reading it by the same identifier is
    answered 404, on both applications. *)
Theorem delete_then_get_not_found app dev req w i s :
  castObjectId (params_id req) = Some i ->
  docs w !! i = Some s ->
  exists r,
    (deleteService app dev req w).1 = inr r
    /\ code r = 200%nat
    /\ docs (deleteService app dev req w).2 !! i = None
    /\ (getServiceById dev req (deleteService app dev req w).2).1 =
         inr {| code := 404; json := WithId "Servicio no encontrado" (params_id req) |}.
Proof.
  intros Hid Hs. rewrite (deleteService_found app dev req w i s Hid Hs).
  eexists. split; [reflexivity|]. split; [reflexivity|]. cbn [snd docs].
  split; [apply lookup_delete_eq|].
  unfold getServiceById, try_catch, findById. rewrite Hid.
  unfold bind, send, collection, ret. cbn [docs]. rewrite lookup_delete_eq. reflexivity.
Qed.

Lemma delete_then_get_not_found_witness :
  docs (deleteService Backend false (request id_7 [] ∅) (one_service Backend)).2 !! 7%N = None
  /\ (getServiceById false (request id_7 [] ∅)
        (deleteService Backend false (request id_7 [] ∅) (one_service Backend)).2).1 =
     inr {| code := 404; json := WithId "Servicio no encontrado" id_7 |}.
Proof.
  destruct (delete_then_get_not_found Backend false (request id_7 [] ∅)
              (one_service Backend) 7%N (seo_record Backend))
    as (r & _ & _ & H1 & H2); [reflexivity|reflexivity|].
  split; [exact H1|exact H2].
Defined.

(** X2: a service that was created is read back, by an identifier that
    casts to the one it was given, as the record of the 201 answer. *)
Theorem create_then_get app rt dev req newId now w w' m i s req' :
  createService app rt dev req newId now w =
    (inr {| code := 201; json := WithService m (i, s) |}, w') ->
  castObjectId (params_id req') = Some i ->
  (getServiceById dev req' w').1 = inr {| code := 200; json := OneService (document i s) |}.
Proof.
  rewrite createService_run. cbv zeta.
  destruct (validate _); [|discriminate].
  destruct (docs w !! newId); [discriminate|].
  intros [= _ <- <- <-] Hid.
  unfold getServiceById, try_catch, findById. rewrite Hid.
  unfold bind, send, collection, ret. cbn [docs]. rewrite lookup_insert_eq. reflexivity.
Qed.

Lemma create_then_get_witness :
  (getServiceById false (request id_7 [] ∅) (one_service Backend)).1 =
    inr {| code := 200; json := OneService (document 7%N (seo_record Backend)) |}.
Proof.
  apply (create_then_get Backend ascii_runtime false (request [] [] seo_audit) 7%N 1000%Z
           empty_world (one_service Backend) "Servicio creado exitosamente").
  - vm_compute. reflexivity.
  - reflexivity.
Defined.

(** ** What a request does to the collection *)

Lemma getServiceById_answers dev req w : exists r, (getServiceById dev req w).1 = inr r.
Proof.
  unfold getServiceById, try_catch, findById.
  destruct (castObjectId (params_id req)) as [j|]; [|by eexists].
  unfold bind, send, collection, ret. cbn [docs].
  destruct (docs w !! j); by eexists.
Qed.

(** What [updateService] does to the collection: nothing, or it replaces
    the record of the identifier by one of the same creation time. *)
Lemma updateService_docs app rt dev req now w :
  exists r,
    (updateService app rt dev req now w).1 = inr r
    /\ (docs (updateService app rt dev req now w).2 = docs w
        \/ (code r = 200%nat
            /\ exists i old s,
                 castObjectId (params_id req) = Some i
                 /\ docs w !! i = Some old
                 /\ createdAt s = createdAt old
                 /\ docs (updateService app rt dev req now w).2 = <[i := s]> (docs w))).
Proof.
  destruct (castObjectId (params_id req)) as [i|] eqn:Hid.
  - destruct (docs w !! i) as [old|] eqn:Hold.
    + rewrite (updateService_run app rt dev req now w i old Hid Hold). cbv zeta.
      destruct (validate _); [|eexists; split; [reflexivity|by left]].
      destruct (negb _ || negb _); eexists; (split; [reflexivity|]); [right|by left].
      split; [reflexivity|]. exists i, old. eexists.
      split; [done|]. split; [done|]. split; [|reflexivity]. reflexivity.
    + rewrite (updateService_absent app rt dev req now w i Hid Hold).
      eexists. split; [reflexivity|by left].
  - rewrite (updateService_malformed app rt dev req now w Hid).
    eexists. split; [reflexivity|by left].
Qed.

Lemma deleteService_docs app dev req w :
  exists r,
    (deleteService app dev req w).1 = inr r
    /\ (docs (deleteService app dev req w).2 = docs w
        \/ (code r = 200%nat
            /\ exists i, castObjectId (params_id req) = Some i
                         /\ docs (deleteService app dev req w).2 = delete i (docs w))).
Proof.
  destruct (castObjectId (params_id req)) as [i|] eqn:Hid.
  - destruct (docs w !! i) as [s|] eqn:Hs.
    + rewrite (deleteService_found app dev req w i s Hid Hs).
      eexists. split; [reflexivity|]. right. split; [reflexivity|]. by exists i.
    + rewrite (deleteService_absent app dev req w i Hid Hs).
      eexists. split; [reflexivity|by left].
  - rewrite (deleteService_malformed app dev req w Hid).
    eexists. split; [reflexivity|by left].
Qed.

Lemma createService_docs app rt dev req newId now w :
  exists r,
    (createService app rt dev req newId now w).1 = inr r
    /\ (docs (createService app rt dev req newId now w).2 = docs w
        \/ (code r = 201%nat
            /\ docs w !! newId = None
            /\ exists s, docs (createService app rt dev req newId now w).2
                         = <[newId := s]> (docs w))).
Proof.
  rewrite createService_run. cbv zeta.
  destruct (validate _); [|eexists; split; [reflexivity|by left]].
  destruct (docs w !! newId) eqn:E; eexists; (split; [reflexivity|]); [by left|right].
  split; [reflexivity|]. split; [done|]. by eexists.
Qed.

(** What a request does to the collection: nothing, or, the answer being
    200 or 201, one write at its target. *)
Lemma serve_effect app rt dev c w :
  exists r,
    (serve app rt dev c w).1 = inr r
    /\ (docs (serve app rt dev c w).2 = docs w
        \/ (read_only c = false /\ (code r = 200%nat \/ code r = 201%nat)
            /\ exists i, target c = Some i
                         /\ ((exists s, docs (serve app rt dev c w).2 = <[i := s]> (docs w))
                             \/ docs (serve app rt dev c w).2 = delete i (docs w)))).
Proof.
  destruct c as [now| |req newId now|req|req|req now|req]; simpl serve.
  - destruct app.
    + destruct (getServiceStats_run rt dev now w) as [H1 H2]. cbv zeta in H1.
      eexists. split; [exact H1|by left].
    + destruct (getServiceById_answers dev (request (js "stats") [] ∅) w) as [r Hr].
      exists r. split; [exact Hr|]. left. apply getServiceById_docs.
  - assert (exists r, (getAllServices dev w).1 = inr r
                      /\ docs (getAllServices dev w).2 = docs w) as (r & Hr & Hd)
      by (rewrite getAllServices_run; by eexists).
    exists r. destruct app; by (split; [|left]).
  - destruct (createService_docs app rt dev req newId now w)
      as (r & Hr & [Hd | (Hc & Hn & s & Hd)]).
    + exists r. destruct app; by (split; [|left]).
    + exists r. destruct app; (split; [done|]); right;
        (split; [done|]); (split; [by right|]); exists newId; (split; [done|]);
        left; by exists s.
  - destruct app.
    + assert (exists r, (getServicesByCategory dev req w).1 = inr r) as [r Hr].
      { destruct (decide (params_category req ∈ categories)) as [H|H].
        - rewrite getServicesByCategory_valid by done. by eexists.
        - rewrite getServicesByCategory_invalid by done. by eexists. }
      exists r. split; [done|]. left. apply getServicesByCategory_docs.
    + eexists. split; [reflexivity|by left].
  - destruct (getServiceById_answers dev req w) as [r Hr].
    exists r. destruct app; (split; [exact Hr|]); left; apply getServiceById_docs.
  - destruct (updateService_docs app rt dev req now w)
      as (r & Hr & [Hd | (Hc & i & old & s & Hid & Hold & Hcr & Hd)]).
    + exists r. destruct app; by (split; [|left]).
    + exists r. destruct app; (split; [done|]); right;
        (split; [done|]); (split; [by left|]); exists i; (split; [done|]);
        left; by exists s.
  - destruct (deleteService_docs app dev req w) as (r & Hr & [Hd | (Hc & i & Hid & Hd)]).
    + exists r. destruct app; by (split; [|left]).
    + exists r. destruct app; (split; [done|]); right;
        (split; [done|]); (split; [by left|]); exists i; (split; [done|]); by right.
Qed.

(** X3: every request is answered, no error escapes a handler; a request
    that only reads, and a request answered with a code from 400 on,
    leave the collection as it was. *)
Theorem request_answered_and_failures_keep_collection app rt dev c w :
  exists r,
    (serve app rt dev c w).1 = inr r
    /\ (read_only c = true -> docs (serve app rt dev c w).2 = docs w)
    /\ ((400 <= code r)%nat -> docs (serve app rt dev c w).2 = docs w).
Proof.
  destruct (serve_effect app rt dev c w) as (r & Hr & [Hd | (Hro & Hc & _)]).
  - exists r. by repeat split.
  - exists r. split; [done|]. split; [congruence|]. intros H. destruct Hc as [Hc|Hc]; lia.
Qed.

Lemma request_answered_and_failures_keep_collection_witness :
  docs (serve Backend ascii_runtime false (Post (request [] [] ∅) 8%N 2000%Z)
          (one_service Backend)).2 = docs (one_service Backend)
  /\ docs (serve Backend ascii_runtime false GetAll (one_service Backend)).2
     = docs (one_service Backend).
Proof.
  split.
  - destruct (request_answered_and_failures_keep_collection Backend ascii_runtime false
                (Post (request [] [] ∅) 8%N 2000%Z) (one_service Backend))
      as (r & Hr & _ & H).
    apply H. vm_compute in Hr. injection Hr as <-. simpl. lia.
  - destruct (request_answered_and_failures_keep_collection Backend ascii_runtime false
                GetAll (one_service Backend)) as (r & _ & H & _).
    by apply H.
Defined.

(** X4: a request leaves every record but the one of its target as it
    was. *)
Theorem request_touches_its_target_only app rt dev c w j :
  target c <> Some j ->
  docs (serve app rt dev c w).2 !! j = docs w !! j.
Proof.
  intros Hj. destruct (serve_effect app rt dev c w)
    as (r & _ & [Hd | (_ & _ & i & Hi & [[s Hd] | Hd])]); rewrite Hd; [done|..].
  - apply lookup_insert_ne. congruence.
  - apply lookup_delete_ne. congruence.
Qed.

Lemma request_touches_its_target_only_witness :
  docs (serve Backend ascii_runtime false (Post (request [] [] seo_audit) 8%N 2000%Z)
          (one_service Backend)).2 !! 7%N = docs (one_service Backend) !! 7%N.
Proof.
  apply request_touches_its_target_only. simpl. discriminate.
Defined.

(** X5: an update neither adds nor removes a record, and it leaves the
    creation time of every record as it was. *)
Theorem update_keeps_records_and_creation_time app rt dev req now w :
  dom (docs (updateService app rt dev req now w).2) = dom (docs w)
  /\ forall j s s',
       docs w !! j = Some s ->
       docs (updateService app rt dev req now w).2 !! j = Some s' ->
       createdAt s' = createdAt s.
Proof.
  destruct (updateService_docs app rt dev req now w)
    as (r & _ & [Hd | (_ & i & old & s0 & _ & Hold & Hcr & Hd)]); rewrite Hd.
  - split; [done|]. intros j s s' H1 H2. rewrite H1 in H2. by injection H2 as <-.
  - split.
    + rewrite dom_insert_L. apply elem_of_dom_2 in Hold.
      apply subseteq_union_1_L. by apply singleton_subseteq_l.
    + intros j s s' Hs. destruct (decide (i = j)) as [->|Hne].
      * rewrite lookup_insert_eq. intros [= <-]. congruence.
      * rewrite lookup_insert_ne by done. congruence.
Qed.

Lemma update_keeps_records_and_creation_time_witness :
  createdAt (scenario_record Backend 0 2000) = createdAt (scenario_record Backend 5 1000).
Proof.
  apply (proj2 (update_keeps_records_and_creation_time Backend ascii_runtime false
                  (request id_7 [] {["clients" := VNum 0]}) 2000%Z five_clients) 7%N).
  - vm_compute. reflexivity.
  - vm_compute. reflexivity.
Defined.

(** X6: [updateService] and [deleteService] answer a malformed identifier
    with 400 and the identifier, nothing being sent to the store, and a
    well-formed identifier of no record with 404, the collection being
    left as it was. *)
Theorem update_and_delete_check_identifier app rt dev req now w :
  (castObjectId (params_id req) = None ->
   updateService app rt dev req now w =
     (inr {| code := 400; json := WithId "ID de servicio inválido" (params_id req) |}, w)
   /\ deleteService app dev req w =
     (inr {| code := 400; json := WithId "ID de servicio inválido" (params_id req) |}, w))
  /\ (forall i, castObjectId (params_id req) = Some i -> docs w !! i = None ->
      (updateService app rt dev req now w).1 =
        inr {| code := 404;
               json := WithId "Servicio no encontrado para actualizar" (params_id req) |}
      /\ docs (updateService app rt dev req now w).2 = docs w
      /\ (deleteService app dev req w).1 =
        inr {| code := 404;
               json := WithId "Servicio no encontrado para eliminar" (params_id req) |}
      /\ docs (deleteService app dev req w).2 = docs w).
Proof.
  split.
  - intros H. split; [by apply updateService_malformed|by apply deleteService_malformed].
  - intros i Hid Hi.
    rewrite (updateService_absent app rt dev req now w i Hid Hi),
      (deleteService_absent app dev req w i Hid Hi). by repeat split.
Qed.

Lemma update_and_delete_check_identifier_witness :
  deleteService Backend false (request (js "not-an-id") [] ∅) (one_service Backend) =
    (inr {| code := 400; json := WithId "ID de servicio inválido" (js "not-an-id") |},
     one_service Backend)
  /\ (updateService Backend ascii_runtime false (request id_7 [] ∅) 2000%Z empty_world).1 =
     inr {| code := 404;
            json := WithId "Servicio no encontrado para actualizar" id_7 |}.
Proof.
  split.
  - apply (proj1 (update_and_delete_check_identifier Backend ascii_runtime false
                    (request (js "not-an-id") [] ∅) 0%Z (one_service Backend))).
    reflexivity.
  - apply (proj2 (update_and_delete_check_identifier Backend ascii_runtime false
                    (request id_7 [] ∅) 2000%Z empty_world) 7%N); reflexivity.
Defined.

(** ** The records of a reachable store, continued *)

Lemma maxlength_checked path o m n k (c : Cast jsstring) :
  s_required o = RequiredWith m ->
  s_validators o = [MaxLength n k] ->
  validate_string path o c = None
  <-> exists s, c = CastOk (Val s) /\ s <> [] /\ (length s <= n)%nat.
Proof.
  intros Hr Hv. destruct c as [[| |s]|x].
  1,2,4: split; [unfold validate_string; rewrite ?Hr; discriminate
                |intros (s' & H & _); discriminate].
  rewrite (validate_string_required path o m (MaxLength n k)) by eauto.
  rewrite string_present_Val. simpl. rewrite Nat.leb_le.
  split; [intros [H1 H2]; by exists s | intros (s' & [= <-] & H1 & H2); done].
Qed.

Lemma saved_schema_constraints rt app p :
  validate p = [] -> from_setters rt p -> schema_constraints (commit (pre_save rt app p)).
Proof.
  intros V [_ [[vd Sd] _]]. split; [by apply saved_record_ok|].
  destruct (validate_nil_each p V) as (_ & _ & _ & Vdu & _ & Vde & _).
  rewrite pre_save_frame. cbn [commit duration description set_name].
  apply (maxlength_checked "duration" duration_path "La duración es obligatoria" 50
           "La duración no puede exceder 50 caracteres") in Vdu as (d & -> & Hd1 & Hd2);
    [|done..].
  apply (maxlength_checked "description" description_path "La descripción es obligatoria"
           500 "La descripción no puede exceder 500 caracteres") in Vde
    as (s & Hs & Hs1 & Hs2); [|done..].
  split; [by exists d|]. rewrite Hs. exists s. repeat split; try done.
  rewrite Hs in Sd. symmetry in Sd.
  apply set_string_trimmed in Sd as [s0 ->]; [|done]. apply trim_idem.
Qed.

Lemma reachable_one_service app :
  reachable app ascii_runtime false (one_service app).
Proof.
  apply (reachable_serve app ascii_runtime false empty_world
           (Post (request [] [] seo_audit) 7%N 1000%Z)).
  constructor.
Qed.

Lemma reachable_five_clients : reachable Backend ascii_runtime false five_clients.
Proof.
  apply (reachable_serve Backend ascii_runtime false empty_world
           (Post (request [] [] (<["clients" := VNum 5]> seo_audit)) 7%N 1000%Z)).
  constructor.
Qed.

(** X7: every record of a store an application reaches satisfies the
    constraints of the schema: status and category of the enumerations, a
    price that is a number not below 0, a number of clients not below 0,
    a duration of 1 to 50 code units, a trimmed description of 1 to 500. *)
Theorem reachable_store_keeps_schema app rt dev w i s :
  reachable app rt dev w -> docs w !! i = Some s -> schema_constraints (fields s).
Proof.
  intros Hw. revert i s. apply (reachable_records app rt dev); [|exact Hw].
  intros p V S. by apply saved_schema_constraints.
Qed.

Lemma reachable_store_keeps_schema_witness :
  schema_constraints (fields (seo_record Backend)).
Proof.
  apply (reachable_store_keeps_schema Backend ascii_runtime false (one_service Backend)
           7%N).
  - apply reachable_one_service.
  - reflexivity.
Defined.

(** The name the hook stores starts with a code unit that is not a space
    and is its own upper-casing. *)
Lemma capitalize_head rt s :
  upper_table_stable rt -> trim s <> [] ->
  exists h u, trim (capitalize rt (trim s)) = h :: u
              /\ is_space h = false
              /\ upper_unit (upper_table rt) h = [h].
Proof.
  intros Hrt Hn.
  destruct (trim_shape s) as [E | (c & r & E & Hc & He)]; [done|].
  rewrite E, capitalize_cons.
  destruct (upper_unit_stable rt c Hrt Hc) as (h & t & -> & Hh & Ht & Hu).
  assert (ends_unspaced ((h :: t) ++ r)) as Hend.
  { destruct r as [|x r]; [by rewrite app_nil_r|].
    apply ends_unspaced_app. by apply (ends_unspaced_tail c). }
  simpl in Hend |- *. rewrite (trim_fixed h (t ++ r)) by done.
  by exists h, (t ++ r).
Qed.

Lemma own_upper_not_lower table c : upper_unit table c = [c] -> lower_ascii c = false.
Proof.
  unfold upper_unit, lower_ascii. destruct ((97 <=? c) && (c <=? 122))%N eqn:E; [|done].
  intros [= H]. apply andb_true_iff in E as [E _]. apply N.leb_le in E. lia.
Qed.

(** X8: on the back end, with Unicode's table as the development asks,
    the name of every record of a reachable store is not empty and
    starts with a code unit that is neither a space nor a lower-case
    letter of ASCII. *)
Theorem backend_names_start_upper rt dev w i s :
  upper_table_stable rt ->
  reachable Backend rt dev w ->
  docs w !! i = Some s ->
  exists c r, name (fields s) = Val (c :: r)
              /\ is_space c = false /\ lower_ascii c = false.
Proof.
  intros Hrt Hw. revert i s.
  apply (reachable_records Backend rt dev
           (fun f => exists c r, name f = Val (c :: r)
                                 /\ is_space c = false /\ lower_ascii c = false));
    [|exact Hw].
  intros p V [[vn Sn] _].
  destruct (validate_nil_each p V) as (Vn & _).
  destruct (required_string_Val "name" name_path "El nombre del servicio es obligatorio"
              (name p) (or_introl eq_refl) Vn) as [n Hname].
  assert (n <> []) as Hne.
  { rewrite Hname in Vn. intros ->. discriminate Vn. }
  rewrite Hname in Sn. symmetry in Sn.
  apply set_string_trimmed in Sn as [n0 ->]; [|done].
  rewrite pre_save_frame. cbn [commit name set_name].
  rewrite (pre_save_name rt Backend p _ Hname).
  destruct (capitalize_head rt n0 Hrt Hne) as (h & u & -> & Hh & Hu).
  exists h, u. split; [done|]. split; [done|]. by apply (own_upper_not_lower (upper_table rt)).
Qed.

Lemma backend_names_start_upper_witness :
  exists c r, name (fields (seo_record Backend)) = Val (c :: r)
              /\ is_space c = false /\ lower_ascii c = false.
Proof.
  apply (backend_names_start_upper ascii_runtime false (one_service Backend) 7%N).
  - apply ascii_runtime_stable.
  - apply reachable_one_service.
  - reflexivity.
Defined.

(** ** The statistics, continued *)

Lemma foldr_Qmin_le q r x : x ∈ q :: r -> (foldr Qmin q r <= x)%Q.
Proof.
  induction r as [|a r IH]; intros Hx.
  - apply list_elem_of_singleton in Hx as ->. apply Qle_refl.
  - cbn [foldr]. apply elem_of_cons in Hx as [-> | Hx].
    + eapply Qle_trans; [apply Q.le_min_r|]. apply IH. apply list_elem_of_here.
    + apply elem_of_cons in Hx as [-> | Hx]; [apply Q.le_min_l|].
      eapply Qle_trans; [apply Q.le_min_r|]. apply IH. by apply list_elem_of_further.
Qed.

Lemma foldr_Qmax_le q r x : x ∈ q :: r -> (x <= foldr Qmax q r)%Q.
Proof.
  induction r as [|a r IH]; intros Hx.
  - apply list_elem_of_singleton in Hx as ->. apply Qle_refl.
  - cbn [foldr]. apply elem_of_cons in Hx as [-> | Hx].
    + eapply Qle_trans; [|apply Q.le_max_r]. apply IH. apply list_elem_of_here.
    + apply elem_of_cons in Hx as [-> | Hx]; [apply Q.le_max_l|].
      eapply Qle_trans; [|apply Q.le_max_r]. apply IH. by apply list_elem_of_further.
Qed.

Lemma foldr_Qmin_in q r : exists x, x ∈ q :: r /\ (foldr Qmin q r == x)%Q.
Proof.
  induction r as [|a r (x & Hx & E)].
  - exists q. split; [apply list_elem_of_here|reflexivity].
  - cbn [foldr]. destruct (Q.min_dec a (foldr Qmin q r)) as [H | H].
    + exists a. split; [|exact H]. apply list_elem_of_further, list_elem_of_here.
    + exists x. split; [|by rewrite H].
      apply elem_of_cons in Hx as [-> | Hx]; [apply list_elem_of_here|].
      by do 2 apply list_elem_of_further.
Qed.

Lemma foldr_Qmax_in q r : exists x, x ∈ q :: r /\ (foldr Qmax q r == x)%Q.
Proof.
  induction r as [|a r (x & Hx & E)].
  - exists q. split; [apply list_elem_of_here|reflexivity].
  - cbn [foldr]. destruct (Q.max_dec a (foldr Qmax q r)) as [H | H].
    + exists a. split; [|exact H]. apply list_elem_of_further, list_elem_of_here.
    + exists x. split; [|by rewrite H].
      apply elem_of_cons in Hx as [-> | Hx]; [apply list_elem_of_here|].
      by do 2 apply list_elem_of_further.
Qed.

(** The two price bounds of the snapshot, for a collection with a price. *)
Lemma stats_bounds rt dev now w st q ps :
  (getServiceStats rt dev now w).1 = inr {| code := 200; json := StatsBody st |} ->
  prices (docs w) = q :: ps ->
  (minPrice (pricing st) == foldr Qmin q ps)%Q
  /\ (maxPrice (pricing st) == foldr Qmax q ps)%Q.
Proof.
  intros Hrun Hp.
  rewrite (proj1 (getServiceStats_run rt dev now w)) in Hrun. cbv zeta in Hrun.
  injection Hrun as <-. cbn [pricing minPrice maxPrice].
  unfold prices in Hp.
  destruct (map_to_list (docs w)) as [|d l] eqn:E; [discriminate Hp|].
  cbn [group_all first_of group_minPrice group_maxPrice].
  unfold acc_min, acc_max. rewrite prices_numeric, Hp.
  split; apply number_or_zero.
Qed.

(** X9: in the snapshot of the statistics every price of the collection
    lies between the minimum and the maximum, and both are the price of
    a record when a record has one. *)
Theorem stats_prices_within_bounds rt dev now w :
  exists st,
    (getServiceStats rt dev now w).1 = inr {| code := 200; json := StatsBody st |}
    /\ (forall q, q ∈ prices (docs w) ->
          (minPrice (pricing st) <= q)%Q /\ (q <= maxPrice (pricing st))%Q)
    /\ (prices (docs w) <> [] ->
          exists lo hi, lo ∈ prices (docs w) /\ hi ∈ prices (docs w)
                        /\ (minPrice (pricing st) == lo)%Q
                        /\ (maxPrice (pricing st) == hi)%Q).
Proof.
  pose proof (proj1 (getServiceStats_run rt dev now w)) as Hrun. cbv zeta in Hrun.
  eexists. split; [exact Hrun|].
  match type of Hrun with _ = inr {| code := _; json := StatsBody ?t |} =>
    generalize dependent t end.
  intros st Hrun.
  destruct (prices (docs w)) as [|p ps] eqn:Hp.
  - split; [|done]. intros q Hq. by apply elem_of_nil in Hq.
  - destruct (stats_bounds rt dev now w st p ps Hrun Hp) as [Hmin Hmax].
    split.
    + intros q Hq. rewrite Hmin, Hmax.
      split; [by apply foldr_Qmin_le | by apply foldr_Qmax_le].
    + intros _. destruct (foldr_Qmin_in p ps) as (lo & Hlo & Elo).
      destruct (foldr_Qmax_in p ps) as (hi & Hhi & Ehi).
      exists lo, hi. repeat split; try done.
      * by rewrite Hmin.
      * by rewrite Hmax.
Qed.

Lemma stats_prices_within_bounds_witness :
  exists st,
    (getServiceStats ascii_runtime false 3000%Z five_clients).1 =
      inr {| code := 200; json := StatsBody st |}
    /\ ((minPrice (pricing st) <= 100)%Q /\ (100 <= maxPrice (pricing st))%Q)
    /\ exists lo hi, lo ∈ prices (docs five_clients) /\ hi ∈ prices (docs five_clients)
                     /\ (minPrice (pricing st) == lo)%Q
                     /\ (maxPrice (pricing st) == hi)%Q.
Proof.
  destruct (stats_prices_within_bounds ascii_runtime false 3000%Z five_clients) as (st & Hrun & Hin & Hex).
  assert (prices (docs five_clients) = [100%Q]) as E by (vm_compute; reflexivity).
  exists st. split; [exact Hrun|]. split.
  - apply Hin. rewrite E. apply list_elem_of_here.
  - apply Hex. rewrite E. discriminate.
Defined.

(** The categories of the snapshot. *)
Lemma stats_categories rt dev now w st :
  (getServiceStats rt dev now w).1 = inr {| code := 200; json := StatsBody st |} ->
  totalCategories st = length (availableCategories st)
  /\ availableCategories st =
       remove_dups (List.filter present
                      ((fun d => category (fields d.2)) <$> map_to_list (docs w))).
Proof.
  intros Hrun.
  rewrite (proj1 (getServiceStats_run rt dev now w)) in Hrun. cbv zeta in Hrun.
  injection Hrun as <-. split; reflexivity.
Qed.

Lemma getServiceStats_answers rt dev now w :
  exists st, (getServiceStats rt dev now w).1 = inr {| code := 200; json := StatsBody st |}.
Proof.
  pose proof (proj1 (getServiceStats_run rt dev now w)) as Hrun. cbv zeta in Hrun.
  eexists. exact Hrun.
Qed.

Lemma elem_of_distinct (m : gmap ObjectId Stored) (v : Nullable jsstring) :
  v ∈ remove_dups (List.filter present
                     ((fun d => category (fields d.2)) <$> map_to_list m))
  <-> v <> Undef /\ exists i s, m !! i = Some s /\ category (fields s) = v.
Proof.
  rewrite elem_of_remove_dups, list_elem_of_In, filter_In, <- list_elem_of_In.
  rewrite list_elem_of_fmap. split.
  - intros [([i s] & -> & Hin) Hp]. apply elem_of_map_to_list in Hin.
    split; [|by exists i, s]. cbn [snd] in Hp |- *. intros E. by rewrite E in Hp.
  - intros [Hv (i & s & Hs & <-)]. split.
    + exists (i, s). split; [done|]. by apply elem_of_map_to_list.
    + by destruct (category (fields s)).
Qed.

(** X10: the categories of the snapshot are the categories the records
    of the collection have, each once, and their number is the number
    reported; on a store the application reached they are among the six
    of the schema, so that no more than six are reported. *)
Theorem stats_categories_distinct app rt dev now w :
  exists st,
    (getServiceStats rt dev now w).1 = inr {| code := 200; json := StatsBody st |}
    /\ NoDup (availableCategories st)
    /\ totalCategories st = length (availableCategories st)
    /\ (forall v, v ∈ availableCategories st
                  <-> v <> Undef
                      /\ exists i s, docs w !! i = Some s /\ category (fields s) = v)
    /\ (reachable app rt dev w ->
          (forall v, v ∈ availableCategories st -> exists c, v = Val c /\ c ∈ categories)
          /\ (totalCategories st <= 6)%nat).
Proof.
  pose proof (proj1 (getServiceStats_run rt dev now w)) as Hrun. cbv zeta in Hrun.
  eexists. split; [exact Hrun|].
  match type of Hrun with _ = inr {| code := _; json := StatsBody ?t |} =>
    generalize dependent t end.
  intros st Hrun. destruct (stats_categories rt dev now w st Hrun) as [Ht Ha].
  assert (NoDup (availableCategories st)) as Hnd.
  { rewrite Ha. apply NoDup_remove_dups. }
  split; [exact Hnd|]. split; [exact Ht|]. split.
  { intros v. rewrite Ha. apply elem_of_distinct. }
  intros Hw.
  assert (forall v, v ∈ availableCategories st -> exists c, v = Val c /\ c ∈ categories)
    as Hin.
  { intros v Hv. rewrite Ha in Hv. apply elem_of_distinct in Hv as (_ & i & s & Hs & <-).
    destruct (reachable_record_ok app rt dev w Hw i s Hs) as (_ & (c & Hc & Hcat) & _).
    by exists c. }
  split; [exact Hin|].
  rewrite Ht.
  change 6%nat with (length (Val <$> categories : list (Nullable jsstring))).
  apply submseteq_length, NoDup_submseteq; [exact Hnd|].
  intros v Hv. destruct (Hin v Hv) as (c & -> & Hc).
  apply list_elem_of_fmap. by exists c.
Qed.

Lemma stats_categories_distinct_witness :
  exists st,
    (getServiceStats ascii_runtime false 3000%Z (one_service Backend)).1 =
      inr {| code := 200; json := StatsBody st |}
    /\ Val (js "Digital") ∈ availableCategories st
    /\ (totalCategories st <= 6)%nat.
Proof.
  destruct (stats_categories_distinct Backend ascii_runtime false 3000%Z
              (one_service Backend)) as (st & Hrun & _ & _ & Hiff & Hreach).
  exists st. split; [exact Hrun|]. split.
  - apply Hiff. split; [discriminate|]. exists 7%N, (seo_record Backend).
    split; reflexivity.
  - apply Hreach. apply reachable_one_service.
Defined.

(** X11: the Vercel entry point has no route for the statistics: the
    request falls to the route of one service with [stats] for
    identifier, and is answered 400 whatever the collection holds, which
    it leaves as it is; the back end answers the same request 200. *)
Theorem vercel_statistics_answered_400 rt dev now w :
  (serve VercelInline rt dev (GetStats now) w).1 =
    inr {| code := 400; json := WithId "ID de servicio inválido" (js "stats") |}
  /\ (serve VercelInline rt dev (GetStats now) w).2 = w
  /\ exists st, (serve Backend rt dev (GetStats now) w).1 =
                  inr {| code := 200; json := StatsBody st |}.
Proof.
  split; [reflexivity|]. split; [by destruct w|].
  eexists. apply (proj1 (getServiceStats_run rt dev now w)).
Qed.

(** ** The recent services of the dashboard *)




(** ** The form and the schema *)

Lemma trimStart_length s : (length (trimStart s) <= length s)%nat.
Proof.
  induction s as [|c s IH]; [done|]. simpl. destruct (is_space c); simpl; lia.
Qed.

Lemma trim_length s : (length (trim s) <= length s)%nat.
Proof.
  unfold trim, trimEnd. rewrite length_rev.
  etransitivity; [apply trimStart_length|]. rewrite length_rev. apply trimStart_length.
Qed.

Lemma push_nil c m errors :
  ServiceValidation.push c m errors = [] -> c = false /\ errors = [].
Proof.
  unfold ServiceValidation.push. destruct c; [|done].
  intros H. by apply app_nil in H as [_ H].
Qed.

Lemma blank_false v :
  ServiceValidation.blank v = Some false ->
  exists s, v = VStr s /\ trim s <> [].
Proof.
  unfold ServiceValidation.blank. destruct (truthy v); [|discriminate].
  destruct v as [| |b|q|s| |o]; try discriminate.
  intros [= H]. exists s. split; [done|]. intros E. by rewrite E in H.
Qed.

(** What [validateServiceData] has checked of a payload it accepts. *)
Lemma validateServiceData_accepts rt otn sd errs :
  ServiceValidation.validateServiceData rt otn sd
  = Some {| ServiceValidation.isValid := true; ServiceValidation.errors := errs |} ->
  (exists s, prop sd "name" = VStr s /\ trim s <> [] /\ (length s <= 100)%nat)
  /\ (exists s, prop sd "category" = VStr s /\ s ∈ categories)
  /\ (truthy (prop sd "price") = true
      /\ ServiceValidation.lt_zero rt otn (prop sd "price") = false)
  /\ (exists s, prop sd "duration" = VStr s /\ trim s <> [])
  /\ (exists s, prop sd "description" = VStr s /\ trim s <> [] /\ (length s <= 500)%nat)
  /\ (truthy (prop sd "status") = true ->
      exists s, prop sd "status" = VStr s /\ s ∈ statuses)
  /\ (truthy (prop sd "clients") = true ->
      ServiceValidation.lt_zero rt otn (prop sd "clients") = false).
Proof.
  unfold ServiceValidation.validateServiceData.
  destruct (ServiceValidation.blank (prop sd "name")) as [bn|] eqn:Bn; [|discriminate].
  destruct (ServiceValidation.blank (prop sd "duration")) as [bd|] eqn:Bd; [|discriminate].
  destruct (ServiceValidation.blank (prop sd "description")) as [be|] eqn:Be;
    [|discriminate].
  cbn [mbind option_bind]. intros [= Hlen _].
  apply Nat.eqb_eq, nil_length_inv in Hlen.
  apply push_nil in Hlen as [Hk Hlen]. apply push_nil in Hlen as [Hs Hlen].
  apply push_nil in Hlen as [Hel Hlen]. apply push_nil in Hlen as [-> Hlen].
  apply push_nil in Hlen as [-> Hlen]. apply push_nil in Hlen as [Hp Hlen].
  apply push_nil in Hlen as [Hc Hlen]. apply push_nil in Hlen as [Hnl Hlen].
  apply push_nil in Hlen as [-> _].
  apply blank_false in Bn as (n & En & Hn). apply blank_false in Bd as (d & Ed & Hd).
  apply blank_false in Be as (e & Ee & He).
  apply orb_false_iff in Hc as [Hc1 Hc2]. apply negb_false_iff in Hc1, Hc2.
  apply orb_false_iff in Hp as [Hp1 Hp2]. apply negb_false_iff in Hp1.
  repeat split.
  - exists n. split; [done|]. split; [done|].
    rewrite En in Hnl. unfold ServiceValidation.longer in Hnl.
    assert (truthy (VStr n) = true) as T by (destruct n; [by destruct Hn|done]).
    rewrite T in Hnl. simpl in Hnl. apply Nat.ltb_ge in Hnl. exact Hnl.
  - destruct (prop sd "category") as [| |?|?|c| |?]; try discriminate Hc2.
    exists c. split; [done|]. by apply includes_categories.
  - exact Hp1.
  - exact Hp2.
  - by exists d.
  - exists e. split; [done|]. split; [done|].
    rewrite Ee in Hel. unfold ServiceValidation.longer in Hel.
    assert (truthy (VStr e) = true) as T by (destruct e; [by destruct He|done]).
    rewrite T in Hel. simpl in Hel. apply Nat.ltb_ge in Hel. exact Hel.
  - intros T. rewrite T in Hs. simpl in Hs. apply negb_false_iff in Hs.
    destruct (prop sd "status") as [| |?|?|c| |?]; try discriminate Hs.
    exists c. split; [done|]. unfold ServiceValidation.includes_value, includes in Hs.
    by apply bool_decide_eq_true in Hs.
  - intros T. by rewrite T in Hk.
Qed.

(** A value the form found not below 0 that casts to a number casts to
    one not below 0. *)
Lemma not_lt_zero_cast rt otn v :
  truthy v = true -> ServiceValidation.lt_zero rt otn v = false ->
  casts_to_number rt v ->
  exists q, castNumber rt v = CastOk (Val q) /\ (0 <= q)%Q.
Proof.
  intros T L C. unfold ServiceValidation.lt_zero in L.
  destruct v as [| |b|q|[|c s]| |o]; try discriminate T; unfold castNumber;
    simpl in L |- *.
  - exists (if b then 1%Q else 0%Q). split; [done|]. by destruct b.
  - exists q. split; [done|]. apply negb_false_iff in L. by apply Qle_bool_iff.
  - destruct (stringToNumber rt (c :: s)) as [q|] eqn:E.
    + exists q. split; [done|]. apply negb_false_iff in L. by apply Qle_bool_iff.
    + exfalso. apply (C (VStr (c :: s))). simpl. by rewrite E.
  - exfalso. by apply (C VArray).
  - exfalso. by apply (C (VObject o)).
Qed.

(** X13: a payload the form accepts is a payload the schema accepts,
    when its price and its number of clients are numbers or convert to
    numbers and its duration has 50 code units at most, which the form
    does not check: posted with a fresh identifier it is answered 201. *)
Theorem form_accepted_is_created app rt otn dev sd errs newId now w :
  ServiceValidation.validateServiceData rt otn sd
  = Some {| ServiceValidation.isValid := true; ServiceValidation.errors := errs |} ->
  casts_to_number rt (prop sd "price") ->
  casts_to_number rt (prop sd "clients") ->
  (forall d, prop sd "duration" = VStr d -> (length d <= 50)%nat) ->
  docs w !! newId = None ->
  exists s,
    (createService app rt dev (request [] [] sd) newId now w).1 =
      inr {| code := 201; json := WithService "Servicio creado exitosamente" (newId, s) |}
    /\ docs (createService app rt dev (request [] [] sd) newId now w).2 !! newId = Some s.
Proof.
  intros Hv Cp Ck Hd50 Hnew.
  destruct (validateServiceData_accepts rt otn sd errs Hv)
    as ((n & En & Hn & Hnl) & (c & Ec & Hc) & (Tp & Lp) & (d & Ed & Hd)
        & (e & Ee & He & Hel) & Hs & Hk).
  apply createService_valid; cbn [req_body request]; try done.
  - rewrite En. exists n. split; [done|]. split; [done|].
    etransitivity; [apply trim_length|done].
  - rewrite Ec. by exists c.
  - by apply (not_lt_zero_cast rt otn).
  - rewrite Ed. exists d. split; [done|]. split.
    + intros ->. by apply Hd.
    + by apply Hd50.
  - intros T. destruct (Hs T) as (s & -> & Hin). by exists s.
  - rewrite Ee. exists e. split; [done|]. split; [done|].
    etransitivity; [apply trim_length|done].
  - intros T. destruct (not_lt_zero_cast rt otn _ T (Hk T) Ck) as (q & E & Hq).
    exists (Val q). split; [done|]. by intros ? [= <-].
Qed.

Lemma form_accepted_is_created_witness :
  exists s,
    (createService Backend ascii_runtime false (request [] [] seo_audit) 7%N 1000%Z
       empty_world).1 =
      inr {| code := 201; json := WithService "Servicio creado exitosamente" (7%N, s) |}
    /\ docs (createService Backend ascii_runtime false (request [] [] seo_audit) 7%N 1000%Z
               empty_world).2 !! 7%N = Some s.
Proof.
  apply (form_accepted_is_created Backend ascii_runtime (fun _ => None) false seo_audit []).
  - reflexivity.
  - intros x. discriminate.
  - intros x. discriminate.
  - intros d [= <-]. vm_compute. lia.
  - reflexivity.
Defined.

(** X14: the form never accepts a payload whose price is 0, which the
    schema allows: with a price of 0, a payload whose other fields are
    valid is created by the API, answered 201. *)
Theorem form_rejects_free_service app rt otn dev sd q newId now w :
  prop sd "price" = VNum q -> (q == 0)%Q ->
  (forall v, ServiceValidation.validateServiceData rt otn sd = Some v ->
     ServiceValidation.isValid v = false
     /\ "El precio debe ser un número positivo" ∈ ServiceValidation.errors v)
  /\ (valid_name rt (prop sd "name") ->
      valid_category rt (prop sd "category") ->
      valid_duration rt (prop sd "duration") ->
      valid_status rt (prop sd "status") ->
      valid_description rt (prop sd "description") ->
      valid_clients rt (prop sd "clients") ->
      docs w !! newId = None ->
      exists s,
        (createService app rt dev (request [] [] sd) newId now w).1 =
          inr {| code := 201;
                 json := WithService "Servicio creado exitosamente" (newId, s) |}).
Proof.
  intros Hp Hq. split.
  - intros v. unfold ServiceValidation.validateServiceData.
    destruct (ServiceValidation.blank (prop sd "name")) as [bn|]; [|discriminate].
    destruct (ServiceValidation.blank (prop sd "duration")) as [bd|]; [|discriminate].
    destruct (ServiceValidation.blank (prop sd "description")) as [be|]; [|discriminate].
    cbn [mbind option_bind]. rewrite Hp.
    assert (truthy (VNum q) = false) as ->.
    { simpl. apply negb_false_iff. by apply Qeq_bool_iff. }
    cbn [negb orb]. intros [= <-]. cbn [ServiceValidation.isValid ServiceValidation.errors].
    match goal with
    | |- context [?e ++ ["El precio debe ser un número positivo"]] =>
        generalize e; intros e0
    end.
    assert (forall c m l, "El precio debe ser un número positivo" ∈ l ->
              "El precio debe ser un número positivo" ∈ ServiceValidation.push c m l) as Hkeep.
    { intros c m l Hl. unfold ServiceValidation.push. destruct c; [|done].
      apply elem_of_app. by left. }
    assert ("El precio debe ser un número positivo"
            ∈ e0 ++ ["El precio debe ser un número positivo"]) as Hin.
    { apply elem_of_app. right. apply list_elem_of_here. }
    match goal with
    | |- _ /\ _ ∈ ?l =>
        assert ("El precio debe ser un número positivo" ∈ l) as Hall
          by (do 5 apply Hkeep; exact Hin);
        generalize dependent l
    end.
    intros l Hall.
    split; [|exact Hall].
    apply Nat.eqb_neq. intros Hl. apply nil_length_inv in Hl. rewrite Hl in Hall.
    by apply elem_of_nil in Hall.
  - intros Hn Hc Hd Hs He Hk Hnew.
    destruct (createService_valid app rt dev (request [] [] sd) newId now w)
      as (s & Hrun & _); cbn [req_body request]; try done.
    + rewrite Hp. exists q. split; [done|]. rewrite Hq. apply Qle_refl.
    + by exists s.
Qed.

Lemma form_rejects_free_service_witness :
  (forall v, ServiceValidation.validateServiceData ascii_runtime (fun _ => None)
               (<["price" := VNum 0]> seo_audit) = Some v ->
     ServiceValidation.isValid v = false
     /\ "El precio debe ser un número positivo" ∈ ServiceValidation.errors v)
  /\ exists s,
       (createService Backend ascii_runtime false
          (request [] [] (<["price" := VNum 0]> seo_audit)) 7%N 1000%Z empty_world).1 =
         inr {| code := 201;
                json := WithService "Servicio creado exitosamente" (7%N, s) |}.
Proof.
  destruct (form_rejects_free_service Backend ascii_runtime (fun _ => None) false
              (<["price" := VNum 0]> seo_audit) 0%Q 7%N 1000%Z empty_world)
    as [Hform Hapi]; [reflexivity|reflexivity|].
  split; [exact Hform|]. apply Hapi.
  - exists (js "seo audit"). split; [reflexivity|]. split; [discriminate|].
    vm_compute. lia.
  - exists (js "Digital"). split; [reflexivity|]. apply list_elem_of_here.
  - exists (js "1 week"). split; [reflexivity|]. split; [discriminate|].
    vm_compute. lia.
  - intros T. discriminate T.
  - exists (js "desc"). split; [reflexivity|]. split; [discriminate|].
    vm_compute. lia.
  - intros T. discriminate T.
  - reflexivity.
Defined.

(** ** The connection of the Vercel entry point *)

(** X15: the middleware of the Vercel entry point passes a request for a
    path under [/api/], the health check apart, only with the
    connection flag set, and answers it 500 otherwise; a request for
    another path, or one that finds the flag set, is passed on with
    nothing changed; and [mongoose.connect] is called once at most, with
    the configured URI, which is not empty, and only with the flag
    unset. *)
Theorem middleware_guards_api uri path resolves st :
  let r := Connection.middleware uri path resolves st in
  (Connection.needs_connection path = true -> r.1 = Connection.Next ->
     Connection.isConnected r.2 = true)
  /\ (r.1 <> Connection.Next ->
        r.1 = Connection.Respond 500 "Error de conexión a la base de datos"
                "No se pudo establecer conexión con MongoDB"
        /\ Connection.needs_connection path = true
        /\ Connection.isConnected r.2 = false)
  /\ (Connection.needs_connection path = false \/ Connection.isConnected st = true ->
        r = (Connection.Next, st))
  /\ (Connection.connects r.2 = Connection.connects st
      \/ exists u, uri = Some u /\ u <> []
                   /\ Connection.isConnected st = false
                   /\ Connection.connects r.2 = Connection.connects st ++ [u]).
Proof.
  unfold Connection.middleware, Connection.connectMongoDB.
  destruct (Connection.needs_connection path) eqn:G;
    destruct (Connection.isConnected st) eqn:C;
    destruct uri as [[|c u]|]; destruct resolves; cbn.
  all: repeat split; try done; try (by left); try (by intros [?|?]).
  all: try (right; by exists (c :: u)).
Qed.

Lemma middleware_guards_api_witness :
  Connection.isConnected
    (Connection.middleware (Some (js "mongodb://db")) (js "/api/services") true
       {| Connection.isConnected := false; Connection.connects := [] |}).2 = true.
Proof.
  apply (proj1 (middleware_guards_api (Some (js "mongodb://db")) (js "/api/services") true
                  {| Connection.isConnected := false; Connection.connects := [] |}));
    reflexivity.
Defined.

(** ** The tasks *)

(** X16: reading or deleting a task by a malformed identifier is
    answered 500 with the error of the cast, not 400, and by a
    well-formed identifier of no task 404; in both cases the tasks are
    left as they were.  No answer of the two handlers has another code
    than 200, 404 and 500. *)
Theorem task_identifier_checked {Task} id (tasks : gmap ObjectId Task) :
  (castObjectId id = None ->
     TaskController.getTaskById id tasks =
       ({| TaskController.code := 500;
           TaskController.json :=
             TaskController.ErrorMessage (CastErrorOf "ObjectId" id "_id") |}, tasks)
     /\ TaskController.deleteTask id tasks = TaskController.getTaskById id tasks)
  /\ (forall i, castObjectId id = Some i -> tasks !! i = None ->
        TaskController.getTaskById id tasks =
          ({| TaskController.code := 404;
              TaskController.json := TaskController.Message "Tarea no encontrada" |}, tasks)
        /\ TaskController.deleteTask id tasks = TaskController.getTaskById id tasks)
  /\ (TaskController.code (TaskController.getTaskById id tasks).1 = 500%nat
      <-> castObjectId id = None)
  /\ (TaskController.code (TaskController.deleteTask id tasks).1 = 500%nat
      <-> castObjectId id = None)
  /\ TaskController.code (TaskController.getTaskById id tasks).1 ∈ [200; 404; 500]%nat
  /\ TaskController.code (TaskController.deleteTask id tasks).1 ∈ [200; 404; 500]%nat.
Proof.
  unfold TaskController.getTaskById, TaskController.deleteTask, TaskController.findById.
  destruct (castObjectId id) as [i|]; [destruct (tasks !! i) as [t|] eqn:E|]; cbn.
  all: split; [try done; by intros _|].
  all: split; [try done; intros j [= <-] E'; try done; congruence|].
  all: do 2 (split; [done|]).
  all: split; compute_done.
Qed.

Lemma task_identifier_checked_witness :
  TaskController.getTaskById (js "stats") (∅ : gmap ObjectId unit) =
    ({| TaskController.code := 500;
        TaskController.json :=
          TaskController.ErrorMessage (CastErrorOf "ObjectId" (js "stats") "_id") |}, ∅)
  /\ TaskController.deleteTask (js "stats") (∅ : gmap ObjectId unit)
     = TaskController.getTaskById (js "stats") ∅.
Proof.
  apply (proj1 (task_identifier_checked (js "stats") (∅ : gmap ObjectId unit))).
  reflexivity.
Defined.

(** X17: deleting a task that exists is answered 200; after it the task
    is not found, answered 404, the other tasks are as they were, and
    the listing holds the tasks that remain, each once. *)
Theorem task_deleted_is_gone {Task} id (tasks : gmap ObjectId Task) i t :
  castObjectId id = Some i -> tasks !! i = Some t ->
  let after := (TaskController.deleteTask id tasks).2 in
  (TaskController.deleteTask id tasks).1 =
    {| TaskController.code := 200;
       TaskController.json := TaskController.Message "Tarea eliminada" |}
  /\ (TaskController.getTaskById id after).1 =
       {| TaskController.code := 404;
          TaskController.json := TaskController.Message "Tarea no encontrada" |}
  /\ (forall j, j <> i -> after !! j = tasks !! j)
  /\ exists l, (TaskController.getAllTasks after).1 =
                 {| TaskController.code := 200;
                    TaskController.json := TaskController.TaskList l |}
               /\ NoDup l
               /\ forall j u, (j, u) ∈ l <-> j <> i /\ tasks !! j = Some u.
Proof.
  intros Hid Ht.
  unfold TaskController.deleteTask, TaskController.getTaskById, TaskController.findById,
    TaskController.getAllTasks.
  rewrite Hid, Ht. cbn. rewrite lookup_delete_eq. cbn.
  split; [done|]. split; [done|]. split.
  - intros j Hj. by apply lookup_delete_ne.
  - eexists. split; [reflexivity|]. split; [apply NoDup_map_to_list|].
    intros j u. rewrite elem_of_map_to_list, lookup_delete_Some.
    split; (intros [H1 H2]; split; [|exact H2]); intros E'; by apply H1.
Qed.

Lemma task_deleted_is_gone_witness :
  (TaskController.getTaskById id_7
     (TaskController.deleteTask id_7 ({[7%N := tt]} : gmap ObjectId unit)).2).1 =
    {| TaskController.code := 404;
       TaskController.json := TaskController.Message "Tarea no encontrada" |}.
Proof.
  apply (task_deleted_is_gone id_7 ({[7%N := tt]} : gmap ObjectId unit) 7%N tt);
    reflexivity.
Defined.

(** ** Repeating an update *)

Lemma paths_ext {F} (p q : Paths F) :
  name p = name q -> category p = category q -> price p = price q ->
  duration p = duration q -> status p = status q -> description p = description q ->
  clients p = clients q -> p = q.
Proof. destruct p, q. simpl. by intros -> -> -> -> -> -> ->. Qed.

(** Assigning to a path of type [String] the value of the body, or what
    the path holds when that is falsy, a second time. *)
Lemma set_string_again rt o bv old :
  let c := set_string rt o (Js.or bv old) in
  c = CastOk (stored c) ->
  set_string rt o (Js.or bv (read_string (stored c))) = c.
Proof.
  unfold Js.or. destruct (truthy bv); [done|].
  unfold set_string. destruct (castString rt old) as [[| |s]|x]; simpl; try done.
  intros _. destruct (s_trim o); [|done]. by rewrite trim_idem.
Qed.

Lemma set_number_again rt bv old :
  let c := castNumber rt (if is_defined bv then bv else old) in
  c = CastOk (stored c) ->
  castNumber rt (if is_defined bv then bv else read_number (stored c)) = c.
Proof.
  destruct (is_defined bv); [done|]. simpl. intros ->. simpl. apply castNumber_read.
Qed.

Lemma hydrate_fields p :
  hydrate (commit p) = p ->
  name p = CastOk (stored (name p)) /\ category p = CastOk (stored (category p))
  /\ price p = CastOk (stored (price p)) /\ duration p = CastOk (stored (duration p))
  /\ status p = CastOk (stored (status p))
  /\ description p = CastOk (stored (description p))
  /\ clients p = CastOk (stored (clients p)).
Proof. intros H. rewrite <- H at 1 3 5 7 9 11 13. by destruct p. Qed.

(** The record an update leaves, updated again with the same body. *)
Lemma assign_again rt app body o :
  upper_table_stable rt ->
  validate (assign rt body (hydrate (with_defaults o))) = [] ->
  (forall n, name (commit (pre_save rt app (assign rt body (hydrate (with_defaults o))))) = Val n ->
     (length n <= 100)%nat) ->
  validate (assign rt body
              (hydrate (commit (pre_save rt app (assign rt body (hydrate (with_defaults o))))))) = []
  /\ commit (pre_save rt app
               (assign rt body
                  (hydrate (commit (pre_save rt app (assign rt body (hydrate (with_defaults o))))))))
     = commit (pre_save rt app (assign rt body (hydrate (with_defaults o)))).
Proof.
  intros Hrt V Hlen.
  pose proof (assign_from_setters rt body o) as S.
  pose proof (saved_as_saved rt app _ Hrt V S) as Hsaved.
  pose proof (hydrate_fields _ (validate_nil_hydrate _ V)) as (Hn & Hc & Hp & Hd & Hs & He & Hk).
  destruct (validate_nil_each _ V) as (Vn & Vc & Vp & Vd & Vs & Ve & Vk).
  pose proof (assign_name rt body (with_defaults o)) as An.
  pose proof (assign_category rt body (with_defaults o)) as Ac.
  pose proof (assign_price rt body (with_defaults o)) as Ap.
  pose proof (assign_duration rt body (with_defaults o)) as Ad.
  pose proof (assign_status rt body (with_defaults o)) as As.
  pose proof (assign_description rt body (with_defaults o)) as Ae.
  pose proof (assign_clients rt body (with_defaults o)) as Ak.
  revert Hlen Hsaved Hn Hc Hp Hd Hs He Hk Vn Vc Vp Vd Vs Ve Vk An Ac Ap Ad As Ae Ak V.
  generalize (assign rt body (hydrate (with_defaults o))). intros p1 Hlen Hsaved Hn Hc Hp Hd Hs He Hk
    Vn Vc Vp Vd Vs Ve Vk An Ac Ap Ad As Ae Ak V.
  set (f1 := commit (pre_save rt app p1)) in *.
  assert (category f1 = stored (category p1) /\ price f1 = stored (price p1)
          /\ duration f1 = stored (duration p1) /\ status f1 = stored (status p1)
          /\ description f1 = stored (description p1)
          /\ clients f1 = stored (clients p1)) as (Fc & Fp & Fd & Fs & Fe & Fk).
  { unfold f1. rewrite pre_save_frame. by repeat split. }
  assert (category (assign rt body (hydrate f1)) = category p1) as Ec.
  { rewrite assign_category, Fc, Ac. apply set_string_again. by rewrite <- Ac. }
  assert (price (assign rt body (hydrate f1)) = price p1) as Ep.
  { rewrite assign_price, Fp, Ap. apply set_number_again. by rewrite <- Ap. }
  assert (duration (assign rt body (hydrate f1)) = duration p1) as Ed.
  { rewrite assign_duration, Fd, Ad. apply set_string_again. by rewrite <- Ad. }
  assert (status (assign rt body (hydrate f1)) = status p1) as Es.
  { rewrite assign_status, Fs, As. apply set_string_again. by rewrite <- As. }
  assert (description (assign rt body (hydrate f1)) = description p1) as Ee.
  { rewrite assign_description, Fe, Ae. apply set_string_again. by rewrite <- Ae. }
  assert (clients (assign rt body (hydrate f1)) = clients p1) as Ek.
  { rewrite assign_clients, Fk, Ak. apply set_number_again. by rewrite <- Ak. }
  destruct (truthy (prop body "name")) eqn:T.
  - assert (assign rt body (hydrate f1) = p1) as ->; [|done].
    apply paths_ext; try done.
    rewrite assign_name, An. by rewrite !or_truthy.
  - assert (assign rt body (hydrate f1) = hydrate f1) as ->.
    { apply paths_ext; cbn [hydrate name category price duration status description clients].
      - rewrite assign_name. rewrite or_falsy by (unfold falsy; by rewrite T).
        apply set_string_read_trimmed. intros n E. by apply (proj1 Hsaved).
      - by rewrite Ec, Fc.
      - by rewrite Ep, Fp.
      - by rewrite Ed, Fd.
      - by rewrite Es, Fs.
      - by rewrite Ee, Fe.
      - by rewrite Ek, Fk. }
    split; [|by apply pre_save_saved].
    apply validate_each_nil; cbn [hydrate name category price duration status description
                                    clients].
    + destruct (required_string_Val "name" name_path
                  "El nombre del servicio es obligatorio" (name p1) (or_introl eq_refl) Vn)
        as [n1 Hn1].
      assert (n1 <> []) as Hne.
      { rewrite Hn1 in Vn. intros ->. discriminate Vn. }
      assert (exists u, name f1 = Val u /\ u <> []) as (u & Hu & Hune).
      { unfold f1. rewrite pre_save_frame. cbn [commit name set_name].
        rewrite (pre_save_name rt app p1 _ Hn1). destruct app.
        - rewrite An in Hn1. apply set_string_trimmed in Hn1 as [n0 ->]; [|done].
          destruct (capitalize_head rt n0 Hrt Hne) as (h & t & -> & _). by exists (h :: t).
        - by exists n1. }
      rewrite Hu.
      apply (maxlength_checked "name" name_path "El nombre del servicio es obligatorio" 100
               "El nombre no puede exceder 100 caracteres"); [done..|].
      exists u. split; [done|]. split; [done|]. by apply Hlen.
    + by rewrite Fc, <- Hc.
    + by rewrite Fp, <- Hp.
    + by rewrite Fd, <- Hd.
    + by rewrite Fs, <- Hs.
    + by rewrite Fe, <- He.
    + by rewrite Fk, <- Hk.
Qed.

(** An update of a record that passes validation. *)
Lemma updateService_ok app rt dev req now w i old :
  castObjectId (params_id req) = Some i ->
  docs w !! i = Some old ->
  validate (assign rt (req_body req) (hydrate (with_defaults (fields old)))) = [] ->
  exists s,
    updateService app rt dev req now w =
      (inr {| code := 200; json := WithService "Servicio actualizado exitosamente" (i, s) |},
       (updateService app rt dev req now w).2)
    /\ fields s = commit (pre_save rt app (assign rt (req_body req) (hydrate (with_defaults (fields old)))))
    /\ createdAt s = createdAt old
    /\ (docs (updateService app rt dev req now w).2 !! i = Some s
        \/ docs (updateService app rt dev req now w).2 !! i = Some old).
Proof.
  intros Hid Hold. rewrite (updateService_run app rt dev req now w i old Hid Hold). cbv zeta.
  generalize (assign rt (req_body req) (hydrate (with_defaults (fields old)))). intros p ->.
  eexists. split; [reflexivity|]. split; [reflexivity|]. split; [reflexivity|].
  cbn [snd]. destruct (_ || _); cbn [docs]; [left; apply lookup_insert_eq | by right].
Qed.

Lemma updateService_200_found app rt dev req now w i m s :
  castObjectId (params_id req) = Some i ->
  (updateService app rt dev req now w).1 =
    inr {| code := 200; json := WithService m (i, s) |} ->
  exists old, docs w !! i = Some old
              /\ validate (assign rt (req_body req) (hydrate (with_defaults (fields old)))) = [].
Proof.
  intros Hid H. destruct (docs w !! i) as [old|] eqn:Hold.
  - exists old. split; [done|]. revert H.
    rewrite (updateService_run app rt dev req now w i old Hid Hold). cbv zeta.
    generalize (assign rt (req_body req) (hydrate (with_defaults (fields old)))). intros p.
    by destruct (validate p).
  - by rewrite (updateService_absent app rt dev req now w i Hid Hold) in H.
Qed.

(** X18: an update answered 200, sent again, is answered 200 with a
    record of the same fields and the same creation time, when Unicode's
    table is as the development asks and the name the first update left
    has 100 code units at most (the hook of the back end may have
    lengthened it after validation). *)
Theorem update_repeated_same_record app rt dev req now now' w i m s :
  upper_table_stable rt ->
  castObjectId (params_id req) = Some i ->
  (updateService app rt dev req now w).1 =
    inr {| code := 200; json := WithService m (i, s) |} ->
  (forall n, name (fields s) = Val n -> (length n <= 100)%nat) ->
  exists s',
    (updateService app rt dev req now' (updateService app rt dev req now w).2).1 =
      inr {| code := 200;
             json := WithService "Servicio actualizado exitosamente" (i, s') |}
    /\ fields s' = fields s
    /\ createdAt s' = createdAt s.
Proof.
  intros Hrt Hid H Hlen.
  destruct (updateService_200_found app rt dev req now w i m s Hid H) as (old & Hold & V).
  destruct (updateService_ok app rt dev req now w i old Hid Hold V)
    as (s1 & Hrun & Hf & Hc & Hst).
  rewrite Hrun in H. cbn [fst] in H. injection H as _ <-.
  revert Hst. generalize (updateService app rt dev req now w).2. intros w1 Hst.
  rewrite Hf in Hlen.
  destruct (assign_again rt app (req_body req) (fields old) Hrt V Hlen) as [V2 E2].
  destruct Hst as [Hst | Hst].
  - rewrite <- Hf in V2, E2.
    assert (holds_defaults (fields s1)) as Hd1
      by (rewrite Hf; by apply assign_holds_defaults).
    pose proof (with_defaults_present _ Hd1) as W1.
    rewrite <- W1 in V2 at 1. rewrite <- W1 in E2 at 1.
    destruct (updateService_ok app rt dev req now' w1 i s1 Hid Hst V2)
      as (s2 & Hrun2 & Hf2 & Hc2 & _).
    exists s2. rewrite Hrun2. split; [done|]. split; [|done]. by rewrite Hf2, E2.
  - destruct (updateService_ok app rt dev req now' w1 i old Hid Hst V)
      as (s2 & Hrun2 & Hf2 & Hc2 & _).
    exists s2. rewrite Hrun2. split; [done|]. split; [by rewrite Hf2, Hf|by rewrite Hc2, Hc].
Qed.

Lemma update_repeated_same_record_witness :
  exists s',
    (updateService Backend ascii_runtime false
       (request id_7 [] (<["clients" := VNum 5]> ∅)) 3000%Z
       (updateService Backend ascii_runtime false
          (request id_7 [] (<["clients" := VNum 5]> ∅)) 2000%Z (one_service Backend)).2).1 =
      inr {| code := 200;
             json := WithService "Servicio actualizado exitosamente" (7%N, s') |}
    /\ fields s' = fields (scenario_record Backend 5 2000)
    /\ createdAt s' = createdAt (scenario_record Backend 5 2000).
Proof.
  apply (update_repeated_same_record Backend ascii_runtime false
           (request id_7 [] (<["clients" := VNum 5]> ∅)) 2000%Z 3000%Z (one_service Backend)
           7%N "Servicio actualizado exitosamente" (scenario_record Backend 5 2000)).
  - apply ascii_runtime_stable.
  - reflexivity.
  - reflexivity.
  - intros n [= <-]. vm_compute. lia.
Defined.

(** ** The categories, between the statistics and the listings *)

(** X19: the statistics and the listing of a category agree: a category
    is among the available ones of the snapshot, and is one of the six,
    exactly when its listing is answered 200 with a service at least. *)
Theorem available_category_has_services rt dev now req w st :
  (getServiceStats rt dev now w).1 = inr {| code := 200; json := StatsBody st |} ->
  (Val (params_category req) ∈ availableCategories st /\ params_category req ∈ categories)
  <-> exists services,
        (getServicesByCategory dev req w).1 =
          inr {| code := 200;
                 json := CategoryList (params_category req) (length services) services |}
        /\ services <> [].
Proof.
  intros Hrun. destruct (stats_categories rt dev now w st Hrun) as [_ Ha]. rewrite Ha.
  rewrite elem_of_distinct. split.
  - intros [[_ (i & s & Hs & Hc)] Hin].
    rewrite (getServicesByCategory_valid dev req w Hin). cbv zeta. cbn [fst].
    eexists. split; [reflexivity|].
    intros E. assert ((i, s) ∈ ([] : list (ObjectId * Stored))) as Habs.
    { rewrite <- E. by apply elem_of_sorted_filter. }
    by apply elem_of_nil in Habs.
  - intros (services & Hr & Hne).
    destruct (decide (params_category req ∈ categories)) as [Hin|Hout].
    + split; [|done]. split; [done|].
      rewrite (getServicesByCategory_valid dev req w Hin) in Hr. cbv zeta in Hr.
      cbn [fst] in Hr. injection Hr as _ Hr.
      destruct services as [|[i s] r]; [done|].
      assert ((i, s) ∈ (i, s) :: r) as Hd by apply list_elem_of_here.
      rewrite <- Hr in Hd. apply elem_of_sorted_filter in Hd as [Hd Hc].
      by exists i, s.
    + by rewrite (getServicesByCategory_invalid dev req w Hout) in Hr.
Qed.

Lemma available_category_has_services_witness :
  exists services,
    (getServicesByCategory false (request [] (js "Digital") ∅) (one_service Backend)).1 =
      inr {| code := 200;
             json := CategoryList (js "Digital") (length services) services |}
    /\ services <> [].
Proof.
  destruct (getServiceStats_answers ascii_runtime false 3000%Z (one_service Backend)) as [st Hst].
  apply (proj1 (available_category_has_services ascii_runtime false 3000%Z
                  (request [] (js "Digital") ∅) (one_service Backend) st Hst)).
  split; [|apply list_elem_of_here].
  destruct (stats_categories ascii_runtime false 3000%Z (one_service Backend) st Hst) as [_ Ha].
  rewrite Ha. apply elem_of_distinct. split; [discriminate|].
  exists 7%N, (seo_record Backend). split; reflexivity.
Defined.

(** The six filters by category split a list of records whose categories
    are of the enumeration. *)
Lemma count_by_category (l : list (ObjectId * Stored)) :
  Forall (fun d => exists c, category (fields d.2) = Val c /\ c ∈ categories) l ->
  length l =
    sum_list ((fun c => length (filter (category_is c) l)) <$> categories).
Proof.
  induction 1 as [|d l (c & Hc & Hin) _ IH]; [reflexivity|].
  cbn [categories fmap list_fmap sum_list sum_list_with] in IH |- *.
  rewrite !filter_cons. unfold categories in Hin.
  repeat case_decide; unfold category_is in *; rewrite Hc in *.
  all: repeat (apply elem_of_cons in Hin as [->|Hin]);
    [..|by apply elem_of_nil in Hin].
  all: try solve [exfalso; match goal with H : ¬ _ |- _ => apply H; reflexivity end].
  all: try solve [match goal with
                  | H : Val _ = Val _ |- _ => vm_compute in H; discriminate H
                  end].
  all: unfold id in *; cbn [length]; lia.
Qed.

Lemma category_count_valid dev w c :
  c ∈ categories ->
  category_count dev w c = length (filter (category_is c) (map_to_list (docs w))).
Proof.
  intros Hin. unfold category_count.
  rewrite (getServicesByCategory_valid dev (request [] c ∅) w Hin). cbv zeta.
  cbn [fst params_category request]. by rewrite sort_createdAt_desc_perm.
Qed.

(** X20: on a store the application reached every record is in the
    listing of one category exactly: the counts of the six listings add
    up to the number of records, which the statistics report as the
    total. *)
Theorem category_counts_add_up app rt dev now w :
  reachable app rt dev w ->
  sum_list (category_count dev w <$> categories) = size (docs w)
  /\ exists st,
       (getServiceStats rt dev now w).1 = inr {| code := 200; json := StatsBody st |}
       /\ totalServices (overview st) = sum_list (category_count dev w <$> categories).
Proof.
  intros Hw.
  assert (sum_list (category_count dev w <$> categories) = size (docs w)) as Hsum.
  { rewrite <- length_map_to_list.
    rewrite (count_by_category (map_to_list (docs w))).
    - f_equal. apply Forall_fmap_ext_1, Forall_forall.
      intros c Hc. by apply category_count_valid.
    - apply Forall_forall. intros [i s] Hin. apply elem_of_map_to_list in Hin.
      by destruct (reachable_record_ok app rt dev w Hw i s Hin) as (_ & Hc & _). }
  split; [exact Hsum|].
  pose proof (proj1 (getServiceStats_run rt dev now w)) as Hrun. cbv zeta in Hrun.
  eexists. split; [exact Hrun|]. cbn [overview totalServices].
  rewrite Hsum. apply length_map_to_list.
Qed.

Lemma category_counts_add_up_witness :
  sum_list (category_count false (one_service Backend) <$> categories)
  = size (docs (one_service Backend)).
Proof.
  apply (proj1 (category_counts_add_up Backend ascii_runtime false 3000%Z
                  (one_service Backend) (reachable_one_service Backend))).
Defined.
